(** * ChatSphere: the storage layer and the HTTP boundary, embedded in Rocq

    The development follows [shared/schema.ts] (the five tables),
    [server/storage.ts] ([DatabaseStorage]) and [server/routes.ts]
    (the Express handlers).

    - A table is the list of its rows; a row is a record with the columns
      of [pgTable].
    - A Drizzle query is the composition of [innerJoin], [leftJoin],
      [where_], [orderByDesc] and [limit] on such lists.
    - [ORDER BY] only fixes the order of rows with different keys: the
      order of ties is left to the database, so [orderByDesc] is a field of
      the class [QueryEngine] and every property is stated for an arbitrary
      engine.  A query without [ORDER BY] is read in table order; the
      handlers use such a result through [some], [length] and a count
      only, and no statement below speaks of its order.
    - Two more things are the engine's, the code of Drizzle, of the driver
      and of PostgreSQL not being part of the repository: what [.limit(n)]
      does with a number that is not a positive integer, and what a
      boolean column makes of a value that is not a boolean.
    - [count] is read at its declared type, [sql<number>].
    - A storage write runs in the monad [M]: it reads the values that
      [gen_random_uuid()], [now()] and [new Date()] produce from an
      environment, may throw, and what it wrote before a throw stays
      written (the code opens no transaction). *)

From Stdlib Require Import String List ZArith Bool Arith Lia.
From Stdlib Require Import Permutation Sorted.
Import ListNotations.

Local Open Scope string_scope.
Local Open Scope Z_scope.
Local Open Scope list_scope.

Set Implicit Arguments.

(** ** Rows of [shared/schema.ts] *)

(** A value handed to [.values({...})]: a key may be missing
    ([undefined], the column default applies), [null], or present. *)
Inductive Nullish (A : Type) : Type :=
| undefined : Nullish A
| null : Nullish A
| val : A -> Nullish A.
Arguments undefined {A}.
Arguments null {A}.
Arguments val {A} _.

(** The column value of a nullable column with default [d]. *)
Definition columnDefault {A : Type} (d : option A) (v : Nullish A) : option A :=
  match v with
  | undefined => d
  | null => None
  | val a => Some a
  end.

Module User.
Record t : Type := mk {
  id : string;
  email : option string;
  firstName : option string;
  lastName : option string;
  profileImageUrl : option string;
  isOnline : option bool;
  lastSeen : option Z;
  createdAt : option Z;
  updatedAt : option Z
}.
End User.

(** [createdAt] and [updatedAt] of the four tables below are declared
    [timestamp(...).defaultNow()]; every insert schema omits them, so the
    default always applies and the column is never NULL: it is a [Z]
    (milliseconds). *)
Module Conversation.
Record t : Type := mk {
  id : string;
  name : option string;
  isGroup : option bool;
  createdAt : Z;
  updatedAt : Z
}.
Definition set_updatedAt (c : t) (d : Z) : t :=
  mk (id c) (name c) (isGroup c) (createdAt c) d.
End Conversation.

Module ConversationMember.
Record t : Type := mk {
  id : string;
  conversationId : string;
  userId : string;
  joinedAt : Z
}.
End ConversationMember.

Module Message.
Record t : Type := mk {
  id : string;
  conversationId : string;
  senderId : string;
  content : string;
  messageType : option string;
  isEdited : option bool;
  createdAt : Z;
  updatedAt : Z
}.
End Message.

Module MessageReadReceipt.
Record t : Type := mk {
  id : string;
  messageId : string;
  userId : string;
  readAt : Z
}.
End MessageReadReceipt.

(** [insertConversationSchema], [insertConversationMemberSchema] and
    [insertMessageSchema]: the table's columns without [id] and the
    timestamps. *)
Record InsertConversation : Type := {
  ic_name : Nullish string;
  ic_isGroup : Nullish bool
}.

Record InsertConversationMember : Type := {
  icm_conversationId : string;
  icm_userId : string
}.

Record InsertMessage : Type := {
  im_conversationId : string;
  im_senderId : string;
  im_content : string;
  im_messageType : Nullish string;
  im_isEdited : Nullish bool
}.

(** The database: one list of rows per table. *)
Record Store : Type := mkStore {
  users : list User.t;
  conversations : list Conversation.t;
  conversationMembers : list ConversationMember.t;
  messages : list Message.t;
  messageReadReceipts : list MessageReadReceipt.t
}.

Definition emptyStore : Store := mkStore [] [] [] [] [].

(** ** The query builder *)

Section Query.
Variables A B : Type.

(** [.from(l).innerJoin(r, on)] *)
Definition innerJoin (l : list A) (r : list B) (on : A -> B -> bool)
  : list (A * B) :=
  flat_map (fun a => map (pair a) (filter (on a) r)) l.

(** [.from(l).leftJoin(r, on)]: a left row without a partner is kept,
    with NULL for the right columns. *)
Definition leftJoin (l : list A) (r : list B) (on : A -> B -> bool)
  : list (A * option B) :=
  flat_map (fun a =>
              match filter (on a) r with
              | [] => [(a, None)]
              | bs => map (fun b => (a, Some b)) bs
              end) l.

(** [.where(p)] *)
Definition where_ (p : A -> bool) (rows : list A) : list A := filter p rows.

(** [.limit(n)] *)
Definition limit (n : nat) (rows : list A) : list A := firstn n rows.

(** The aggregate [count] over all rows, without GROUP BY: always one
    row, holding the count. *)
Definition countStar (rows : list A) : list nat := [length rows].

(** [sql`${col} IS NULL`] on a column of the right side of a left join. *)
Definition isNull (x : option B) : bool :=
  match x with None => true | Some _ => false end.
End Query.

(** What the code can throw: a primary-key or foreign-key violation raised
    by the database (the constraints of [schema.ts]), another refusal of a
    query by the database, and a zod validation error. *)
Inductive Error : Type :=
| UniqueViolation
| ForeignKeyViolation
| DatabaseError
| ZodError.

Inductive Outcome (A : Type) : Type :=
| Ok : A -> Outcome A
| Throw : Error -> Outcome A.
Arguments Ok {A} _.
Arguments Throw {A} _.

(** A JavaScript number, as far as the handlers produce one: an integer,
    or [NaN] (what [parseInt] returns for a string that does not start
    with an integer). *)
Inductive Number : Type :=
| int : Z -> Number
| NaN : Number.

(** The database engine.

    [ORDER BY key DESC]: the engine returns the rows, all of them, with
    keys non-increasing.  Nothing else is known of the order.

    [.limit(n)] with a number computed at run time: for a positive integer
    the first [n] rows.  Whether another number (zero, a negative one,
    [NaN]) is left out of the query, sent as it is or refused is decided
    by Drizzle and PostgreSQL: nothing is assumed of [limitRows] there.

    [booleanColumn]: what the driver and PostgreSQL make of a JSON value
    that is not a boolean when it is bound to a boolean column, the value
    stored or a refusal; the argument is the JSON text. *)
Class QueryEngine : Type := {
  orderByDesc : forall {A : Type}, (A -> Z) -> list A -> list A;
  orderByDesc_Permutation :
    forall (A : Type) (key : A -> Z) (rows : list A),
      Permutation rows (orderByDesc key rows);
  orderByDesc_sorted :
    forall (A : Type) (key : A -> Z) (rows : list A),
      StronglySorted (fun x y => key y <= key x) (orderByDesc key rows);
  limitRows : forall {A : Type}, Number -> list A -> Outcome (list A);
  limitRows_positive :
    forall (A : Type) (n : Z) (rows : list A),
      0 < n -> limitRows (int n) rows = Ok (limit (Z.to_nat n) rows);
  booleanColumn : string -> Outcome (option bool)
}.

(** Two engines.  [insertDesc] puts a row before the first row whose key
    is not larger, so [sortDesc] keeps equal keys in reverse table order
    and [sortDesc (rev _)] keeps them in table order. *)
Section InsertionSort.
Variable A : Type.
Variable key : A -> Z.

Fixpoint insertDesc (x : A) (l : list A) : list A :=
  match l with
  | [] => [x]
  | y :: l' => if key y <=? key x then x :: l else y :: insertDesc x l'
  end.

Definition sortDesc (l : list A) : list A :=
  fold_left (fun acc x => insertDesc x acc) l [].

(** A limit sent to the database as it is: PostgreSQL refuses a negative
    one, and [NaN] is no integer. *)
Definition sentLimit (n : Number) (rows : list A) : Outcome (list A) :=
  match n with
  | int n => if n <? 0 then Throw DatabaseError
             else Ok (limit (Z.to_nat n) rows)
  | NaN => Throw DatabaseError
  end.

(** A limit that the query builder leaves out unless it is positive. *)
Definition droppedLimit (n : Number) (rows : list A) : Outcome (list A) :=
  match n with
  | int n => if 0 <? n then Ok (limit (Z.to_nat n) rows) else Ok rows
  | NaN => Ok rows
  end.
End InsertionSort.

(** PostgreSQL reads ["1"] and ["0"] as booleans and refuses, say, an
    array. *)
Definition sampleBooleanColumn (jsonText : string) : Outcome (option bool) :=
  if String.eqb jsonText "1" then Ok (Some true)
  else if String.eqb jsonText "0" then Ok (Some false)
  else Throw DatabaseError.

(** ** [server/storage.ts]: the reads *)

(** What [getUserConversations] returns for one conversation:
    [Conversation & { lastMessage?, unreadCount, otherMembers }]. *)
Record ConversationSummary : Type := {
  conversation : Conversation.t;
  lastMessage : option Message.t;
  unreadCount : nat;
  otherMembers : list User.t
}.

(** [Message & { sender: User }] *)
Record MessageWithSender : Type := {
  message : Message.t;
  sender : User.t
}.

(** JavaScript [n || 0] on a number. *)
Definition orZero (n : nat) : nat :=
  if Nat.eqb n 0 then 0%nat else n.

Definition neqb (a b : string) : bool := negb (String.eqb a b).

Section Reads.
Context {E : QueryEngine}.
Variable st : Store.

(** [getConversation] *)
Definition getConversation (id : string) : option Conversation.t :=
  hd_error (where_ (fun c => String.eqb (Conversation.id c) id)
              (conversations st)).

(** [getConversationMembers] *)
Definition getConversationMembers (conversationId : string) : list User.t :=
  map snd
    (where_ (fun r => String.eqb (ConversationMember.conversationId (fst r))
                        conversationId)
       (innerJoin (conversationMembers st) (users st)
          (fun cm u => String.eqb (ConversationMember.userId cm) (User.id u)))).

(** The three queries of the loop body of [getUserConversations]. *)
Definition lastMessageOf (conversationId : string) : option Message.t :=
  hd_error
    (limit 1%nat
       (orderByDesc Message.createdAt
          (where_ (fun m => String.eqb (Message.conversationId m) conversationId)
             (messages st)))).

Definition unreadMessagesOf (conversationId userId : string) : list nat :=
  countStar
    (where_ (fun r => String.eqb (Message.conversationId (fst r)) conversationId
                      && isNull (snd r)
                      && neqb (Message.senderId (fst r)) userId)
       (leftJoin (messages st) (messageReadReceipts st)
          (fun m r => String.eqb (MessageReadReceipt.messageId r) (Message.id m)
                      && String.eqb (MessageReadReceipt.userId r) userId))).

Definition otherMembersOf (conversationId userId : string) : list User.t :=
  map snd
    (where_ (fun r => String.eqb (ConversationMember.conversationId (fst r))
                        conversationId
                      && neqb (ConversationMember.userId (fst r)) userId)
       (innerJoin (conversationMembers st) (users st)
          (fun cm u => String.eqb (ConversationMember.userId cm) (User.id u)))).

Definition summarize (userId : string) (c : Conversation.t)
  : ConversationSummary :=
  {| conversation := c;
     lastMessage := lastMessageOf (Conversation.id c);
     unreadCount :=
       match hd_error (unreadMessagesOf (Conversation.id c) userId) with
       | Some n => orZero n
       | None => 0%nat
       end;
     otherMembers := otherMembersOf (Conversation.id c) userId |}.

(** The first query of [getUserConversations]. *)
Definition userConversations (userId : string) : list Conversation.t :=
  map snd
    (orderByDesc (fun r => Conversation.updatedAt (snd r))
       (where_ (fun r => String.eqb (ConversationMember.userId (fst r)) userId)
          (innerJoin (conversationMembers st) (conversations st)
             (fun cm c => String.eqb (ConversationMember.conversationId cm)
                            (Conversation.id c))))).

(** [getUserConversations] *)
Definition getUserConversations (userId : string)
  : list ConversationSummary :=
  map (summarize userId) (userConversations userId).
End Reads.

(** ** Failure and the environment *)

(** [getConversationMessages]: [limit = 50] when the argument is absent.
    The query throws when the engine refuses the limit. *)
Definition getConversationMessages {E : QueryEngine} (st : Store)
  (conversationId : string) (limit_ : option Number)
  : Outcome (list MessageWithSender) :=
  let limit_ := match limit_ with Some n => n | None => int 50 end in
  match
    limitRows limit_
      (orderByDesc (fun r => Message.createdAt (fst r))
         (where_ (fun r => String.eqb (Message.conversationId (fst r))
                             conversationId)
            (innerJoin (messages st) (users st)
               (fun m u => String.eqb (Message.senderId m) (User.id u)))))
  with
  | Ok messagesWithSender =>
      Ok (rev (map (fun r => {| message := fst r; sender := snd r |})
                 messagesWithSender))
  | Throw e => Throw e
  end.

(** The values the outside world supplies, in the order in which an
    execution asks for them: the [n]-th request gets [gen_random_uuid n]
    for a primary key default, [now n] for a [defaultNow()] column,
    [newDate n] for JavaScript's [new Date()]. *)
Record Env : Type := {
  gen_random_uuid : nat -> string;
  now : nat -> Z;
  newDate : nat -> Z
}.

Record World : Type := {
  store : Store;
  drawn : nat
}.

(** A computation reads the environment, changes the world and returns or
    throws; the world it leaves on a throw is the world at the throw. *)
Definition M (A : Type) : Type := Env -> World -> Outcome A * World.

Definition ret {A : Type} (a : A) : M A := fun _ w => (Ok a, w).

Definition bind {A B : Type} (m : M A) (k : A -> M B) : M B :=
  fun env w =>
    match m env w with
    | (Ok a, w') => k a env w'
    | (Throw e, w') => (Throw e, w')
    end.

Definition throw {A : Type} (e : Error) : M A := fun _ w => (Throw e, w).

(** [try { body } catch (error) { handler }] *)
Definition tryCatch {A : Type} (body : M A) (handler : Error -> M A) : M A :=
  fun env w =>
    match body env w with
    | (Ok a, w') => (Ok a, w')
    | (Throw e, w') => handler e env w'
    end.

Notation "x <- m ;; k" := (bind m (fun x => k))
  (at level 61, m at next level, right associativity).
Notation "m ;;; k" := (bind m (fun _ => k))
  (at level 61, right associativity).

(** Ask the environment for its next value. *)
Definition draw {A : Type} (f : Env -> nat -> A) : M A :=
  fun env w =>
    (Ok (f env (drawn w)), {| store := store w; drawn := S (drawn w) |}).

(** Run a read on the current database. *)
Definition query {A : Type} (f : Store -> A) : M A :=
  fun _ w => (Ok (f (store w)), w).

Definition queryOutcome {A : Type} (f : Store -> Outcome A) : M A :=
  fun _ w => (f (store w), w).

(** Run a statement that writes, or is refused by a constraint. *)
Definition statement (f : Store -> Outcome Store) : M unit :=
  fun _ w =>
    match f (store w) with
    | Ok st' => (Ok tt, {| store := st'; drawn := drawn w |})
    | Throw e => (Throw e, w)
    end.

Fixpoint forEach {A : Type} (body : A -> M unit) (l : list A) : M unit :=
  match l with
  | [] => ret tt
  | x :: l' => body x ;;; forEach body l'
  end.

(** ** The constraints of [schema.ts] *)

Definition hasUser (st : Store) (id : string) : bool :=
  existsb (fun u => String.eqb (User.id u) id) (users st).
Definition hasConversation (st : Store) (id : string) : bool :=
  existsb (fun c => String.eqb (Conversation.id c) id) (conversations st).
Definition hasMember (st : Store) (id : string) : bool :=
  existsb (fun m => String.eqb (ConversationMember.id m) id)
    (conversationMembers st).
Definition hasMessage (st : Store) (id : string) : bool :=
  existsb (fun m => String.eqb (Message.id m) id) (messages st).
Definition hasReceiptId (st : Store) (id : string) : bool :=
  existsb (fun r => String.eqb (MessageReadReceipt.id r) id)
    (messageReadReceipts st).

(** [insert(conversations)]: [id] is the primary key. *)
Definition insertConversation (row : Conversation.t) (st : Store)
  : Outcome Store :=
  if hasConversation st (Conversation.id row) then Throw UniqueViolation
  else Ok (mkStore (users st) (conversations st ++ [row])
             (conversationMembers st) (messages st) (messageReadReceipts st)).

(** [insert(conversationMembers)]: [id] is the primary key, and
    [conversationId] and [userId] reference [conversations.id] and
    [users.id].  No constraint mentions the pair of the two. *)
Definition insertConversationMember (row : ConversationMember.t) (st : Store)
  : Outcome Store :=
  if hasMember st (ConversationMember.id row) then Throw UniqueViolation
  else if negb (hasConversation st (ConversationMember.conversationId row)
                && hasUser st (ConversationMember.userId row))
  then Throw ForeignKeyViolation
  else Ok (mkStore (users st) (conversations st)
             (conversationMembers st ++ [row]) (messages st)
             (messageReadReceipts st)).

(** [insert(messages)] *)
Definition insertMessage (row : Message.t) (st : Store) : Outcome Store :=
  if hasMessage st (Message.id row) then Throw UniqueViolation
  else if negb (hasConversation st (Message.conversationId row)
                && hasUser st (Message.senderId row))
  then Throw ForeignKeyViolation
  else Ok (mkStore (users st) (conversations st) (conversationMembers st)
             (messages st ++ [row]) (messageReadReceipts st)).

(** [insert(messageReadReceipts)....onConflictDoNothing()]: the only
    unique index of the table is the primary key [id], so a conflict is a
    row with the same [id]; the row is then skipped and, not being
    inserted, not checked against the foreign keys. *)
Definition insertReadReceiptOnConflictDoNothing
  (row : MessageReadReceipt.t) (st : Store) : Outcome Store :=
  if hasReceiptId st (MessageReadReceipt.id row) then Ok st
  else if negb (hasMessage st (MessageReadReceipt.messageId row)
                && hasUser st (MessageReadReceipt.userId row))
  then Throw ForeignKeyViolation
  else Ok (mkStore (users st) (conversations st) (conversationMembers st)
             (messages st) (messageReadReceipts st ++ [row])).

(** [update(conversations).set({ updatedAt }).where(eq(conversations.id, id))] *)
Definition updateConversationUpdatedAt (id : string) (d : Z) (st : Store)
  : Outcome Store :=
  Ok (mkStore (users st)
        (map (fun c => if String.eqb (Conversation.id c) id
                       then Conversation.set_updatedAt c d else c)
           (conversations st))
        (conversationMembers st) (messages st) (messageReadReceipts st)).

(** ** [server/storage.ts]: the writes *)

Definition createConversation (conversation_ : InsertConversation)
  : M Conversation.t :=
  id <- draw gen_random_uuid ;;
  t <- draw now ;;
  let newConversation :=
    Conversation.mk id
      (columnDefault None (ic_name conversation_))
      (columnDefault (Some false) (ic_isGroup conversation_))
      t t in
  statement (insertConversation newConversation) ;;;
  ret newConversation.

Definition addConversationMember (member : InsertConversationMember)
  : M ConversationMember.t :=
  id <- draw gen_random_uuid ;;
  t <- draw now ;;
  let newMember :=
    ConversationMember.mk id (icm_conversationId member) (icm_userId member) t in
  statement (insertConversationMember newMember) ;;;
  ret newMember.

Definition createMessage (message_ : InsertMessage) : M Message.t :=
  id <- draw gen_random_uuid ;;
  t <- draw now ;;
  let newMessage :=
    Message.mk id (im_conversationId message_) (im_senderId message_)
      (im_content message_)
      (columnDefault (Some "text") (im_messageType message_))
      (columnDefault (Some false) (im_isEdited message_))
      t t in
  statement (insertMessage newMessage) ;;;
  (* Update conversation timestamp *)
  d <- draw newDate ;;
  statement (updateConversationUpdatedAt (im_conversationId message_) d) ;;;
  ret newMessage.

Definition markMessageAsRead (messageId userId : string) : M unit :=
  id <- draw gen_random_uuid ;;
  t <- draw now ;;
  statement (insertReadReceiptOnConflictDoNothing
               (MessageReadReceipt.mk id messageId userId t)).

(** ** [server/routes.ts]: the handlers *)

(** What a handler sends: [res.json(body)] or
    [res.status(code).json({ message })]. *)
Inductive Response (A : Type) : Type :=
| json : A -> Response A
| status : nat -> string -> Response A.
Arguments json {A} _.
Arguments status {A} _ _.

(** The body of POST /api/conversations, of the JSON type the zod schema
    accepts; [.min(1)] on [memberIds] is checked by [parse]. *)
Record CreateConversationBody : Type := {
  body_name : Nullish string;
  body_isGroup : Nullish bool;
  body_memberIds : list string
}.

(** The body of POST /api/conversations/:id/messages; [content] is
    required by the schema and may be missing from the request. *)
Record SendMessageBody : Type := {
  body_content : option string;
  body_messageType : Nullish string
}.

(** What POST /api/conversations/direct sends: the conversation found in
    the user's list, or the row just created. *)
Inductive DirectBody : Type :=
| Existing : ConversationSummary -> DirectBody
| Created : Conversation.t -> DirectBody.

Definition directId (b : DirectBody) : string :=
  match b with
  | Existing s => Conversation.id (conversation s)
  | Created c => Conversation.id c
  end.

(** JavaScript [!x] on a [boolean | null]. *)
Definition not_ (x : option bool) : bool :=
  match x with Some true => false | _ => true end.

(** [members.some(member => member.id === userId)] *)
Definition isMemberOf (members : list User.t) (userId : string) : bool :=
  existsb (fun member => String.eqb (User.id member) userId) members.

(** The predicate of [existingConversations.find] in the direct handler. *)
Definition isDirectWith (otherUserId : string) (conv : ConversationSummary)
  : bool :=
  not_ (Conversation.isGroup (conversation conv))
  && Nat.eqb (List.length (otherMembers conv)) 1
  && match hd_error (otherMembers conv) with
     | Some u => String.eqb (User.id u) otherUserId
     | None => false
     end.

Section Handlers.
Context {E : QueryEngine}.

(** GET /api/conversations *)
Definition getConversationsHandler (userId : string)
  : M (Response (list ConversationSummary)) :=
  tryCatch
    (conversations_ <- query (fun st => getUserConversations st userId) ;;
     ret (json conversations_))
    (fun _ => ret (status 500 "Failed to fetch conversations")).

(** POST /api/conversations *)
Definition postConversationsHandler (userId : string)
  (body : CreateConversationBody) : M (Response Conversation.t) :=
  tryCatch
    (match body_memberIds body with
     | [] => throw ZodError
     | _ :: _ => ret tt
     end ;;;
     (* Create conversation *)
     conversation_ <- createConversation
                        {| ic_name := body_name body;
                           ic_isGroup := body_isGroup body |} ;;
     (* Add creator as member *)
     addConversationMember
       {| icm_conversationId := Conversation.id conversation_;
          icm_userId := userId |} ;;;
     (* Add other members *)
     forEach
       (fun memberId =>
          if neqb memberId userId
          then addConversationMember
                 {| icm_conversationId := Conversation.id conversation_;
                    icm_userId := memberId |} ;;; ret tt
          else ret tt)
       (body_memberIds body) ;;;
     ret (json conversation_))
    (fun _ => ret (status 500 "Failed to create conversation")).

(** GET /api/conversations/:id/messages; [limit_] is what [parseInt]
    makes of the query parameter [limit], and is absent when the
    parameter is missing or empty. *)
Definition getMessagesHandler (userId id : string) (limit_ : option Number)
  : M (Response (list MessageWithSender)) :=
  tryCatch
    ((* Verify user is member of conversation *)
     members <- query (fun st => getConversationMembers st id) ;;
     if negb (isMemberOf members userId)
     then ret (status 403 "Access denied")
     else
       messages_ <- queryOutcome
                      (fun st => getConversationMessages st id
                                   (Some (match limit_ with
                                          | Some n => n
                                          | None => int 50
                                          end))) ;;
       ret (json messages_))
    (fun _ => ret (status 500 "Failed to fetch messages")).

(** POST /api/conversations/:id/messages *)
Definition postMessagesHandler (userId id : string) (body : SendMessageBody)
  : M (Response (option MessageWithSender)) :=
  tryCatch
    (content <- match body_content body with
                | Some c => ret c
                | None => throw ZodError
                end ;;
     (* Verify user is member of conversation *)
     members <- query (fun st => getConversationMembers st id) ;;
     if negb (isMemberOf members userId)
     then ret (status 403 "Access denied")
     else
       message_ <- createMessage
                     {| im_conversationId := id;
                        im_senderId := userId;
                        im_content := content;
                        im_messageType := body_messageType body;
                        im_isEdited := undefined |} ;;
       (* Mark as read by sender *)
       markMessageAsRead (Message.id message_) userId ;;;
       (* Get message with sender info *)
       messageWithSender <- queryOutcome
                              (fun st => getConversationMessages st id
                                           (Some (int 1))) ;;
       ret (json (hd_error messageWithSender)))
    (fun _ => ret (status 500 "Failed to send message")).

(** POST /api/messages/:id/read; the body sent is [{ success: true }]. *)
Definition postReadHandler (userId id : string) : M (Response bool) :=
  tryCatch
    (markMessageAsRead id userId ;;;
     ret (json true))
    (fun _ => ret (status 500 "Failed to mark message as read")).

(** POST /api/conversations/direct *)
Definition postDirectHandler (userId otherUserId : string)
  : M (Response DirectBody) :=
  tryCatch
    ((* Check if conversation already exists *)
     existingConversations <- query (fun st => getUserConversations st userId) ;;
     match find (isDirectWith otherUserId) existingConversations with
     | Some directConversation => ret (json (Existing directConversation))
     | None =>
         (* Create new direct conversation *)
         conversation_ <- createConversation
                            {| ic_name := null; ic_isGroup := val false |} ;;
         (* Add both users as members *)
         addConversationMember
           {| icm_conversationId := Conversation.id conversation_;
              icm_userId := userId |} ;;;
         addConversationMember
           {| icm_conversationId := Conversation.id conversation_;
              icm_userId := otherUserId |} ;;;
         ret (json (Created conversation_))
     end)
    (fun _ => ret (status 500 "Failed to create conversation")).
End Handlers.

(** ** The two engines *)

Section InsertionSortFacts.
Variable A : Type.
Variable key : A -> Z.

Lemma insertDesc_Permutation (x : A) (l : list A) :
  Permutation (x :: l) (insertDesc key x l).
Proof.
  induction l as [|y l IH]; simpl.
  - apply Permutation_refl.
  - destruct (key y <=? key x).
    + apply Permutation_refl.
    + eapply Permutation_trans; [apply perm_swap|].
      apply perm_skip, IH.
Qed.

Lemma insertDesc_sorted (x : A) (l : list A) :
  StronglySorted (fun a b => key b <= key a) l ->
  StronglySorted (fun a b => key b <= key a) (insertDesc key x l).
Proof.
  induction 1 as [|y l Hl IH Hy]; simpl.
  - constructor; constructor.
  - destruct (key y <=? key x) eqn:Hc.
    + apply Z.leb_le in Hc.
      constructor; [constructor; assumption|].
      constructor; [assumption|].
      rewrite Forall_forall in *. intros z Hz. specialize (Hy z Hz). lia.
    + apply Z.leb_gt in Hc.
      constructor; [assumption|].
      rewrite Forall_forall in *. intros z Hz.
      apply Permutation_in with (l' := x :: l) in Hz;
        [|apply Permutation_sym, insertDesc_Permutation].
      destruct Hz as [<-|Hz]; [lia|auto].
Qed.

Lemma fold_insertDesc_Permutation (l acc : list A) :
  Permutation (rev l ++ acc)
    (fold_left (fun acc x => insertDesc key x acc) l acc).
Proof.
  revert acc; induction l as [|x l IH]; intros acc; simpl.
  - apply Permutation_refl.
  - eapply Permutation_trans; [|apply IH].
    rewrite <- app_assoc. simpl.
    apply Permutation_app_head.
    apply insertDesc_Permutation.
Qed.

Lemma fold_insertDesc_sorted (l acc : list A) :
  StronglySorted (fun a b => key b <= key a) acc ->
  StronglySorted (fun a b => key b <= key a)
    (fold_left (fun acc x => insertDesc key x acc) l acc).
Proof.
  revert acc; induction l as [|x l IH]; intros acc Hacc; simpl.
  - assumption.
  - apply IH, insertDesc_sorted, Hacc.
Qed.

Lemma sortDesc_Permutation (l : list A) : Permutation l (sortDesc key l).
Proof.
  unfold sortDesc.
  eapply Permutation_trans; [|apply fold_insertDesc_Permutation].
  rewrite app_nil_r. apply Permutation_rev.
Qed.

Lemma sortDesc_sorted (l : list A) :
  StronglySorted (fun a b => key b <= key a) (sortDesc key l).
Proof. apply fold_insertDesc_sorted. constructor. Qed.
End InsertionSortFacts.

Lemma sentLimit_positive (A : Type) (n : Z) (rows : list A) :
  0 < n -> sentLimit (int n) rows = Ok (limit (Z.to_nat n) rows).
Proof.
  intros Hn. simpl. destruct (n <? 0) eqn:Hneg; [|reflexivity].
  apply Z.ltb_lt in Hneg. lia.
Qed.

Lemma droppedLimit_positive (A : Type) (n : Z) (rows : list A) :
  0 < n -> droppedLimit (int n) rows = Ok (limit (Z.to_nat n) rows).
Proof.
  intros Hn. simpl. apply Z.ltb_lt in Hn. now rewrite Hn.
Qed.

(** Ties in reverse table order; a limit is sent as it is. *)
Definition lastFirstEngine : QueryEngine :=
  {| orderByDesc := fun A key rows => sortDesc key rows;
     orderByDesc_Permutation := sortDesc_Permutation;
     orderByDesc_sorted := sortDesc_sorted;
     limitRows := sentLimit;
     limitRows_positive := sentLimit_positive;
     booleanColumn := sampleBooleanColumn |}.

(** Ties in table order; a limit that is not positive is left out. *)
Definition tableOrderEngine : QueryEngine :=
  {| orderByDesc := fun A key rows => sortDesc key (rev rows);
     orderByDesc_Permutation := fun A key rows =>
       Permutation_trans (Permutation_rev rows)
         (sortDesc_Permutation key (rev rows));
     orderByDesc_sorted := fun A key rows => sortDesc_sorted key (rev rows);
     limitRows := droppedLimit;
     limitRows_positive := droppedLimit_positive;
     booleanColumn := sampleBooleanColumn |}.

(** ** Integrity of the database

    The constraints that [schema.ts] declares and PostgreSQL maintains:
    each [id] is a primary key, and each [references(...)] column holds
    the [id] of a row of the referenced table. *)

Fixpoint nodupb (l : list string) : bool :=
  match l with
  | [] => true
  | x :: l' => negb (existsb (String.eqb x) l') && nodupb l'
  end.

Definition store_ok (st : Store) : bool :=
  nodupb (map User.id (users st))
  && nodupb (map Conversation.id (conversations st))
  && nodupb (map ConversationMember.id (conversationMembers st))
  && nodupb (map Message.id (messages st))
  && nodupb (map MessageReadReceipt.id (messageReadReceipts st))
  && forallb (fun cm => hasConversation st (ConversationMember.conversationId cm)
                        && hasUser st (ConversationMember.userId cm))
       (conversationMembers st)
  && forallb (fun m => hasConversation st (Message.conversationId m)
                       && hasUser st (Message.senderId m))
       (messages st)
  && forallb (fun r => hasMessage st (MessageReadReceipt.messageId r)
                       && hasUser st (MessageReadReceipt.userId r))
       (messageReadReceipts st).

Record StoreOk (st : Store) : Prop := {
  users_pk : NoDup (map User.id (users st));
  conversations_pk : NoDup (map Conversation.id (conversations st));
  conversationMembers_pk :
    NoDup (map ConversationMember.id (conversationMembers st));
  messages_pk : NoDup (map Message.id (messages st));
  messageReadReceipts_pk :
    NoDup (map MessageReadReceipt.id (messageReadReceipts st));
  conversationMembers_fk :
    forall cm, In cm (conversationMembers st) ->
      hasConversation st (ConversationMember.conversationId cm) = true
      /\ hasUser st (ConversationMember.userId cm) = true;
  messages_fk :
    forall m, In m (messages st) ->
      hasConversation st (Message.conversationId m) = true
      /\ hasUser st (Message.senderId m) = true;
  messageReadReceipts_fk :
    forall r, In r (messageReadReceipts st) ->
      hasMessage st (MessageReadReceipt.messageId r) = true
      /\ hasUser st (MessageReadReceipt.userId r) = true
}.

(** A computation keeps the database consistent. *)
Definition Preserves {A : Type} (m : M A) : Prop :=
  forall env w, StoreOk (store w) -> StoreOk (store (snd (m env w))).

(** ** The words of the specification *)

(** [hasReceipt(m, U)]: some receipt row is for the pair. *)
Definition hasReceipt (st : Store) (messageId userId : string) : bool :=
  existsb (fun r => String.eqb (MessageReadReceipt.messageId r) messageId
                    && String.eqb (MessageReadReceipt.userId r) userId)
    (messageReadReceipts st).

(** The messages of a conversation. *)
Definition messagesOf (st : Store) (conversationId : string) : list Message.t :=
  filter (fun m => String.eqb (Message.conversationId m) conversationId)
    (messages st).

(** The set [{m in messages(C) : sender(m) <> U /\ ~ hasReceipt(m, U)}]. *)
Definition unreadSet (st : Store) (conversationId userId : string)
  : list Message.t :=
  filter (fun m => neqb (Message.senderId m) userId
                   && negb (hasReceipt st (Message.id m) userId))
    (messagesOf st conversationId).

(** [U] has a membership row in [C]. *)
Definition isMember (st : Store) (conversationId userId : string) : bool :=
  existsb (fun cm => String.eqb (ConversationMember.conversationId cm)
                       conversationId
                     && String.eqb (ConversationMember.userId cm) userId)
    (conversationMembers st).

(** The membership rows of the pair, and the receipt rows of the pair. *)
Definition membershipsOf (st : Store) (conversationId userId : string)
  : list ConversationMember.t :=
  filter (fun cm => String.eqb (ConversationMember.conversationId cm)
                      conversationId
                    && String.eqb (ConversationMember.userId cm) userId)
    (conversationMembers st).

Definition receiptsOf (st : Store) (messageId userId : string)
  : list MessageReadReceipt.t :=
  filter (fun r => String.eqb (MessageReadReceipt.messageId r) messageId
                   && String.eqb (MessageReadReceipt.userId r) userId)
    (messageReadReceipts st).

(** The users that POST /api/conversations attaches, in order: the
    creator, then each requested member that is not the creator. *)
Definition attached (userId : string) (memberIds : list string) : list string :=
  userId :: filter (fun memberId => neqb memberId userId) memberIds.

(** [st'] is [st] with the conversation row [c] and the membership rows
    [rows], all of [c], appended; nothing else differs. *)
Record Grown (st st' : Store) (c : Conversation.t)
  (rows : list ConversationMember.t) : Prop := {
  grown_users : users st' = users st;
  grown_conversations : conversations st' = conversations st ++ [c];
  grown_members : conversationMembers st' = conversationMembers st ++ rows;
  grown_rows :
    Forall (fun r => ConversationMember.conversationId r = Conversation.id c)
      rows;
  grown_messages : messages st' = messages st;
  grown_receipts : messageReadReceipts st' = messageReadReceipts st
}.

(** Atomic creation, as the specification asks for it: afterwards the
    database holds the new conversation with a membership row for the
    creator and for every requested member, or it is what it was. *)
Definition atomicCreation (userId : string) (memberIds : list string)
  (st st' : Store) : Prop :=
  st' = st
  \/ exists c,
       conversations st' = conversations st ++ [c]
       /\ forall u, In u (userId :: memberIds) ->
            isMember st' (Conversation.id c) u = true.

(** ** Shapes of the database after a write *)

(** The world after [k] more values were drawn. *)
Definition advance (k : nat) (w : World) : World :=
  {| store := store w; drawn := k + drawn w |}.

(** [st] with membership rows appended, and with a conversation row
    appended. *)
Definition withMembers (st : Store) (rows : list ConversationMember.t) : Store :=
  mkStore (users st) (conversations st) (conversationMembers st ++ rows)
    (messages st) (messageReadReceipts st).

Definition withConversation (st : Store) (c : Conversation.t) : Store :=
  mkStore (users st) (conversations st ++ [c]) (conversationMembers st)
    (messages st) (messageReadReceipts st).

(** The rows the direct handler creates from the world [w]. *)
Definition directConversationRow (env : Env) (w : World) : Conversation.t :=
  Conversation.mk (gen_random_uuid env (drawn w)) None (Some false)
    (now env (1 + drawn w)) (now env (1 + drawn w)).

Definition directMemberRow (env : Env) (w : World) (k : nat) (userId : string)
  : ConversationMember.t :=
  ConversationMember.mk (gen_random_uuid env (k + drawn w))
    (gen_random_uuid env (drawn w)) userId (now env (S (k + drawn w))).

(** The body of the loop of POST /api/conversations, for the creator
    [userId] and the conversation [conversationId]. *)
Definition addOther (userId conversationId memberId : string) : M unit :=
  if neqb memberId userId
  then addConversationMember
         {| icm_conversationId := conversationId; icm_userId := memberId |} ;;;
       ret tt
  else ret tt.

(** One membership insert of that loop, and of the step before it. *)
Definition addOne (conversationId memberId : string) : M unit :=
  addConversationMember
    {| icm_conversationId := conversationId; icm_userId := memberId |} ;;;
  ret tt.

(** ** Sample data *)

Definition sampleUser (id : string) : User.t :=
  User.mk id None None None None (Some false) None None None.

(** Identifiers ["a"], ["b"], ...; the database clock starts at 1000, the
    server clock at 2000. *)
Definition sampleEnv : Env :=
  {| gen_random_uuid := fun n => String (Ascii.ascii_of_nat (97 + n)) EmptyString;
     now := fun n => 1000 + Z.of_nat n;
     newDate := fun n => 2000 + Z.of_nat n |}.

(** The same with both clocks stopped. *)
Definition frozenEnv : Env :=
  {| gen_random_uuid := gen_random_uuid sampleEnv;
     now := fun _ => 1000;
     newDate := fun _ => 1000 |}.

(** Three registered users and nothing else. *)
Definition world0 : World :=
  {| store := mkStore [sampleUser "alice"; sampleUser "bob"; sampleUser "eve"]
                [] [] [] [];
     drawn := 0 |}.

(** The world after the computation, and what it returned. *)
Definition after {A : Type} (env : Env) (m : M A) (w : World) : World :=
  snd (m env w).
Definition result {A : Type} (env : Env) (m : M A) (w : World) : Outcome A :=
  fst (m env w).

(** alice opens a direct conversation with bob (conversation ["a"]) ... *)
Definition world1 : World :=
  Eval vm_compute in
    after sampleEnv (postDirectHandler (E := tableOrderEngine) "alice" "bob") world0.

(** ... and sends "hello" (message ["g"], read by alice). *)
Definition world2 : World :=
  Eval vm_compute in
    after sampleEnv
      (postMessagesHandler (E := tableOrderEngine) "alice" "a"
         {| body_content := Some "hello"; body_messageType := undefined |})
      world1.

(** bob sends two replies (messages ["l"] and ["q"]). *)
Definition world3 : World :=
  Eval vm_compute in
    after sampleEnv
      (postMessagesHandler (E := tableOrderEngine) "bob" "a"
         {| body_content := Some "hi"; body_messageType := undefined |} ;;;
       postMessagesHandler (E := tableOrderEngine) "bob" "a"
         {| body_content := Some "there"; body_messageType := undefined |})
      world2.

(** With the clocks stopped, alice creates two groups with bob: two
    conversations, ["a"] and ["g"], with the same [updatedAt]. *)
Definition tieWorld : World :=
  Eval vm_compute in
    after frozenEnv
      (postConversationsHandler "alice"
         {| body_name := val "one"; body_isGroup := val true;
            body_memberIds := ["bob"] |} ;;;
       postConversationsHandler "alice"
         {| body_name := val "two"; body_isGroup := val true;
            body_memberIds := ["bob"] |})
      world0.

(** ** [server/storage.ts]: users and receipts *)

(** [UpsertUser], the insert type of [users]: every column may be left
    out; [id], a primary key with a default, may not be [null]. *)
Record UpsertUser : Type := {
  uu_id : option string;
  uu_email : Nullish string;
  uu_firstName : Nullish string;
  uu_lastName : Nullish string;
  uu_profileImageUrl : Nullish string;
  uu_isOnline : Nullish bool;
  uu_lastSeen : Nullish Z;
  uu_createdAt : Nullish Z;
  uu_updatedAt : Nullish Z
}.

(** [.set({ column: v })]: a key that is [undefined] is left out of the
    update. *)
Definition setColumn {A : Type} (old : option A) (v : Nullish A) : option A :=
  match v with
  | undefined => old
  | null => None
  | val a => Some a
  end.

(** [getUser] *)
Definition getUser (st : Store) (id : string) : option User.t :=
  hd_error (where_ (fun u => String.eqb (User.id u) id) (users st)).

(** The row [insert(users).values(userData)] proposes, with the defaults
    of the schema. *)
Definition insertedUser (id : string) (t : Z) (userData : UpsertUser) : User.t :=
  User.mk id
    (columnDefault None (uu_email userData))
    (columnDefault None (uu_firstName userData))
    (columnDefault None (uu_lastName userData))
    (columnDefault None (uu_profileImageUrl userData))
    (columnDefault (Some false) (uu_isOnline userData))
    (columnDefault (Some t) (uu_lastSeen userData))
    (columnDefault (Some t) (uu_createdAt userData))
    (columnDefault (Some t) (uu_updatedAt userData)).

(** The row after [set: { ...userData, updatedAt: new Date() }]. *)
Definition updatedUser (old : User.t) (userData : UpsertUser) (d : Z) : User.t :=
  User.mk (User.id old)
    (setColumn (User.email old) (uu_email userData))
    (setColumn (User.firstName old) (uu_firstName userData))
    (setColumn (User.lastName old) (uu_lastName userData))
    (setColumn (User.profileImageUrl old) (uu_profileImageUrl userData))
    (setColumn (User.isOnline old) (uu_isOnline userData))
    (setColumn (User.lastSeen old) (uu_lastSeen userData))
    (setColumn (User.createdAt old) (uu_createdAt userData))
    (Some d).

(** [email] is [unique()]: a value that is not NULL may not be the email
    of another row. *)
Definition emailTaken (st : Store) (id : string) (email : option string) : bool :=
  match email with
  | None => false
  | Some e =>
      existsb (fun u => neqb (User.id u) id
                        && match User.email u with
                           | Some e' => String.eqb e' e
                           | None => false
                           end)
        (users st)
  end.

Definition withUsers (st : Store) (us : list User.t) : Store :=
  mkStore us (conversations st) (conversationMembers st) (messages st)
    (messageReadReceipts st).

(** The row the upsert writes for [id]: the updated row when [id] is
    there, the inserted one when it is not. *)
Definition upsertedUser (st : Store) (id : string) (t d : Z)
  (userData : UpsertUser) : User.t :=
  match getUser st id with
  | Some old => updatedUser old userData d
  | None => insertedUser id t userData
  end.

(** [insert(users).values(userData).onConflictDoUpdate({ target: users.id,
    set })] *)
Definition upsertUserStatement (id : string) (t d : Z) (userData : UpsertUser)
  (st : Store) : Outcome Store :=
  let row := upsertedUser st id t d userData in
  if emailTaken st id (User.email row) then Throw UniqueViolation
  else if hasUser st id
  then Ok (withUsers st
             (map (fun u => if String.eqb (User.id u) id
                            then updatedUser u userData d else u)
                (users st)))
  else Ok (withUsers st (users st ++ [row])).

(** [upsertUser]; [new Date()] is read while the query is built. *)
Definition upsertUser (userData : UpsertUser) : M User.t :=
  d <- draw newDate ;;
  id <- match uu_id userData with
        | Some id => ret id
        | None => draw gen_random_uuid
        end ;;
  t <- draw now ;;
  user <- query (fun st => upsertedUser st id t d userData) ;;
  statement (upsertUserStatement id t d userData) ;;;
  ret user.

(** [update(users).set({ isOnline, lastSeen, updatedAt }).where(eq(users.id,
    userId))] *)
Definition updateUserStatus (userId : string) (isOnline_ : Nullish bool)
  (lastSeen_ updatedAt_ : Z) (st : Store) : Outcome Store :=
  Ok (withUsers st
        (map (fun u => if String.eqb (User.id u) userId
                       then User.mk (User.id u) (User.email u)
                              (User.firstName u) (User.lastName u)
                              (User.profileImageUrl u)
                              (setColumn (User.isOnline u) isOnline_)
                              (Some lastSeen_) (User.createdAt u)
                              (Some updatedAt_)
                       else u)
           (users st))).

(** The value of a key of a JSON request body that the handler does not
    validate: the key may be missing, or hold [null], a boolean, or
    something else (a number, a string, an array, an object), kept as its
    JSON text. *)
Inductive BodyValue : Type :=
| missing : BodyValue
| jsonNull : BodyValue
| jsonBoolean : bool -> BodyValue
| jsonOther : string -> BodyValue.

(** What [.set({ isOnline })] hands to the boolean column: a boolean and
    [null] as they are, nothing for [undefined], and for any other value
    what the engine makes of it. *)
Definition booleanParam {E : QueryEngine} (v : BodyValue)
  : Outcome (Nullish bool) :=
  match v with
  | missing => Ok undefined
  | jsonNull => Ok null
  | jsonBoolean b => Ok (val b)
  | jsonOther jsonText =>
      match booleanColumn jsonText with
      | Ok (Some b) => Ok (val b)
      | Ok None => Ok null
      | Throw e => Throw e
      end
  end.

(** [updateUserOnlineStatus]; [isOnline] is declared a [boolean], and the
    handler hands over whatever the body holds under that key. *)
Definition updateUserOnlineStatus {E : QueryEngine} (userId : string)
  (isOnline_ : BodyValue) : M unit :=
  lastSeen_ <- draw newDate ;;
  updatedAt_ <- draw newDate ;;
  statement (fun st =>
               match booleanParam isOnline_ with
               | Ok v => updateUserStatus userId v lastSeen_ updatedAt_ st
               | Throw e => Throw e
               end).

(** [getMessageReadReceipts]: [{ user, readAt }] per receipt. *)
Definition getMessageReadReceipts (st : Store) (messageId : string)
  : list (User.t * Z) :=
  map (fun r => (snd r, MessageReadReceipt.readAt (fst r)))
    (where_ (fun r => String.eqb (MessageReadReceipt.messageId (fst r))
                        messageId)
       (innerJoin (messageReadReceipts st) (users st)
          (fun r u => String.eqb (MessageReadReceipt.userId r) (User.id u)))).

(** ** [server/routes.ts]: the other handlers *)

(** GET /api/auth/user: the user row, or nothing. *)
Definition authUserHandler (userId : string) : M (Response (option User.t)) :=
  tryCatch
    (user <- query (fun st => getUser st userId) ;;
     ret (json user))
    (fun _ => ret (status 500 "Failed to fetch user")).

(** POST /api/users/status; [isOnline_] is [req.body.isOnline]. *)
Definition postStatusHandler {E : QueryEngine} (userId : string)
  (isOnline_ : BodyValue) : M (Response bool) :=
  tryCatch
    (updateUserOnlineStatus userId isOnline_ ;;;
     ret (json true))
    (fun _ => ret (status 500 "Failed to update user status")).

(** GET /api/users *)
Definition getUsersHandler (userId : string) : M (Response (list User.t)) :=
  tryCatch
    ((* For simplicity, return empty array *)
     ret (json []))
    (fun _ => ret (status 500 "Failed to fetch users")).

(** ** The client: names shown for users and conversations *)

(** JavaScript truthiness of a [string | null]. *)
Definition truthy (s : option string) : bool :=
  match s with
  | Some s => negb (String.eqb s "")
  | None => false
  end.

(** JavaScript [s || d] on a [string | null]. *)
Definition orElse (s : option string) (d : string) : string :=
  if truthy s then match s with Some s => s | None => d end else d.

(** A [string | null] inside a template literal. *)
Definition interpolate (s : option string) : string :=
  match s with
  | Some s => s
  | None => "null"
  end.

(** [getUserDisplayName] of the chat components. *)
Definition getUserDisplayName (user : User.t) : string :=
  if truthy (User.firstName user) && truthy (User.lastName user)
  then interpolate (User.firstName user) ++ " "
       ++ interpolate (User.lastName user)
  else orElse (User.email user) "Unknown User".

(** [getConversationName] of the sidebar, on an entry of the conversation
    list. *)
Definition getConversationName (conv : ConversationSummary) : string :=
  if negb (not_ (Conversation.isGroup (conversation conv)))
  then orElse (Conversation.name (conversation conv)) "Group Chat"
  else match otherMembers conv with
       | otherUser :: _ => getUserDisplayName otherUser
       | [] => "Direct Chat"
       end.

(** ** Uniqueness of emails *)

Definition emails_unique (st : Store) : Prop :=
  forall u v e, In u (users st) -> In v (users st) ->
    User.email u = Some e -> User.email v = Some e -> User.id u = User.id v.

(** ** Shapes of an upsert and of a run of inserts *)

(** The id and the database time of an upsert: the id given, or else the
    next generated one. *)
Definition upsertId (env : Env) (w : World) (userData : UpsertUser) : string :=
  match uu_id userData with
  | Some id => id
  | None => gen_random_uuid env (1 + drawn w)
  end.

Definition upsertDraws (userData : UpsertUser) : nat :=
  match uu_id userData with Some _ => 2 | None => 3 end.

Definition upsertNow (env : Env) (w : World) (userData : UpsertUser) : Z :=
  now env (upsertDraws userData - 1 + drawn w).

(** A sample argument of [upsertUser]. *)
Definition sampleUpsert (id : option string) (email : Nullish string)
  : UpsertUser :=
  {| uu_id := id; uu_email := email; uu_firstName := val "Bob";
     uu_lastName := undefined; uu_profileImageUrl := undefined;
     uu_isOnline := undefined; uu_lastSeen := undefined;
     uu_createdAt := undefined; uu_updatedAt := undefined |}.

(** The ids the membership inserts of a run draw: every second value of
    the environment, from [start] on. *)
Definition memberRowIds (env : Env) (start k : nat) : list string :=
  map (fun j => gen_random_uuid env (2 * j + start)) (seq 0 k).

(** A computation keeps a property of the database. *)
Definition Keeps (P : Store -> Prop) {A : Type} (m : M A) : Prop :=
  forall env w, P (store w) -> P (store (snd (m env w))).

(** ** Facts about lists and queries *)

Create HintDb chat discriminated.

Lemma orZero_id (n : nat) : orZero n = n.
Proof. destruct n; reflexivity. Qed.

Lemma neqb_neq (a b : string) : neqb a b = true <-> a <> b.
Proof.
  unfold neqb. rewrite negb_true_iff. apply String.eqb_neq.
Qed.

Lemma neqb_refl (a : string) : neqb a a = false.
Proof. unfold neqb. now rewrite String.eqb_refl. Qed.

Lemma filter_filter (A : Type) (f g : A -> bool) (l : list A) :
  filter f (filter g l) = filter (fun x => g x && f x) l.
Proof.
  induction l as [|x l IH]; simpl; [reflexivity|].
  destruct (g x); simpl; [destruct (f x)|]; now rewrite IH.
Qed.

Lemma filter_nil_existsb (A : Type) (f : A -> bool) (l : list A) :
  filter f l = [] -> existsb f l = false.
Proof.
  induction l as [|x l IH]; simpl; [reflexivity|].
  destruct (f x); [discriminate|]. exact IH.
Qed.

Lemma filter_cons_existsb (A : Type) (f : A -> bool) (l : list A) (y : A) (ys : list A) :
  filter f l = y :: ys -> existsb f l = true.
Proof.
  intros H. apply existsb_exists. exists y.
  apply filter_In. rewrite H. now left.
Qed.

Lemma filter_none (A : Type) (f : A -> bool) (l : list A) :
  (forall x, In x l -> f x = false) -> filter f l = [].
Proof.
  induction l as [|x l IH]; simpl; intros H; [reflexivity|].
  rewrite (H x (or_introl eq_refl)). apply IH. intros y Hy. apply H. now right.
Qed.

Section ListFacts.
Variables A B : Type.

Lemma StronglySorted_map (R : B -> B -> Prop) (f : A -> B) (l : list A) :
  StronglySorted (fun x y => R (f x) (f y)) l -> StronglySorted R (map f l).
Proof.
  induction 1 as [|x l Hl IH Hx]; simpl; constructor; [assumption|].
  rewrite Forall_forall in *. intros y Hy.
  apply in_map_iff in Hy as [z [<- Hz]]. now apply Hx.
Qed.

Lemma StronglySorted_app_inv (R : A -> A -> Prop) (l1 l2 : list A) :
  StronglySorted R (l1 ++ l2) ->
  StronglySorted R l1 /\ StronglySorted R l2
  /\ forall x y, In x l1 -> In y l2 -> R x y.
Proof.
  induction l1 as [|a l1 IH]; simpl; intros H.
  - repeat split; [constructor|assumption|contradiction].
  - inversion H as [|? ? Hs Hf]; subst.
    destruct (IH Hs) as [H1 [H2 H12]].
    rewrite Forall_forall in Hf.
    repeat split; [|assumption|].
    + constructor; [assumption|].
      rewrite Forall_forall. intros y Hy. apply Hf, in_or_app. now left.
    + intros x y [<-|Hx] Hy; [apply Hf, in_or_app; now right|now apply H12].
Qed.

Lemma StronglySorted_rev (R : A -> A -> Prop) (l : list A) :
  StronglySorted R l -> StronglySorted (fun x y => R y x) (rev l).
Proof.
  induction 1 as [|x l Hl IH Hx]; simpl; [constructor|].
  clear Hl. revert IH. generalize (rev_involutive l).
  assert (Hin : forall y, In y (rev l) -> R x y).
  { rewrite Forall_forall in Hx. intros y Hy. apply Hx. now apply in_rev. }
  intros _. revert Hin. generalize (rev l) as k. clear Hx l.
  induction k as [|z k IHk]; simpl; intros Hin Hs.
  - constructor; constructor.
  - inversion Hs as [|? ? Hs' Hf]; subst.
    constructor.
    + apply IHk; [intros y Hy; apply Hin; now right|assumption].
    + rewrite Forall_forall in *. intros y Hy.
      apply in_app_or in Hy as [Hy|[<-|[]]]; [now apply Hf|].
      apply Hin. now left.
Qed.

(** The rows of an inner join. *)
Lemma in_innerJoin (l : list A) (r : list B) (on : A -> B -> bool) a b :
  In (a, b) (innerJoin l r on) <-> In a l /\ In b r /\ on a b = true.
Proof.
  unfold innerJoin. rewrite in_flat_map. split.
  - intros [x [Hx H]]. apply in_map_iff in H as [y [Heq Hy]].
    inversion Heq; subst. apply filter_In in Hy. tauto.
  - intros [Ha [Hb Hon]]. exists a. split; [assumption|].
    apply in_map, filter_In. now split.
Qed.

Lemma innerJoin_app (l1 l2 : list A) (r : list B) (on : A -> B -> bool) :
  innerJoin (l1 ++ l2) r on = innerJoin l1 r on ++ innerJoin l2 r on.
Proof. unfold innerJoin. apply flat_map_app. Qed.

(** When every left row has exactly one partner, the join has the left
    rows, in their order. *)
Lemma innerJoin_functional (l : list A) (r : list B) (on : A -> B -> bool) :
  (forall a, In a l -> exists b, filter (on a) r = [b]) ->
  map fst (innerJoin l r on) = l.
Proof.
  unfold innerJoin.
  induction l as [|a l IH]; simpl; intros H; [reflexivity|].
  destruct (H a (or_introl eq_refl)) as [b Hb]. rewrite Hb. simpl.
  f_equal. apply IH. intros x Hx. apply H. now right.
Qed.

(** The rows of a left join that have no partner, counted. *)
Lemma leftJoin_count_null (l : list A) (r : list B) (on : A -> B -> bool)
  (p : A -> bool) :
  List.length
    (filter (fun x => p (fst x) && isNull (snd x)) (leftJoin l r on))
  = List.length (filter (fun a => p a && negb (existsb (on a) r)) l).
Proof.
  unfold leftJoin.
  induction l as [|a l IH]; [reflexivity|].
  cbn [flat_map]. rewrite filter_app, length_app, IH. clear IH.
  cbn [filter].
  destruct (filter (on a) r) as [|b bs] eqn:Hf.
  - rewrite (filter_nil_existsb _ _ Hf). simpl.
    rewrite !andb_true_r. now destruct (p a).
  - rewrite (filter_cons_existsb _ _ Hf). rewrite andb_false_r.
    rewrite filter_none; [reflexivity|].
    intros x Hx. apply in_map_iff in Hx as [y [<- _]]. simpl.
    apply andb_false_r.
Qed.
End ListFacts.

Lemma in_firstn (A : Type) (n : nat) (l : list A) (x : A) :
  In x (firstn n l) -> In x l.
Proof.
  intros H. rewrite <- (firstn_skipn n l). apply in_or_app. now left.
Qed.

Lemma map_fst_filter (A B : Type) (p : A -> bool) (l : list (A * B)) :
  map fst (filter (fun r => p (fst r)) l) = filter p (map fst l).
Proof.
  induction l as [|x l IH]; simpl; [reflexivity|].
  destruct (p (fst x)); simpl; now rewrite IH.
Qed.

(** A key that occurs once selects its row. *)
Lemma filter_key_unique (A : Type) (key : A -> string) (l : list A) (x : A) :
  NoDup (map key l) -> In x l ->
  filter (fun y => String.eqb (key x) (key y)) l = [x].
Proof.
  induction l as [|y l IH]; simpl; intros Hnd Hin; [contradiction|].
  inversion Hnd as [|? ? Hny Hnd']; subst.
  destruct Hin as [->|Hin].
  - rewrite String.eqb_refl. f_equal.
    apply filter_none. intros z Hz. apply String.eqb_neq. intros Heq.
    apply Hny. rewrite Heq. now apply in_map.
  - destruct (String.eqb (key x) (key y)) eqn:Heq.
    + apply String.eqb_eq in Heq. exfalso. apply Hny. rewrite <- Heq.
      now apply in_map.
    + now apply IH.
Qed.

Lemma nodupb_NoDup (l : list string) : nodupb l = true <-> NoDup l.
Proof.
  induction l as [|x l IH]; simpl.
  - split; [constructor|reflexivity].
  - rewrite andb_true_iff, negb_true_iff, IH. split.
    + intros [Hx Hl]. constructor; [|assumption].
      intros Hin. assert (existsb (String.eqb x) l = true) as Ht.
      { apply existsb_exists. exists x. split; [assumption|apply String.eqb_refl]. }
      congruence.
    + intros H. inversion H as [|? ? Hx Hl]; subst. split; [|assumption].
      destruct (existsb (String.eqb x) l) eqn:He; [|reflexivity].
      apply existsb_exists in He as [y [Hy Heq]].
      apply String.eqb_eq in Heq. subst. contradiction.
Qed.

Lemma store_ok_StoreOk (st : Store) : store_ok st = true <-> StoreOk st.
Proof.
  unfold store_ok. rewrite !andb_true_iff, !nodupb_NoDup, !forallb_forall.
  split.
  - intros [[[[[[[H1 H2] H3] H4] H5] H6] H7] H8].
    constructor; try assumption; intros x Hx.
    + apply andb_true_iff. now apply H6.
    + apply andb_true_iff. now apply H7.
    + apply andb_true_iff. now apply H8.
  - intros [H1 H2 H3 H4 H5 H6 H7 H8].
    repeat split; try assumption; intros x Hx; apply andb_true_iff; auto.
Qed.

Lemma hasConversation_In (st : Store) (id : string) :
  hasConversation st id = true <->
  exists c, In c (conversations st) /\ Conversation.id c = id.
Proof.
  unfold hasConversation. rewrite existsb_exists.
  split; intros [c [Hc H]]; exists c; (split; [assumption|]);
    now apply String.eqb_eq.
Qed.

Lemma hasUser_In (st : Store) (id : string) :
  hasUser st id = true <-> exists u, In u (users st) /\ User.id u = id.
Proof.
  unfold hasUser. rewrite existsb_exists.
  split; intros [c [Hc H]]; exists c; (split; [assumption|]);
    now apply String.eqb_eq.
Qed.

Lemma isMember_In (st : Store) (conversationId userId : string) :
  isMember st conversationId userId = true <->
  exists cm, In cm (conversationMembers st)
             /\ ConversationMember.conversationId cm = conversationId
             /\ ConversationMember.userId cm = userId.
Proof.
  unfold isMember. rewrite existsb_exists.
  split; intros [cm [Hc H]]; exists cm; (split; [assumption|]).
  - apply andb_true_iff in H as [H1 H2].
    split; now apply String.eqb_eq.
  - destruct H as [-> ->]. now rewrite !String.eqb_refl.
Qed.

(** ** Facts about the reads *)

Lemma orderByDesc_nil {E : QueryEngine} (A : Type) (key : A -> Z) :
  orderByDesc key [] = [].
Proof. apply Permutation_nil, orderByDesc_Permutation. Qed.

Section ReadFacts.
Context {E : QueryEngine}.
Variable st : Store.

(** The conversations listed for a user: those with a membership row of
    the user. *)
Lemma in_userConversations (userId : string) (c : Conversation.t) :
  In c (userConversations st userId) <->
  In c (conversations st) /\ isMember st (Conversation.id c) userId = true.
Proof.
  unfold userConversations, where_. rewrite in_map_iff. split.
  - intros [[cm c'] [Heq Hin]]. simpl in Heq. subst c'.
    apply Permutation_in with (l' := filter
      (fun r => String.eqb (ConversationMember.userId (fst r)) userId)
      (innerJoin (conversationMembers st) (conversations st)
         (fun cm c => String.eqb (ConversationMember.conversationId cm)
                        (Conversation.id c)))) in Hin;
      [|apply Permutation_sym, orderByDesc_Permutation].
    apply filter_In in Hin as [Hin Hu]. simpl in Hu.
    apply in_innerJoin in Hin as [Hcm [Hc Hon]].
    split; [assumption|]. apply isMember_In. exists cm.
    apply String.eqb_eq in Hu, Hon. auto.
  - intros [Hc Hm]. apply isMember_In in Hm as [cm [Hcm [Hid Hu]]].
    exists (cm, c). split; [reflexivity|].
    eapply Permutation_in; [apply orderByDesc_Permutation|].
    apply filter_In. simpl. split.
    + apply in_innerJoin. repeat split; try assumption.
      now apply String.eqb_eq.
    + now apply String.eqb_eq.
Qed.

Lemma in_getUserConversations (userId : string) (s : ConversationSummary) :
  In s (getUserConversations st userId) <->
  exists c, s = summarize st userId c
            /\ In c (conversations st)
            /\ isMember st (Conversation.id c) userId = true.
Proof.
  unfold getUserConversations. rewrite in_map_iff.
  split; intros [c [H1 H2]]; exists c.
  - apply in_userConversations in H2. split; [now symmetry|assumption].
  - split; [now symmetry|]. now apply in_userConversations.
Qed.

(** The unread query counts the unread set. *)
Lemma unreadCount_summarize (userId : string) (c : Conversation.t) :
  unreadCount (summarize st userId c)
  = List.length (unreadSet st (Conversation.id c) userId).
Proof.
  unfold summarize, unreadMessagesOf, countStar, where_. simpl.
  rewrite orZero_id.
  pose proof (leftJoin_count_null (messages st) (messageReadReceipts st)
                (fun m r => String.eqb (MessageReadReceipt.messageId r)
                              (Message.id m)
                            && String.eqb (MessageReadReceipt.userId r) userId)
                (fun m => String.eqb (Message.conversationId m)
                            (Conversation.id c)
                          && neqb (Message.senderId m) userId)) as Hcount.
  cbv beta in Hcount.
  unfold unreadSet, messagesOf. rewrite filter_filter.
  etransitivity; [etransitivity; [|exact Hcount]|].
  - f_equal. apply filter_ext. intros [m r]. simpl.
    destruct (String.eqb (Message.conversationId m) (Conversation.id c));
      destruct (isNull r); destruct (neqb (Message.senderId m) userId);
      reflexivity.
  - f_equal. apply filter_ext. intros m. unfold hasReceipt.
    now rewrite andb_assoc.
Qed.
End ReadFacts.

(** ** The conversation list *)

(** C1.  For a conversation C and a member U of C, [getUserConversations]
    reports C, and the [unreadCount] it reports for C is the number of
    messages of C whose sender is not U and that have no read receipt of U.
    When U has a receipt for every message of C the count is 0; when U has
    no receipt at all, every message of another sender is counted (a
    missing receipt row means unread, and nothing fails). *)
Theorem C1_unread_count {E : QueryEngine} (st : Store) (C U : string) :
  store_ok st = true ->
  isMember st C U = true ->
  (exists s, In s (getUserConversations st U)
             /\ Conversation.id (conversation s) = C)
  /\ forall s, In s (getUserConversations st U) ->
       Conversation.id (conversation s) = C ->
       unreadCount s = List.length (unreadSet st C U)
       /\ ((forall m, In m (messagesOf st C) ->
              hasReceipt st (Message.id m) U = true) ->
           unreadCount s = 0%nat)
       /\ ((forall m, In m (messagesOf st C) ->
              hasReceipt st (Message.id m) U = false) ->
           unreadCount s
           = List.length (filter (fun m => neqb (Message.senderId m) U)
                            (messagesOf st C))).
Proof.
  intros Hok Hmem. apply store_ok_StoreOk in Hok. split.
  - pose proof Hmem as Hm. apply isMember_In in Hm as [cm [Hcm [Hc Hu]]].
    destruct (conversationMembers_fk Hok cm Hcm) as [Hconv _].
    rewrite Hc in Hconv. apply hasConversation_In in Hconv as [c [Hin Hid]].
    exists (summarize st U c). split; [|exact Hid].
    apply in_getUserConversations. exists c. rewrite <- Hid in Hmem.
    repeat split; assumption.
  - intros s Hs Hid.
    apply in_getUserConversations in Hs as [c [-> [Hc _]]].
    simpl in Hid. subst C. rewrite unreadCount_summarize.
    split; [reflexivity|]. split; intros Hall; unfold unreadSet.
    + rewrite filter_none; [reflexivity|].
      intros m Hm. rewrite (Hall m Hm). apply andb_false_r.
    + f_equal. apply filter_ext_in. intros m Hm.
      rewrite (Hall m Hm). apply andb_true_r.
Qed.

Lemma C1_unread_count_witness :
  exists s, In s (getUserConversations (E := tableOrderEngine)
                    (store world3) "alice")
            /\ unreadCount s = 2%nat.
Proof.
  destruct (C1_unread_count (E := tableOrderEngine) (store world3) "a" "alice"
              eq_refl eq_refl) as [[s [Hin Hid]] Hall].
  exists s. split; [exact Hin|].
  rewrite (proj1 (Hall s Hin Hid)). reflexivity.
Defined.

(** C9.  A user without any membership row gets the empty list; and an
    entry of the list whose conversation has no message has no
    [lastMessage] and [unreadCount] 0. *)
Theorem C9_empty_cases {E : QueryEngine} (st : Store) (U : string) :
  ((forall cm, In cm (conversationMembers st) ->
      ConversationMember.userId cm <> U) ->
   getUserConversations st U = [])
  /\ forall s, In s (getUserConversations st U) ->
       messagesOf st (Conversation.id (conversation s)) = [] ->
       lastMessage s = None /\ unreadCount s = 0%nat.
Proof.
  split.
  - intros Hnone. unfold getUserConversations, userConversations, where_.
    rewrite filter_none.
    + now rewrite orderByDesc_nil.
    + intros [cm c] Hin. simpl. apply in_innerJoin in Hin as [Hcm _].
      apply String.eqb_neq. now apply Hnone.
  - intros s Hs Hempty.
    apply in_getUserConversations in Hs as [c [-> _]].
    simpl in Hempty. split.
    + unfold summarize, lastMessageOf, where_. simpl.
      unfold messagesOf in Hempty. rewrite Hempty.
      now rewrite orderByDesc_nil.
    + rewrite unreadCount_summarize. unfold unreadSet.
      rewrite Hempty. reflexivity.
Qed.

Lemma C9_empty_cases_witness :
  getUserConversations (E := lastFirstEngine) (store world1) "eve" = []
  /\ exists s, In s (getUserConversations (E := lastFirstEngine)
                       (store world1) "alice")
               /\ lastMessage s = None /\ unreadCount s = 0%nat.
Proof.
  destruct (C9_empty_cases (E := lastFirstEngine) (store world1) "eve")
    as [Hnone _].
  destruct (C9_empty_cases (E := lastFirstEngine) (store world1) "alice")
    as [_ Hall].
  split.
  - apply Hnone. simpl. intros cm [<-|[<-|[]]]; discriminate.
  - eexists. split; [left; reflexivity|].
    apply Hall; [left; reflexivity|reflexivity].
Defined.

(** The join of the first query of [getUserConversations] has one row
    per membership row of the user, with the conversation that the row
    names. *)
Lemma memberships_join_conversations (st : Store) (U : string) :
  StoreOk st ->
  map (fun r => Conversation.id (snd r))
    (where_ (fun r => String.eqb (ConversationMember.userId (fst r)) U)
       (innerJoin (conversationMembers st) (conversations st)
          (fun cm c => String.eqb (ConversationMember.conversationId cm)
                         (Conversation.id c))))
  = map ConversationMember.conversationId
      (filter (fun cm => String.eqb (ConversationMember.userId cm) U)
         (conversationMembers st)).
Proof.
  intros Hok. unfold where_.
  set (J := innerJoin _ _ _).
  assert (HJ : map fst J = conversationMembers st).
  { apply innerJoin_functional. intros cm Hcm.
    destruct (conversationMembers_fk Hok cm Hcm) as [Hc _].
    apply hasConversation_In in Hc as [c [Hc Hid]]. exists c.
    rewrite <- Hid. apply (filter_key_unique Conversation.id).
    - apply (conversations_pk Hok).
    - exact Hc. }
  rewrite <- HJ.
  rewrite <- (map_fst_filter
                (fun cm => String.eqb (ConversationMember.userId cm) U)).
  rewrite map_map. apply map_ext_in. intros [cm c] Hin.
  apply filter_In in Hin as [Hin _]. apply in_innerJoin in Hin as [_ [_ Hon]].
  simpl. apply String.eqb_eq in Hon. now symmetry.
Qed.

(** C5, as the code has it.  The list of [getUserConversations] is sorted
    by [updatedAt], most recent first.  When the keys of the schema hold
    it has one entry per membership row of the user: its conversation
    ids are, up to order, the [conversationId]s of the user's membership
    rows (a conversation with two rows of the user is listed twice), and
    each entry carries the conversation row of that id.  (The query names
    no second sort key: see [C5_tie_order_not_fixed].) *)
Theorem C5_sorted_by_updatedAt {E : QueryEngine} (st : Store) (U : string) :
  StronglySorted
    (fun a b => Conversation.updatedAt (conversation b)
                <= Conversation.updatedAt (conversation a))
    (getUserConversations st U)
  /\ (store_ok st = true ->
      Permutation
        (map (fun s => Conversation.id (conversation s))
           (getUserConversations st U))
        (map ConversationMember.conversationId
           (filter (fun cm => String.eqb (ConversationMember.userId cm) U)
              (conversationMembers st)))
      /\ forall s, In s (getUserConversations st U) ->
           In (conversation s) (conversations st)).
Proof.
  split.
  - unfold getUserConversations, userConversations, where_.
    set (rows := orderByDesc _ _).
    assert (Hs : StronglySorted
                   (fun x y : ConversationMember.t * Conversation.t =>
                      Conversation.updatedAt (snd y)
                      <= Conversation.updatedAt (snd x)) rows)
      by apply orderByDesc_sorted.
    clearbody rows.
    induction Hs as [|x l Hl IH Hx]; simpl; constructor; [assumption|].
    rewrite Forall_forall in *. intros y Hy.
    apply in_map_iff in Hy as [c [<- Hc]].
    apply in_map_iff in Hc as [z [<- Hz]]. simpl. now apply Hx.
  - intros Hok. apply store_ok_StoreOk in Hok. split.
    + rewrite <- (memberships_join_conversations U Hok).
      unfold getUserConversations, userConversations.
      rewrite !map_map. cbn [summarize conversation].
      apply Permutation_sym.
      apply (Permutation_map (fun r : ConversationMember.t * Conversation.t =>
                                Conversation.id (snd r))).
      apply orderByDesc_Permutation.
    + intros s Hs. apply in_getUserConversations in Hs as [c [-> [Hc _]]].
      exact Hc.
Qed.

Lemma C5_sorted_by_updatedAt_witness :
  Permutation
    (map (fun s => Conversation.id (conversation s))
       (getUserConversations (E := lastFirstEngine) (store tieWorld) "alice"))
    ["a"; "g"].
Proof.
  exact (proj1 (proj2 (C5_sorted_by_updatedAt (E := lastFirstEngine)
                         (store tieWorld) "alice") eq_refl)).
Defined.

(** C5, as stated, asks for more: that the order of conversations with
    the same [updatedAt] be fixed.  It is not: on the same database two
    engines, both sorting by [updatedAt] descending, list alice's two
    conversations in different orders. *)
Lemma C5_tie_order_not_fixed :
  ~ (forall (E1 E2 : QueryEngine) (st : Store) (U : string),
       store_ok st = true ->
       map (fun s => Conversation.id (conversation s))
         (getUserConversations (E := E1) st U)
       = map (fun s => Conversation.id (conversation s))
           (getUserConversations (E := E2) st U)).
Proof.
  intros H.
  specialize (H tableOrderEngine lastFirstEngine (store tieWorld) "alice"
                eq_refl).
  vm_compute in H. discriminate H.
Qed.

(** ** Reading messages *)

Section MessageFacts.
Context {E : QueryEngine}.
Variable st : Store.
Hypothesis Hok : StoreOk st.

(** Each message has one sender row: the join of [getConversationMessages]
    neither drops nor repeats a message. *)
Lemma messages_join_users (conversationId : string) :
  map fst
    (where_ (fun r => String.eqb (Message.conversationId (fst r))
                        conversationId)
       (innerJoin (messages st) (users st)
          (fun m u => String.eqb (Message.senderId m) (User.id u))))
  = messagesOf st conversationId.
Proof.
  unfold where_, messagesOf.
  rewrite (map_fst_filter
             (fun m => String.eqb (Message.conversationId m) conversationId)).
  f_equal. apply innerJoin_functional. intros m Hm.
  destruct (messages_fk Hok m Hm) as [_ Hu].
  apply hasUser_In in Hu as [u [Hu Hid]]. exists u.
  rewrite <- Hid. apply (filter_key_unique User.id).
  - apply (users_pk Hok).
  - exact Hu.
Qed.
End MessageFacts.

(** C4.  For a positive [limit], [getConversationMessages] returns
    [min limit n] of the [n] messages of the conversation; no message it
    leaves out is more recent than one it returns; each comes with the
    user row of its sender; the result is in non-decreasing [createdAt]
    order; and without a limit the limit is 50. *)
Theorem C4_recent_messages_ascending {E : QueryEngine} (st : Store)
  (conversationId : string) (n : Z) :
  store_ok st = true ->
  0 < n ->
  exists rows rest,
    getConversationMessages st conversationId (Some (int n)) = Ok rows
    /\ List.length rows
       = Nat.min (Z.to_nat n) (List.length (messagesOf st conversationId))
    /\ Permutation (map message rows ++ rest) (messagesOf st conversationId)
    /\ (forall r m, In r rows -> In m rest ->
          Message.createdAt m <= Message.createdAt (message r))
    /\ (forall r, In r rows ->
          In (sender r) (users st)
          /\ User.id (sender r) = Message.senderId (message r))
    /\ StronglySorted
         (fun a b => Message.createdAt (message a)
                     <= Message.createdAt (message b)) rows
    /\ getConversationMessages st conversationId None
       = getConversationMessages st conversationId (Some (int 50)).
Proof.
  intros Hok Hn. apply store_ok_StoreOk in Hok.
  unfold getConversationMessages. rewrite (limitRows_positive _ Hn).
  pose proof (messages_join_users Hok conversationId) as Hjoin.
  set (J := where_ _ _) in *.
  pose proof (orderByDesc_Permutation
                (fun r : Message.t * User.t => Message.createdAt (fst r)) J)
    as Hperm.
  pose proof (orderByDesc_sorted
                (fun r : Message.t * User.t => Message.createdAt (fst r)) J)
    as Hsorted.
  set (S := orderByDesc _ J) in *.
  set (k := Z.to_nat n).
  rewrite <- (firstn_skipn k S) in Hsorted.
  apply StronglySorted_app_inv in Hsorted as [Hfirst [_ Hcross]].
  exists (rev (map (fun r => {| message := fst r; sender := snd r |})
                 (limit k S))), (map fst (skipn k S)).
  unfold limit.
  assert (Hmsg : map message
                   (rev (map (fun r : Message.t * User.t =>
                                {| message := fst r; sender := snd r |})
                           (firstn k S)))
                 = rev (map fst (firstn k S))).
  { rewrite <- map_rev, map_map. simpl. now rewrite map_rev. }
  repeat split.
  - rewrite length_rev, length_map, length_firstn.
    rewrite <- Hjoin, length_map. now rewrite (Permutation_length Hperm).
  - rewrite Hmsg, <- Hjoin.
    eapply Permutation_trans;
      [apply Permutation_app_tail, Permutation_sym, Permutation_rev|].
    rewrite <- map_app, firstn_skipn.
    now apply Permutation_map, Permutation_sym.
  - intros r m Hr Hm.
    apply in_rev, in_map_iff in Hr as [x [<- Hx]].
    apply in_map_iff in Hm as [y [<- Hy]]. simpl.
    apply (Hcross x y Hx Hy).
  - apply in_rev, in_map_iff in H as [[m u] [<- Hx]]. simpl.
    apply in_firstn in Hx.
    apply (Permutation_in _ (Permutation_sym Hperm)) in Hx.
    apply filter_In in Hx as [Hx _]. now apply in_innerJoin in Hx.
  - apply in_rev, in_map_iff in H as [[m u] [<- Hx]]. simpl.
    apply in_firstn in Hx.
    apply (Permutation_in _ (Permutation_sym Hperm)) in Hx.
    apply filter_In in Hx as [Hx _]. apply in_innerJoin in Hx as [_ [_ Hx]].
    symmetry. now apply String.eqb_eq.
  - apply (StronglySorted_rev
             (R := fun a b => Message.createdAt (message b)
                              <= Message.createdAt (message a))).
    apply StronglySorted_map. exact Hfirst.
Qed.

Lemma C4_recent_messages_ascending_witness :
  exists rows,
    getConversationMessages (E := lastFirstEngine) (store world3) "a"
      (Some (int 2))
    = Ok rows
    /\ map (fun r => Message.content (message r)) rows = ["hi"; "there"].
Proof.
  destruct (C4_recent_messages_ascending (E := lastFirstEngine)
              (store world3) "a" (n := 2) eq_refl eq_refl)
    as [rows [rest [Hrows _]]].
  exists rows. split; [exact Hrows|].
  vm_compute in Hrows. injection Hrows as <-. reflexivity.
Defined.

(** ** Running the writes *)

Lemma createConversation_run (c : InsertConversation) (env : Env) (w : World) :
  createConversation c env w
  = let row := Conversation.mk (gen_random_uuid env (drawn w))
                 (columnDefault None (ic_name c))
                 (columnDefault (Some false) (ic_isGroup c))
                 (now env (S (drawn w))) (now env (S (drawn w))) in
    match insertConversation row (store w) with
    | Ok st' => (Ok row, {| store := st'; drawn := 2 + drawn w |})
    | Throw e => (Throw e, advance 2 w)
    end.
Proof.
  unfold createConversation, bind, draw, statement, ret, advance. simpl.
  destruct (insertConversation _ (store w)); reflexivity.
Qed.

Lemma addConversationMember_run (m : InsertConversationMember) (env : Env)
  (w : World) :
  addConversationMember m env w
  = let row := ConversationMember.mk (gen_random_uuid env (drawn w))
                 (icm_conversationId m) (icm_userId m)
                 (now env (S (drawn w))) in
    match insertConversationMember row (store w) with
    | Ok st' => (Ok row, {| store := st'; drawn := 2 + drawn w |})
    | Throw e => (Throw e, advance 2 w)
    end.
Proof.
  unfold addConversationMember, bind, draw, statement, ret, advance. simpl.
  destruct (insertConversationMember _ (store w)); reflexivity.
Qed.

Lemma createMessage_run (m : InsertMessage) (env : Env) (w : World) :
  createMessage m env w
  = let row := Message.mk (gen_random_uuid env (drawn w))
                 (im_conversationId m) (im_senderId m) (im_content m)
                 (columnDefault (Some "text") (im_messageType m))
                 (columnDefault (Some false) (im_isEdited m))
                 (now env (S (drawn w))) (now env (S (drawn w))) in
    match insertMessage row (store w) with
    | Ok st' =>
        match updateConversationUpdatedAt (im_conversationId m)
                (newDate env (2 + drawn w)) st' with
        | Ok st'' => (Ok row, {| store := st''; drawn := 3 + drawn w |})
        | Throw e => (Throw e, {| store := st'; drawn := 3 + drawn w |})
        end
    | Throw e => (Throw e, advance 2 w)
    end.
Proof.
  unfold createMessage, bind, draw, statement, ret, advance. simpl.
  destruct (insertMessage _ (store w)); reflexivity.
Qed.

Lemma markMessageAsRead_run (messageId userId : string) (env : Env) (w : World) :
  markMessageAsRead messageId userId env w
  = let row := MessageReadReceipt.mk (gen_random_uuid env (drawn w))
                 messageId userId (now env (S (drawn w))) in
    match insertReadReceiptOnConflictDoNothing row (store w) with
    | Ok st' => (Ok tt, {| store := st'; drawn := 2 + drawn w |})
    | Throw e => (Throw e, advance 2 w)
    end.
Proof.
  unfold markMessageAsRead, bind, draw, statement, ret, advance. simpl.
  destruct (insertReadReceiptOnConflictDoNothing _ (store w)); reflexivity.
Qed.

(** ** Writing messages *)

(** C7.  A call of [createMessage] for an existing conversation and
    sender (and a fresh message id) returns the new row, which holds the
    four arguments: the conversation, the sender, the content and the
    message type (["text"] when none is given), is not edited unless said
    otherwise, and has the database's time of the insert in both
    timestamps.  Afterwards the table of messages is the old one with
    that row appended, the parent conversation's [updatedAt] is the time
    [new Date()] gave right after the insert, and nothing else differs:
    the other columns of the parent, the other conversations, and the
    tables of users, memberships and receipts are what they were. *)
Theorem C7_createMessage_frame (m : InsertMessage) (env : Env) (w : World) :
  hasMessage (store w) (gen_random_uuid env (drawn w)) = false ->
  hasConversation (store w) (im_conversationId m) = true ->
  hasUser (store w) (im_senderId m) = true ->
  exists row w',
    createMessage m env w = (Ok row, w')
    /\ Message.conversationId row = im_conversationId m
    /\ Message.senderId row = im_senderId m
    /\ Message.content row = im_content m
    /\ Message.messageType row
       = match im_messageType m with
         | undefined => Some "text"
         | null => None
         | val messageType => Some messageType
         end
    /\ Message.isEdited row
       = match im_isEdited m with
         | undefined => Some false
         | null => None
         | val isEdited => Some isEdited
         end
    /\ Message.id row = gen_random_uuid env (drawn w)
    /\ Message.createdAt row = now env (1 + drawn w)
    /\ Message.updatedAt row = now env (1 + drawn w)
    /\ messages (store w') = messages (store w) ++ [row]
    /\ users (store w') = users (store w)
    /\ conversationMembers (store w') = conversationMembers (store w)
    /\ messageReadReceipts (store w') = messageReadReceipts (store w)
    /\ Forall2
         (fun c c' =>
            Conversation.id c' = Conversation.id c
            /\ Conversation.name c' = Conversation.name c
            /\ Conversation.isGroup c' = Conversation.isGroup c
            /\ Conversation.createdAt c' = Conversation.createdAt c
            /\ (Conversation.id c = im_conversationId m ->
                Conversation.updatedAt c' = newDate env (2 + drawn w))
            /\ (Conversation.id c <> im_conversationId m -> c' = c))
         (conversations (store w)) (conversations (store w'))
    /\ exists parent,
         In parent (conversations (store w'))
         /\ Conversation.id parent = im_conversationId m
         /\ Conversation.updatedAt parent = newDate env (2 + drawn w).
Proof.
  intros Hfresh Hconv Huser.
  rewrite createMessage_run. cbv zeta.
  unfold insertMessage. simpl. rewrite Hfresh, Hconv, Huser. simpl.
  eexists. eexists. split; [reflexivity|]. simpl.
  split; [reflexivity|]. split; [reflexivity|]. split; [reflexivity|].
  split; [now destruct (im_messageType m)|].
  split; [now destruct (im_isEdited m)|].
  repeat split.
  - induction (conversations (store w)) as [|c l IH]; simpl; constructor;
      [|exact IH].
    destruct (String.eqb (Conversation.id c) (im_conversationId m)) eqn:Heq.
    + apply String.eqb_eq in Heq.
      repeat split; try reflexivity; intros H; contradiction.
    + apply String.eqb_neq in Heq.
      repeat split; try reflexivity; intros H; contradiction.
  - apply hasConversation_In in Hconv as [c [Hc Hid]].
    exists (Conversation.set_updatedAt c (newDate env (2 + drawn w))).
    repeat split; [|exact Hid].
    apply in_map_iff. exists c. split; [|exact Hc].
    rewrite Hid. now rewrite String.eqb_refl.
Qed.

Lemma C7_createMessage_frame_witness :
  exists row w',
    createMessage {| im_conversationId := "a"; im_senderId := "bob";
                     im_content := "hi"; im_messageType := undefined;
                     im_isEdited := undefined |} sampleEnv world2
    = (Ok row, w')
    /\ Message.messageType row = Some "text"
    /\ messages (store w') = messages (store world2) ++ [row]
    /\ map Conversation.updatedAt (conversations (store w')) = [2013].
Proof.
  destruct (C7_createMessage_frame
              {| im_conversationId := "a"; im_senderId := "bob";
                 im_content := "hi"; im_messageType := undefined;
                 im_isEdited := undefined |} sampleEnv world2
              eq_refl eq_refl eq_refl)
    as [row [w' [Hrun [_ [_ [_ [Htype [_ [_ [_ [_ [Hmsgs _]]]]]]]]]]]].
  exists row, w'. split; [exact Hrun|]. split; [exact Htype|].
  split; [exact Hmsgs|].
  vm_compute in Hrun. injection Hrun as _ <-. reflexivity.
Defined.

(** A call of [createMessage] that throws has written nothing. *)
Lemma createMessage_throw_unchanged (m : InsertMessage) (env : Env)
  (w w' : World) (e : Error) :
  createMessage m env w = (Throw e, w') -> store w' = store w.
Proof.
  rewrite createMessage_run. cbv zeta.
  destruct (insertMessage _ (store w)) as [st'|e'] eqn:Hins.
  - unfold updateConversationUpdatedAt. discriminate.
  - intros H. injection H as _ <-. reflexivity.
Qed.

(** ** Read receipts *)

(** A first call of [markMessageAsRead] and every later one appends a
    receipt row of the pair: the generated [id] is new, so no conflict is
    seen. *)
Lemma markMessageAsRead_appends (messageId userId : string) (env : Env)
  (w : World) :
  hasReceiptId (store w) (gen_random_uuid env (drawn w)) = false ->
  hasMessage (store w) messageId = true ->
  hasUser (store w) userId = true ->
  exists w' row,
    markMessageAsRead messageId userId env w = (Ok tt, w')
    /\ receiptsOf (store w') messageId userId
       = receiptsOf (store w) messageId userId ++ [row]
    /\ hasMessage (store w') messageId = true
    /\ hasUser (store w') userId = true
    /\ drawn w' = (2 + drawn w)%nat.
Proof.
  intros Hfresh Hm Hu. rewrite markMessageAsRead_run. cbv zeta.
  unfold insertReadReceiptOnConflictDoNothing. simpl.
  rewrite Hfresh, Hm, Hu. simpl.
  eexists. eexists. split; [reflexivity|].
  unfold receiptsOf, hasMessage, hasUser. simpl.
  rewrite filter_app. simpl. rewrite !String.eqb_refl. simpl.
  repeat split; assumption.
Qed.

(** C2, on the code.  bob marks alice's message ["g"] as read twice.
    Neither call throws, and the table then holds two receipt rows of
    (["g"], bob), not one. *)
Theorem C2_mark_twice_two_rows :
  let w' := after sampleEnv (markMessageAsRead "g" "bob") world2 in
  let w'' := after sampleEnv (markMessageAsRead "g" "bob") w' in
  result sampleEnv (markMessageAsRead "g" "bob") world2 = Ok tt
  /\ result sampleEnv (markMessageAsRead "g" "bob") w' = Ok tt
  /\ List.length (receiptsOf (store world2) "g" "bob") = 0%nat
  /\ List.length (receiptsOf (store w') "g" "bob") = 1%nat
  /\ List.length (receiptsOf (store w'') "g" "bob") = 2%nat.
Proof. vm_compute. repeat split. Qed.

(** ** The membership check of the boundary *)

(** The check of the handlers, [members.some(member => member.id ===
    userId)], holds exactly for the users with a membership row. *)
Lemma isMemberOf_getConversationMembers (st : Store)
  (conversationId userId : string) :
  StoreOk st ->
  isMemberOf (getConversationMembers st conversationId) userId
  = isMember st conversationId userId.
Proof.
  intros Hok. apply eq_true_iff_eq.
  unfold isMemberOf, getConversationMembers, where_.
  rewrite existsb_exists, isMember_In. split.
  - intros [u [Hin Hid]]. apply String.eqb_eq in Hid.
    apply in_map_iff in Hin as [[cm u'] [Heq Hin]]. simpl in Heq. subst u'.
    apply filter_In in Hin as [Hin Hc]. simpl in Hc.
    apply in_innerJoin in Hin as [Hcm [_ Hon]].
    apply String.eqb_eq in Hc, Hon.
    exists cm. repeat split; [assumption..|]. congruence.
  - intros [cm [Hcm [Hc Hu]]].
    destruct (conversationMembers_fk Hok cm Hcm) as [_ Huser].
    apply hasUser_In in Huser as [u [Hin Hid]].
    exists u. split; [|apply String.eqb_eq; congruence].
    apply in_map_iff. exists (cm, u). split; [reflexivity|].
    apply filter_In. simpl. split; [|now apply String.eqb_eq].
    apply in_innerJoin. repeat split; try assumption.
    apply String.eqb_eq. congruence.
Qed.

(** GET /api/conversations/:id/messages by a user who is not a member:
    403, and the world is untouched. *)
Lemma getMessagesHandler_denied {E : QueryEngine} (userId id : string)
  (limit_ : option Number) (env : Env) (w : World) :
  isMemberOf (getConversationMembers (store w) id) userId = false ->
  getMessagesHandler userId id limit_ env w
  = (Ok (status 403 "Access denied"), w).
Proof.
  intros H. unfold getMessagesHandler, tryCatch, bind, query, ret.
  now rewrite H.
Qed.

(** POST /api/conversations/:id/messages by a user who is not a member:
    403 (500 when the body has no content, which is checked first), and
    the world is untouched. *)
Lemma postMessagesHandler_denied {E : QueryEngine} (userId id : string)
  (body : SendMessageBody) (env : Env) (w : World) :
  isMemberOf (getConversationMembers (store w) id) userId = false ->
  postMessagesHandler userId id body env w
  = (Ok (match body_content body with
         | Some _ => status 403 "Access denied"
         | None => status 500 "Failed to send message"
         end), w).
Proof.
  intros H. unfold postMessagesHandler, tryCatch, bind, query, ret, throw.
  destruct (body_content body); [now rewrite H|reflexivity].
Qed.

(** C8, as the code has it.  The two handlers that name a conversation,
    reading its messages and posting to it, check that the user has a
    membership row in it: a user who has none is answered 403 (a POST
    without content is answered 500, the body being validated first), and
    nothing is written.  Marking a message as read is not checked against
    the members of the message's conversation: the same user, if
    registered, marks any message of that conversation as read, is
    answered with success, and a receipt row of the pair is written. *)
Theorem C8_membership_checked_where_named {E : QueryEngine}
  (userId id : string) (env : Env) (w : World) :
  store_ok (store w) = true ->
  isMember (store w) id userId = false ->
  (forall limit_,
     getMessagesHandler userId id limit_ env w
     = (Ok (status 403 "Access denied"), w))
  /\ (forall body,
        postMessagesHandler userId id body env w
        = (Ok (match body_content body with
               | Some _ => status 403 "Access denied"
               | None => status 500 "Failed to send message"
               end), w))
  /\ (forall m,
        In m (messages (store w)) ->
        Message.conversationId m = id ->
        hasUser (store w) userId = true ->
        hasReceiptId (store w) (gen_random_uuid env (drawn w)) = false ->
        exists row,
          postReadHandler userId (Message.id m) env w
          = (Ok (json true),
             {| store := mkStore (users (store w)) (conversations (store w))
                           (conversationMembers (store w)) (messages (store w))
                           (messageReadReceipts (store w) ++ [row]);
                drawn := 2 + drawn w |})
          /\ MessageReadReceipt.messageId row = Message.id m
          /\ MessageReadReceipt.userId row = userId).
Proof.
  intros Hok Hno. apply store_ok_StoreOk in Hok.
  rewrite <- (isMemberOf_getConversationMembers _ _ Hok) in Hno.
  split; [|split].
  - intros limit_. now apply getMessagesHandler_denied.
  - intros body. now apply postMessagesHandler_denied.
  - intros m Hm _ Huser Hfresh.
    assert (Hmsg : hasMessage (store w) (Message.id m) = true).
    { apply existsb_exists. exists m. split; [exact Hm|apply String.eqb_refl]. }
    unfold postReadHandler, tryCatch, bind.
    rewrite markMessageAsRead_run. cbv zeta.
    unfold insertReadReceiptOnConflictDoNothing.
    cbn [MessageReadReceipt.id MessageReadReceipt.messageId
         MessageReadReceipt.userId].
    rewrite Hfresh, Hmsg, Huser. cbn [andb negb]. unfold ret.
    eexists. split; [reflexivity|]. split; reflexivity.
Qed.

Lemma C8_membership_checked_where_named_witness :
  getMessagesHandler (E := tableOrderEngine) "eve" "a" None sampleEnv world2
  = (Ok (status 403 "Access denied"), world2)
  /\ postMessagesHandler (E := tableOrderEngine) "eve" "a"
       {| body_content := Some "hello"; body_messageType := undefined |}
       sampleEnv world2
     = (Ok (status 403 "Access denied"), world2)
  /\ exists w',
       postReadHandler "eve" "g" sampleEnv world2 = (Ok (json true), w')
       /\ map MessageReadReceipt.userId (receiptsOf (store w') "g" "eve")
          = ["eve"].
Proof.
  destruct (C8_membership_checked_where_named (E := tableOrderEngine)
              "eve" "a" sampleEnv world2 eq_refl eq_refl)
    as [Hget [Hpost Hread]].
  split; [apply Hget|].
  split;
    [exact (Hpost {| body_content := Some "hello";
                     body_messageType := undefined |})|].
  destruct (Hread (Message.mk "g" "a" "alice" "hello" (Some "text")
                     (Some false) 1007 1007))
    as [row [Hrun _]];
    [left; reflexivity|reflexivity|reflexivity|reflexivity|].
  eexists. split; [exact Hrun|]. vm_compute in Hrun |- *.
  now injection Hrun as <-.
Defined.

(** C8, as stated, asks for the check on all three operations.  The
    third has none: eve, who is not a member of the conversation of
    alice's message, marks it as read, and the answer is no refusal. *)
Lemma C8_read_receipt_by_non_member :
  ~ (forall (env : Env) (w : World) (userId : string) (m : Message.t),
       store_ok (store w) = true ->
       In m (messages (store w)) ->
       isMember (store w) (Message.conversationId m) userId = false ->
       (exists code message_,
          result env (postReadHandler userId (Message.id m)) w
          = Ok (status code message_))
       /\ store (after env (postReadHandler userId (Message.id m)) w)
          = store w).
Proof.
  intros H.
  destruct (H sampleEnv world2 "eve"
              (Message.mk "g" "a" "alice" "hello" (Some "text")
                 (Some false) 1007 1007)
              eq_refl (or_introl eq_refl) eq_refl)
    as [[code [message_ Hresult]] _].
  vm_compute in Hresult. discriminate Hresult.
Qed.

(** ** Creating a conversation *)

Lemma withMembers_nil (st : Store) : withMembers st [] = st.
Proof. destruct st. unfold withMembers. simpl. now rewrite app_nil_r. Qed.

Lemma withMembers_app (st : Store) (r1 r2 : list ConversationMember.t) :
  withMembers (withMembers st r1) r2 = withMembers st (r1 ++ r2).
Proof. unfold withMembers. simpl. now rewrite app_assoc. Qed.

(** One [addConversationMember]: it appends its row, or throws and leaves
    the database as it is. *)
Lemma addConversationMember_effect (m : InsertConversationMember) (env : Env)
  (w : World) :
  (exists row,
     addConversationMember m env w
     = (Ok row, {| store := withMembers (store w) [row];
                   drawn := 2 + drawn w |})
     /\ ConversationMember.conversationId row = icm_conversationId m
     /\ ConversationMember.userId row = icm_userId m)
  \/ exists e, addConversationMember m env w = (Throw e, advance 2 w).
Proof.
  rewrite addConversationMember_run. cbv zeta.
  unfold insertConversationMember.
  destruct (hasMember _ _); [right; eexists; reflexivity|].
  destruct (negb _); [right; eexists; reflexivity|].
  left. eexists. split; [reflexivity|]. split; reflexivity.
Qed.

Section CreateConversation.
Variable userId : string.
Variable conversationId : string.

(** The loop appends one row per member that is not the creator, in
    order, and stops at the first insert that throws. *)
Lemma forEach_addOther (memberIds : list string) (env : Env) (w : World)
  (o : Outcome unit) (w' : World) :
  forEach (addOther userId conversationId) memberIds env w = (o, w') ->
  exists rows,
    store w' = withMembers (store w) rows
    /\ Forall (fun r => ConversationMember.conversationId r = conversationId)
         rows
    /\ match o with
       | Ok _ =>
           map ConversationMember.userId rows
           = filter (fun memberId => neqb memberId userId) memberIds
       | Throw _ =>
           exists rest,
             rest <> []
             /\ filter (fun memberId => neqb memberId userId) memberIds
                = map ConversationMember.userId rows ++ rest
       end.
Proof.
  revert w. induction memberIds as [|x l IH]; intros w Hrun.
  - injection Hrun as <- <-. exists []. rewrite withMembers_nil.
    repeat split. constructor.
  - cbn [forEach filter] in *. unfold bind at 1 in Hrun.
    unfold addOther at 1 in Hrun.
    destruct (neqb x userId) eqn:Hx.
    + unfold bind at 1 in Hrun.
      destruct (addConversationMember_effect
                  {| icm_conversationId := conversationId; icm_userId := x |}
                  env w) as [[row [Hadd [Hc Hu]]]|[e Hadd]];
        rewrite Hadd in Hrun; [simpl in Hc, Hu|].
      * unfold ret at 1 in Hrun. cbv beta iota in Hrun.
        destruct (IH _ Hrun) as [rows [Hst [Hall Hres]]].
        exists (row :: rows). cbn [store] in Hst.
        rewrite Hst, withMembers_app. cbn [app].
        split; [reflexivity|].
        split; [constructor; [exact Hc|exact Hall]|].
        destruct o.
        -- simpl. now rewrite Hu, Hres.
        -- destruct Hres as [rest [Hne Hres]]. exists rest.
           split; [assumption|]. simpl. now rewrite Hu, Hres.
      * injection Hrun as <- <-. exists [].
        cbn [advance store]. rewrite withMembers_nil.
        split; [reflexivity|]. split; [constructor|].
        eexists. split; [|reflexivity]. discriminate.
    + unfold ret at 1 in Hrun. cbv beta iota in Hrun. now apply IH.
Qed.
End CreateConversation.

(** What POST /api/conversations leaves behind, case by case. *)
Lemma postConversationsHandler_effect (userId : string)
  (body : CreateConversationBody) (env : Env) (w : World)
  (o : Outcome (Response Conversation.t)) (w' : World) :
  postConversationsHandler userId body env w = (o, w') ->
  (o = Ok (status 500 "Failed to create conversation")
   /\ store w' = store w)
  \/ exists c rows,
       Grown (store w) (store w') c rows
       /\ hasConversation (store w) (Conversation.id c) = false
       /\ ((o = Ok (json c)
            /\ map ConversationMember.userId rows
               = attached userId (body_memberIds body))
           \/ (o = Ok (status 500 "Failed to create conversation")
               /\ exists rest,
                    rest <> []
                    /\ attached userId (body_memberIds body)
                       = map ConversationMember.userId rows ++ rest)).
Proof.
  unfold postConversationsHandler, tryCatch. intros Hrun.
  destruct (body_memberIds body) as [|m0 ms] eqn:Hms.
  { injection Hrun as <- <-. left. split; reflexivity. }
  rewrite <- Hms in *. clear Hms m0 ms.
  unfold bind at 1 in Hrun. unfold ret at 1 in Hrun.
  unfold bind at 1 in Hrun.
  rewrite createConversation_run in Hrun. cbv zeta in Hrun.
  set (c := Conversation.mk _ _ _ _ _) in *.
  unfold insertConversation in Hrun.
  destruct (hasConversation (store w) (Conversation.id c)) eqn:Hfresh.
  { injection Hrun as <- <-. left. split; reflexivity. }
  right. exists c.
  set (st1 := mkStore _ (conversations (store w) ++ [c]) _ _ _) in *.
  set (w1 := {| store := st1; drawn := 2 + drawn w |}) in *.
  unfold bind at 1 in Hrun.
  destruct (addConversationMember_effect
              {| icm_conversationId := Conversation.id c;
                 icm_userId := userId |} env w1)
    as [[row [Hadd [Hc Hu]]]|[e Hadd]]; rewrite Hadd in Hrun;
    [simpl in Hc, Hu|].
  - set (w2 := {| store := withMembers (store w1) [row];
                  drawn := 2 + drawn w1 |}) in *.
    unfold bind at 1 in Hrun.
    fold (addOther userId (Conversation.id c)) in Hrun.
    destruct (forEach (addOther userId (Conversation.id c))
                (body_memberIds body) env w2) as [o' w3] eqn:Hloop.
    destruct (forEach_addOther _ _ _ _ _ Hloop) as [rows [Hst [Hall Hres]]].
    exists (row :: rows).
    assert (Hgrown : Grown (store w) (store w3) c (row :: rows)).
    { rewrite Hst. constructor; try reflexivity; simpl.
      - now rewrite <- app_assoc.
      - constructor; [exact Hc|exact Hall]. }
    destruct o' as [[]|e]; injection Hrun as <- <-.
    + split; [assumption|]. split; [exact Hfresh|]. left.
      split; [reflexivity|]. unfold attached. simpl. now rewrite Hu, Hres.
    + split; [assumption|]. split; [exact Hfresh|]. right.
      split; [reflexivity|]. destruct Hres as [rest [Hne Hres]].
      exists rest. split; [assumption|]. unfold attached. simpl.
      now rewrite Hu, Hres.
  - injection Hrun as <- <-. exists []. split; [|split; [exact Hfresh|]].
    + constructor; try reflexivity; simpl.
      * now rewrite app_nil_r.
      * constructor.
    + right. split; [reflexivity|]. eexists. split; [|reflexivity].
      discriminate.
Qed.

(** The loop of the handler is a run of inserts over the requested
    members other than the creator. *)
Lemma forEach_addOther_filter (userId conversationId : string)
  (memberIds : list string) (env : Env) (w : World) :
  forEach (addOther userId conversationId) memberIds env w
  = forEach (addOne conversationId)
      (filter (fun memberId => neqb memberId userId) memberIds) env w.
Proof.
  revert w. induction memberIds as [|x l IH]; intros w; [reflexivity|].
  cbn [forEach filter]. unfold addOther at 1.
  destruct (neqb x userId).
  - cbn [forEach]. fold (addOne conversationId x). unfold bind.
    destruct (addOne conversationId x env w) as [[[]|e] w1];
      [apply IH|reflexivity].
  - unfold bind at 1. unfold ret at 1. cbv beta iota. apply IH.
Qed.

(** One insert: refused when the generated id is taken or when the
    conversation or the user is missing, and otherwise written. *)
Lemma addOne_run (conversationId memberId : string) (env : Env) (w : World) :
  addOne conversationId memberId env w
  = if hasMember (store w) (gen_random_uuid env (drawn w))
    then (Throw UniqueViolation, advance 2 w)
    else if negb (hasConversation (store w) conversationId
                  && hasUser (store w) memberId)
    then (Throw ForeignKeyViolation, advance 2 w)
    else (Ok tt,
          {| store :=
               withMembers (store w)
                 [ConversationMember.mk (gen_random_uuid env (drawn w))
                    conversationId memberId (now env (S (drawn w)))];
             drawn := 2 + drawn w |}).
Proof.
  unfold addOne, bind. rewrite addConversationMember_run. cbv zeta.
  unfold insertConversationMember.
  cbn [ConversationMember.id ConversationMember.conversationId
       ConversationMember.userId icm_conversationId icm_userId].
  destruct (hasMember (store w) (gen_random_uuid env (drawn w)));
    [reflexivity|].
  destruct (negb _); reflexivity.
Qed.

(** A run of inserts writes a row for each user of a prefix of the list,
    and stops at the first user whose insert is refused. *)
Lemma forEach_addOne (conversationId : string) (us : list string)
  (env : Env) (w : World) (o : Outcome unit) (w' : World) :
  forEach (addOne conversationId) us env w = (o, w') ->
  exists rows rest,
    us = map ConversationMember.userId rows ++ rest
    /\ store w' = withMembers (store w) rows
    /\ Forall (fun r => ConversationMember.conversationId r = conversationId
                        /\ hasUser (store w) (ConversationMember.userId r)
                           = true)
         rows
    /\ match rest with
       | [] => o = Ok tt
       | u :: _ =>
           (exists e, o = Throw e)
           /\ (hasConversation (store w) conversationId = false
               \/ hasUser (store w) u = false
               \/ hasMember (store w')
                    (gen_random_uuid env (2 * List.length rows + drawn w))
                  = true)
       end.
Proof.
  revert w. induction us as [|u us IH]; intros w Hrun.
  - injection Hrun as <- <-. exists [], []. rewrite withMembers_nil.
    split; [reflexivity|]. split; [reflexivity|]. split; [constructor|].
    reflexivity.
  - cbn [forEach] in Hrun. unfold bind at 1 in Hrun.
    rewrite addOne_run in Hrun.
    destruct (hasMember (store w) (gen_random_uuid env (drawn w))) eqn:Hid.
    { injection Hrun as <- <-. exists [], (u :: us).
      cbn [advance store]. rewrite withMembers_nil.
      split; [reflexivity|]. split; [reflexivity|]. split; [constructor|].
      split; [eexists; reflexivity|]. right. right. exact Hid. }
    destruct (hasConversation (store w) conversationId) eqn:Hc.
    2:{ injection Hrun as <- <-. exists [], (u :: us).
        cbn [advance store]. rewrite withMembers_nil.
        split; [reflexivity|]. split; [reflexivity|]. split; [constructor|].
        split; [eexists; reflexivity|]. now left. }
    destruct (hasUser (store w) u) eqn:Hu.
    2:{ injection Hrun as <- <-. exists [], (u :: us).
        cbn [advance store]. rewrite withMembers_nil.
        split; [reflexivity|]. split; [reflexivity|]. split; [constructor|].
        split; [eexists; reflexivity|]. right. now left. }
    cbn [andb negb] in Hrun.
    destruct (IH _ Hrun) as [rows [rest [Hus [Hst [Hall Hrest]]]]].
    cbn [store drawn] in Hst, Hall, Hrest.
    exists (ConversationMember.mk (gen_random_uuid env (drawn w))
              conversationId u (now env (S (drawn w))) :: rows), rest.
    split; [cbn [map app ConversationMember.userId]; now rewrite Hus|].
    split.
    { rewrite Hst, withMembers_app. reflexivity. }
    split; [constructor; [split; [reflexivity|exact Hu]|exact Hall]|].
    destruct rest as [|u' rest']; [exact Hrest|].
    destruct Hrest as [He Hcause]. split; [exact He|].
    destruct Hcause as [Hcause|[Hcause|Hcause]].
    + change (hasConversation (store w) conversationId = false) in Hcause.
      congruence.
    + right. left. exact Hcause.
    + right. right.
      replace (2 * List.length (_ :: rows) + drawn w)%nat
        with (2 * List.length rows + (2 + drawn w))%nat
        by (cbn [List.length]; lia).
      exact Hcause.
Qed.

(** The insert for the creator and the loop after it are one run of
    inserts, over the creator and then the others. *)
Lemma creator_then_others (userId conversationId : string)
  (memberIds : list string) (A : Type) (r : A) (env : Env) (w : World) :
  (addConversationMember
     {| icm_conversationId := conversationId; icm_userId := userId |} ;;;
   forEach (addOther userId conversationId) memberIds ;;;
   ret r) env w
  = (forEach (addOne conversationId) (attached userId memberIds) ;;;
     ret r) env w.
Proof.
  unfold attached. cbn [forEach]. unfold addOne at 1. unfold bind.
  destruct (addConversationMember _ env w) as [[row|e] w1];
    [|reflexivity].
  unfold ret at 3. cbv beta iota. rewrite forEach_addOther_filter.
  reflexivity.
Qed.

(** POST /api/conversations, step by step: validation, the insert of the
    conversation, and the run of membership inserts for the creator and
    the requested members other than the creator. *)
Lemma postConversationsHandler_run (userId : string)
  (body : CreateConversationBody) (env : Env) (w : World) :
  postConversationsHandler userId body env w
  = match body_memberIds body with
    | [] => (Ok (status 500 "Failed to create conversation"), w)
    | _ :: _ =>
        let c := Conversation.mk (gen_random_uuid env (drawn w))
                   (columnDefault None (body_name body))
                   (columnDefault (Some false) (body_isGroup body))
                   (now env (S (drawn w))) (now env (S (drawn w))) in
        if hasConversation (store w) (gen_random_uuid env (drawn w))
        then (Ok (status 500 "Failed to create conversation"), advance 2 w)
        else
          match
            forEach (addOne (Conversation.id c))
              (attached userId (body_memberIds body)) env
              {| store := withConversation (store w) c;
                 drawn := 2 + drawn w |}
          with
          | (Ok _, w') => (Ok (json c), w')
          | (Throw _, w') =>
              (Ok (status 500 "Failed to create conversation"), w')
          end
    end.
Proof.
  unfold postConversationsHandler, tryCatch.
  destruct (body_memberIds body) as [|m0 ms] eqn:Hms; [reflexivity|].
  cbv iota. rewrite <- Hms. clear Hms m0 ms.
  unfold bind at 1. unfold ret at 1. cbv beta iota.
  unfold bind at 1. rewrite createConversation_run. cbv zeta.
  unfold insertConversation.
  cbn [Conversation.id ic_name ic_isGroup].
  destruct (hasConversation (store w) (gen_random_uuid env (drawn w)));
    [reflexivity|].
  unfold withConversation.
  fold (addOther userId (gen_random_uuid env (drawn w))).
  rewrite creator_then_others.
  unfold bind at 1.
  destruct (forEach _ _ env _) as [[[]|e] w3]; reflexivity.
Qed.

(** C3, as the code has it.  POST /api/conversations writes one row after
    the other, with no transaction around them.  When validation fails
    (no member is requested), or when the insert of the conversation
    fails (its generated id is taken), the answer is 500 and nothing is
    written.  Otherwise the conversation row is written, and after it
    membership rows for the creator and the requested members other than
    the creator, in that order.  When all of them are written the answer
    is the conversation.  When an insert is refused, because the user is
    not registered or the generated row id is taken, the answer is 500
    and the conversation row and the membership rows written before that
    insert stay.  No other row is touched. *)
Theorem C3_creation_keeps_written_rows (userId : string)
  (body : CreateConversationBody) (env : Env) (w : World) :
  let o := result env (postConversationsHandler userId body) w in
  let w' := after env (postConversationsHandler userId body) w in
  (body_memberIds body = [] ->
   o = Ok (status 500 "Failed to create conversation") /\ w' = w)
  /\ (body_memberIds body <> [] ->
      hasConversation (store w) (gen_random_uuid env (drawn w)) = true ->
      o = Ok (status 500 "Failed to create conversation")
      /\ store w' = store w)
  /\ (body_memberIds body <> [] ->
      hasConversation (store w) (gen_random_uuid env (drawn w)) = false ->
      exists c rows rest,
        Conversation.id c = gen_random_uuid env (drawn w)
        /\ Grown (store w) (store w') c rows
        /\ attached userId (body_memberIds body)
           = map ConversationMember.userId rows ++ rest
        /\ Forall (fun r => hasUser (store w) (ConversationMember.userId r)
                            = true) rows
        /\ match rest with
           | [] => o = Ok (json c)
           | u :: _ =>
               o = Ok (status 500 "Failed to create conversation")
               /\ (hasUser (store w) u = false
                   \/ hasMember (store w')
                        (gen_random_uuid env
                           (2 + 2 * List.length rows + drawn w))
                      = true)
           end).
Proof.
  cbv zeta. unfold result, after. rewrite postConversationsHandler_run.
  split; [|split].
  - intros ->. split; reflexivity.
  - intros Hne Htaken.
    destruct (body_memberIds body) as [|m0 ms]; [contradiction|].
    cbv zeta. rewrite Htaken. split; reflexivity.
  - intros Hne Hfresh.
    destruct (body_memberIds body) as [|m0 ms] eqn:Hms; [contradiction|].
    rewrite <- Hms. clear Hne Hms m0 ms.
    cbv zeta. rewrite Hfresh.
    set (c := Conversation.mk _ _ _ _ _).
    destruct (forEach _ _ env _) as [o1 w1] eqn:Hloop.
    destruct (forEach_addOne _ _ _ _ Hloop)
      as [rows [rest [Hus [Hst [Hall Hrest]]]]].
    cbn [store drawn] in Hst, Hall, Hrest.
    assert (Hw1 : store (snd (let (o0, w2) := (o1, w1) in
                              match o0 with
                              | Ok _ => (Ok (json c), w2)
                              | Throw _ =>
                                  (Ok (status 500
                                         "Failed to create conversation"),
                                   w2)
                              end)) = store w1)
      by (destruct o1; reflexivity).
    exists c, rows, rest.
    split; [reflexivity|].
    split.
    { destruct o1; cbn [snd]; rewrite Hst;
        (constructor; try reflexivity;
         rewrite Forall_forall in *; intros r Hr; apply (Hall r Hr)). }
    split; [exact Hus|].
    split.
    { rewrite Forall_forall in *. intros r Hr. apply (Hall r Hr). }
    destruct rest as [|u rest'].
    + subst o1. reflexivity.
    + destruct Hrest as [[e ->] Hcause]. cbn [fst snd].
      split; [reflexivity|].
      destruct Hcause as [Hcause|[Hcause|Hcause]].
      * exfalso. unfold hasConversation in Hcause.
        cbn [withConversation conversations] in Hcause.
        rewrite existsb_app in Hcause. cbn [existsb Conversation.id c] in Hcause.
        rewrite String.eqb_refl in Hcause.
        now rewrite orb_true_r in Hcause.
      * left. exact Hcause.
      * right.
        replace (2 + 2 * List.length rows + drawn w)%nat
          with (2 * List.length rows + (2 + drawn w))%nat by lia.
        exact Hcause.
Qed.

Lemma C3_creation_keeps_written_rows_witness :
  let body := {| body_name := val "team"; body_isGroup := val true;
                 body_memberIds := ["ghost"] |} in
  let o := result sampleEnv (postConversationsHandler "alice" body) world0 in
  let w' := after sampleEnv (postConversationsHandler "alice" body) world0 in
  exists c rows rest,
    Conversation.id c = "a"
    /\ Grown (store world0) (store w') c rows
    /\ ["alice"; "ghost"] = map ConversationMember.userId rows ++ rest
    /\ Forall (fun r => hasUser (store world0) (ConversationMember.userId r)
                        = true) rows
    /\ match rest with
       | [] => o = Ok (json c)
       | u :: _ =>
           o = Ok (status 500 "Failed to create conversation")
           /\ (hasUser (store world0) u = false
               \/ hasMember (store w')
                    (gen_random_uuid sampleEnv
                       (2 + 2 * List.length rows + drawn world0))
                  = true)
       end.
Proof.
  cbv zeta.
  refine (proj2 (proj2 (C3_creation_keeps_written_rows "alice"
                          {| body_name := val "team"; body_isGroup := val true;
                             body_memberIds := ["ghost"] |}
                          sampleEnv world0)) _ eq_refl).
  discriminate.
Defined.

(** C3, as stated, fails.  alice asks for a group with a member id that
    is no user's.  The answer is 500, and the database then holds the new
    conversation with alice's membership only: neither the conversation
    with all its memberships, nor nothing. *)
Lemma C3_creation_not_atomic :
  ~ (forall (userId : string) (body : CreateConversationBody) (env : Env)
       (w : World),
       store_ok (store w) = true ->
       atomicCreation userId (body_memberIds body) (store w)
         (store (after env (postConversationsHandler userId body) w))).
Proof.
  intros H.
  specialize (H "alice"
                {| body_name := val "team"; body_isGroup := val true;
                   body_memberIds := ["ghost"] |}
                sampleEnv world0 eq_refl).
  destruct H as [H|[c [Hc Hall]]].
  - apply (f_equal conversations) in H. vm_compute in H. discriminate H.
  - vm_compute in Hc. injection Hc as <-.
    specialize (Hall "ghost" (or_intror (or_introl eq_refl))).
    vm_compute in Hall. discriminate Hall.
Qed.

(** C10.  When POST /api/conversations answers with the conversation,
    the creator has exactly one membership row in it, whatever the
    submitted [memberIds] hold: the rows added are the creator's first and
    then one for each [memberId] that is not the creator's id. *)
Theorem C10_creator_added_once (userId : string)
  (body : CreateConversationBody) (env : Env) (w w' : World)
  (c : Conversation.t) :
  store_ok (store w) = true ->
  postConversationsHandler userId body env w = (Ok (json c), w') ->
  List.length (membershipsOf (store w') (Conversation.id c) userId) = 1%nat
  /\ exists rows,
       conversationMembers (store w') = conversationMembers (store w) ++ rows
       /\ map ConversationMember.userId rows
          = userId :: filter (fun memberId => neqb memberId userId)
                        (body_memberIds body).
Proof.
  intros Hok Hrun. apply store_ok_StoreOk in Hok.
  destruct (postConversationsHandler_effect _ _ _ _ Hrun)
    as [[H _]|[c' [rows [Hg [Hfresh [[Ho Hrows]|[Ho _]]]]]]];
    try discriminate.
  injection Ho as <-. split; [|exists rows; split;
                                [apply (grown_members Hg)|exact Hrows]].
  unfold membershipsOf. rewrite (grown_members Hg), filter_app, length_app.
  rewrite filter_none.
  - simpl. destruct rows as [|row rows]; [discriminate|].
    pose proof (grown_rows Hg) as Hall.
    inversion Hall as [|? ? Hrow Hall']; subst.
    unfold attached in Hrows. simpl in Hrows. injection Hrows as Hu Hrest.
    simpl. rewrite Hrow, Hu, !String.eqb_refl. simpl. f_equal.
    rewrite filter_none; [reflexivity|].
    intros r Hr. apply andb_false_iff. right.
    assert (Hin : In (ConversationMember.userId r)
                    (filter (fun memberId => neqb memberId userId)
                       (body_memberIds body))).
    { rewrite <- Hrest. now apply in_map. }
    apply filter_In in Hin as [_ Hne]. unfold neqb in Hne.
    now apply negb_true_iff in Hne.
  - intros cm Hcm. apply andb_false_iff. left. apply String.eqb_neq.
    intros Heq. destruct (conversationMembers_fk Hok cm Hcm) as [Hconv _].
    rewrite Heq in Hconv. congruence.
Qed.

Lemma C10_creator_added_once_witness :
  exists c w',
    postConversationsHandler "alice"
      {| body_name := val "team"; body_isGroup := val true;
         body_memberIds := ["alice"; "bob"; "alice"] |} sampleEnv world0
    = (Ok (json c), w')
    /\ List.length (membershipsOf (store w') (Conversation.id c) "alice")
       = 1%nat.
Proof.
  eexists. eexists. split; [vm_compute; reflexivity|].
  apply (@C10_creator_added_once "alice"
           {| body_name := val "team"; body_isGroup := val true;
              body_memberIds := ["alice"; "bob"; "alice"] |}
           sampleEnv world0 _ _ eq_refl eq_refl).
Defined.

(** ** Direct conversations *)

Lemma find_unique_key (A : Type) (p : A -> bool) (key : A -> string)
  (k : string) (l : list A) :
  (exists x, In x l /\ p x = true) ->
  (forall x, In x l -> p x = true -> key x = k) ->
  exists s, find p l = Some s /\ key s = k.
Proof.
  intros [x [Hx Hp]] Hall.
  destruct (find p l) as [s|] eqn:Hf.
  - exists s. split; [reflexivity|].
    apply find_some in Hf as [Hs Hps]. now apply Hall.
  - rewrite (find_none _ _ Hf x Hx) in Hp. discriminate.
Qed.

Section DirectFacts.
Context {E : QueryEngine}.
Variables (env : Env) (w : World) (A B : string).
Hypothesis Hok : StoreOk (store w).
Hypothesis HAB : A <> B.
Hypothesis HA : hasUser (store w) A = true.
Hypothesis HB : hasUser (store w) B = true.
Hypothesis Hc : hasConversation (store w) (gen_random_uuid env (drawn w)) = false.
Hypothesis HmA : hasMember (store w) (gen_random_uuid env (2 + drawn w)) = false.
Hypothesis HmB : hasMember (store w) (gen_random_uuid env (4 + drawn w)) = false.
Hypothesis Hids :
  gen_random_uuid env (2 + drawn w) <> gen_random_uuid env (4 + drawn w).

Let c := directConversationRow env w.
Let rowA := directMemberRow env w 2 A.
Let rowB := directMemberRow env w 4 B.
Let st' := withMembers (withConversation (store w) c) [rowA; rowB].

(** No old membership row is of the new conversation. *)
Lemma old_members_elsewhere (cm : ConversationMember.t) :
  In cm (conversationMembers (store w)) ->
  ConversationMember.conversationId cm <> Conversation.id c.
Proof.
  intros Hcm Heq. destruct (conversationMembers_fk Hok cm Hcm) as [Hconv _].
  rewrite Heq in Hconv. simpl in Hconv. congruence.
Qed.

(** Without a conversation to reuse, the handler creates one with the
    two memberships. *)
Lemma postDirectHandler_creates :
  find (isDirectWith B) (getUserConversations (store w) A) = None ->
  postDirectHandler A B env w
  = (Ok (json (Created c)), {| store := st'; drawn := 6 + drawn w |}).
Proof.
  intros Hfind. unfold postDirectHandler, tryCatch.
  unfold bind at 1. unfold query at 1. rewrite Hfind.
  unfold bind at 1. rewrite createConversation_run. cbv zeta.
  unfold insertConversation. cbn [ic_name ic_isGroup columnDefault].
  cbn [Conversation.id]. rewrite Hc.
  unfold bind at 1. rewrite addConversationMember_run. cbv zeta.
  unfold insertConversationMember at 1.
  cbn [store drawn icm_conversationId icm_userId Conversation.id
       ConversationMember.id ConversationMember.conversationId
       ConversationMember.userId].
  replace (hasMember _ (gen_random_uuid env (2 + drawn w))) with false
    by (symmetry; exact HmA).
  replace (hasConversation _ (gen_random_uuid env (drawn w))) with true.
  2:{ symmetry. unfold hasConversation. cbn [conversations].
      rewrite existsb_app. simpl. rewrite String.eqb_refl.
      now rewrite orb_true_r. }
  replace (hasUser _ A) with true by (symmetry; exact HA).
  cbn [andb negb].
  unfold bind at 1. rewrite addConversationMember_run. cbv zeta.
  unfold insertConversationMember at 1.
  cbn [store drawn icm_conversationId icm_userId Conversation.id
       ConversationMember.id ConversationMember.conversationId
       ConversationMember.userId].
  replace (hasMember _ (gen_random_uuid env (2 + (2 + drawn w)))) with false.
  2:{ symmetry. unfold hasMember in *. cbn [conversationMembers].
      rewrite existsb_app. change (2 + (2 + drawn w))%nat with (4 + drawn w)%nat.
      rewrite HmB. simpl. rewrite orb_false_r.
      apply String.eqb_neq. exact Hids. }
  replace (hasConversation _ (gen_random_uuid env (drawn w))) with true.
  2:{ symmetry. unfold hasConversation. cbn [conversations].
      rewrite existsb_app. simpl. rewrite String.eqb_refl.
      now rewrite orb_true_r. }
  replace (hasUser _ B) with true by (symmetry; exact HB).
  cbn [andb negb]. unfold ret. unfold st', withMembers, withConversation.
  cbn [users conversations conversationMembers messages messageReadReceipts].
  rewrite <- app_assoc. reflexivity.
Qed.

(** In the new database the other members of an old conversation are
    the ones it had, and the only other member of the new one is [B]. *)
Lemma otherMembersOf_old (id : string) :
  id <> Conversation.id c ->
  otherMembersOf st' id A = otherMembersOf (store w) id A.
Proof.
  intros Hid. unfold otherMembersOf, where_, st'.
  cbn [withMembers withConversation users conversationMembers].
  rewrite innerJoin_app, filter_app, map_app.
  rewrite (filter_none _ (innerJoin [rowA; rowB] _ _)).
  - apply app_nil_r.
  - intros [cm u] Hin. apply in_innerJoin in Hin as [Hcm _].
    apply andb_false_iff. left. apply String.eqb_neq. simpl.
    destruct Hcm as [<-|[<-|[]]]; intros Heq; apply Hid;
      rewrite <- Heq; reflexivity.
Qed.

Lemma otherMembersOf_new :
  exists u, otherMembersOf st' (Conversation.id c) A = [u] /\ User.id u = B.
Proof.
  pose proof HB as Hu. apply hasUser_In in Hu as [u [Hu Hid]].
  exists u. split; [|exact Hid].
  unfold otherMembersOf, where_, st'.
  cbn [withMembers withConversation users conversationMembers].
  rewrite innerJoin_app, filter_app, map_app.
  rewrite (filter_none _ (innerJoin (conversationMembers (store w)) _ _)).
  2:{ intros [cm u'] Hin. apply in_innerJoin in Hin as [Hcm _].
      apply andb_false_iff. left. apply String.eqb_neq. simpl.
      now apply old_members_elsewhere. }
  unfold innerJoin. cbn [flat_map app map]. rewrite app_nil_r, filter_app.
  rewrite filter_none.
  2:{ intros [cm u'] Hin. apply in_map_iff in Hin as [u'' [Heq _]].
      injection Heq as <- _. simpl. rewrite neqb_refl. apply andb_false_r. }
  cbn [ConversationMember.userId rowB directMemberRow].
  rewrite <- Hid. rewrite (filter_key_unique User.id _ _ (users_pk Hok) Hu).
  simpl. rewrite String.eqb_refl. simpl.
  replace (neqb B A) with true; [reflexivity|].
  symmetry. apply neqb_neq. congruence.
Qed.

Lemma isMember_old (id : string) :
  id <> Conversation.id c ->
  isMember st' id A = isMember (store w) id A.
Proof.
  intros Hid. unfold isMember, st'.
  cbn [withMembers withConversation conversationMembers].
  rewrite existsb_app. simpl.
  replace (String.eqb (gen_random_uuid env (drawn w)) id) with false.
  - simpl. now rewrite orb_false_r.
  - symmetry. apply String.eqb_neq. simpl in Hid. congruence.
Qed.

(** After the creation, the conversation created is the one, and the
    only one, that the handler's search accepts. *)
Lemma find_after_creation :
  find (isDirectWith B) (getUserConversations (store w) A) = None ->
  exists s,
    find (isDirectWith B) (getUserConversations st' A) = Some s
    /\ Conversation.id (conversation s) = Conversation.id c.
Proof.
  intros Hfind.
  apply (find_unique_key _ (fun s => Conversation.id (conversation s))).
  - exists (summarize st' A c). split.
    + apply in_getUserConversations. exists c.
      split; [reflexivity|]. split.
      * unfold st'. simpl. apply in_or_app. right. now left.
      * unfold isMember, st'. simpl. rewrite existsb_app. simpl.
        rewrite !String.eqb_refl. simpl. now rewrite orb_true_r.
    + unfold isDirectWith. cbn [summarize conversation otherMembers].
      destruct otherMembersOf_new as [u [-> Hid]]. simpl.
      now apply String.eqb_eq.
  - intros s Hs Hp.
    apply in_getUserConversations in Hs as [c' [-> [Hin Hmem]]].
    cbn [summarize conversation].
    destruct (String.eqb (Conversation.id c') (Conversation.id c)) eqn:Heq;
      [now apply String.eqb_eq|].
    apply String.eqb_neq in Heq. exfalso.
    assert (Hold : In (summarize (store w) A c')
                     (getUserConversations (store w) A)).
    { apply in_getUserConversations. exists c'.
      split; [reflexivity|]. split.
      - unfold st' in Hin. simpl in Hin.
        apply in_app_or in Hin as [Hin|[<-|[]]]; [exact Hin|].
        now contradiction Heq.
      - now rewrite <- isMember_old. }
    pose proof (find_none _ _ Hfind _ Hold) as Hno.
    unfold isDirectWith in Hp, Hno.
    cbn [summarize conversation otherMembers] in Hp, Hno.
    rewrite (otherMembersOf_old Heq) in Hp. congruence.
Qed.

(** X22.  Two calls for two different users: both answer with the same
    conversation, and the second one writes nothing. *)
Lemma postDirectHandler_twice :
  exists b1 b2 w1,
    postDirectHandler A B env w = (Ok (json b1), w1)
    /\ postDirectHandler A B env w1 = (Ok (json b2), w1)
    /\ directId b1 = directId b2.
Proof.
  destruct (find (isDirectWith B) (getUserConversations (store w) A))
    as [s|] eqn:Hfind.
  - assert (Hrun : postDirectHandler A B env w
                   = (Ok (json (Existing s)), w)).
    { unfold postDirectHandler, tryCatch, bind, query. now rewrite Hfind. }
    exists (Existing s), (Existing s), w. now rewrite Hrun.
  - destruct (find_after_creation Hfind) as [s [Hs Hid]].
    exists (Created c), (Existing s), {| store := st'; drawn := 6 + drawn w |}.
    split; [now apply postDirectHandler_creates|]. split.
    + unfold postDirectHandler, tryCatch, bind, query.
      cbn [store]. now rewrite Hs.
    + simpl. now rewrite Hid.
Qed.
End DirectFacts.

(** C6, on the code.  alice asks twice for the direct conversation with
    herself.  The first call creates conversation ["a"], with two
    membership rows of alice; the second call does not find it (it has no
    other member) and creates conversation ["g"]: two identifiers, two
    conversations.  (For two different users the second call does find
    the first call's conversation: [postDirectHandler_twice].) *)
Theorem C6_direct_with_self_duplicates :
  let first := postDirectHandler (E := tableOrderEngine) "alice" "alice"
                 sampleEnv world0 in
  let second := postDirectHandler (E := tableOrderEngine) "alice" "alice"
                  sampleEnv (snd first) in
  (exists c1 c2,
     fst first = Ok (json (Created c1))
     /\ fst second = Ok (json (Created c2))
     /\ Conversation.id c1 = "a" /\ Conversation.id c2 = "g")
  /\ map Conversation.id (conversations (store (snd second))) = ["a"; "g"]
  /\ map ConversationMember.userId
       (membershipsOf (store (snd first)) "a" "alice") = ["alice"; "alice"].
Proof.
  vm_compute. split; [|split; reflexivity].
  eexists. eexists. repeat split.
Qed.

(** ** The writes keep the database consistent *)

Lemma NoDup_snoc (A : Type) (key : A -> string) (l : list A) (x : A) :
  NoDup (map key l) ->
  existsb (fun y => String.eqb (key y) (key x)) l = false ->
  NoDup (map key (l ++ [x])).
Proof.
  intros Hnd Hx. rewrite map_app. simpl.
  apply NoDup_rev in Hnd. rewrite <- (rev_involutive (map key l ++ [key x])).
  apply NoDup_rev. rewrite rev_app_distr. simpl. constructor; [|exact Hnd].
  intros Hin. apply in_rev, in_map_iff in Hin as [y [Hy Hin]].
  assert (existsb (fun y => String.eqb (key y) (key x)) l = true) as Ht.
  { apply existsb_exists. exists y. split; [exact Hin|].
    now apply String.eqb_eq. }
  congruence.
Qed.

Lemma existsb_app_l (A : Type) (p : A -> bool) (l l' : list A) :
  existsb p l = true -> existsb p (l ++ l') = true.
Proof. intros H. rewrite existsb_app, H. reflexivity. Qed.

Lemma existsb_touch (id x : string) (d : Z) (l : list Conversation.t) :
  existsb (fun c => String.eqb (Conversation.id c) x)
    (map (fun c => if String.eqb (Conversation.id c) id
                   then Conversation.set_updatedAt c d else c) l)
  = existsb (fun c => String.eqb (Conversation.id c) x) l.
Proof.
  induction l as [|c l IH]; simpl; [reflexivity|].
  rewrite IH. destruct (String.eqb (Conversation.id c) id); reflexivity.
Qed.

Section Statements.
Variable st : Store.
Hypothesis Hok : StoreOk st.

Lemma insertConversation_ok (row : Conversation.t) (st' : Store) :
  insertConversation row st = Ok st' -> StoreOk st'.
Proof.
  unfold insertConversation.
  destruct (hasConversation st (Conversation.id row)) eqn:Hpk;
    [discriminate|].
  intros H. injection H as <-. destruct Hok.
  constructor; simpl; try assumption.
  - now apply NoDup_snoc.
  - intros cm Hcm. destruct (conversationMembers_fk0 cm Hcm) as [H1 H2].
    split; [|exact H2]. now apply existsb_app_l.
  - intros m Hm. destruct (messages_fk0 m Hm) as [H1 H2].
    split; [|exact H2]. now apply existsb_app_l.
Qed.

Lemma insertConversationMember_ok (row : ConversationMember.t) (st' : Store) :
  insertConversationMember row st = Ok st' -> StoreOk st'.
Proof.
  unfold insertConversationMember.
  destruct (hasMember st (ConversationMember.id row)) eqn:Hpk;
    [discriminate|].
  destruct (hasConversation st (ConversationMember.conversationId row)
            && hasUser st (ConversationMember.userId row)) eqn:Hfk;
    [|discriminate].
  intros H. injection H as <-. destruct Hok.
  constructor; simpl; try assumption.
  - now apply NoDup_snoc.
  - intros cm Hcm. apply in_app_or in Hcm as [Hcm|[<-|[]]].
    + now apply conversationMembers_fk0.
    + now apply andb_true_iff.
Qed.

Lemma insertMessage_ok (row : Message.t) (st' : Store) :
  insertMessage row st = Ok st' -> StoreOk st'.
Proof.
  unfold insertMessage.
  destruct (hasMessage st (Message.id row)) eqn:Hpk; [discriminate|].
  destruct (hasConversation st (Message.conversationId row)
            && hasUser st (Message.senderId row)) eqn:Hfk; [|discriminate].
  intros H. injection H as <-. destruct Hok.
  constructor; simpl; try assumption.
  - now apply NoDup_snoc.
  - intros m Hm. apply in_app_or in Hm as [Hm|[<-|[]]].
    + now apply messages_fk0.
    + now apply andb_true_iff.
  - intros r Hr. destruct (messageReadReceipts_fk0 r Hr) as [H1 H2].
    split; [|exact H2]. now apply existsb_app_l.
Qed.

Lemma insertReadReceiptOnConflictDoNothing_ok (row : MessageReadReceipt.t)
  (st' : Store) :
  insertReadReceiptOnConflictDoNothing row st = Ok st' -> StoreOk st'.
Proof.
  unfold insertReadReceiptOnConflictDoNothing.
  destruct (hasReceiptId st (MessageReadReceipt.id row)) eqn:Hpk.
  { intros H. injection H as <-. exact Hok. }
  destruct (hasMessage st (MessageReadReceipt.messageId row)
            && hasUser st (MessageReadReceipt.userId row)) eqn:Hfk;
    [|discriminate].
  intros H. injection H as <-. destruct Hok.
  constructor; simpl; try assumption.
  - now apply NoDup_snoc.
  - intros r Hr. apply in_app_or in Hr as [Hr|[<-|[]]].
    + now apply messageReadReceipts_fk0.
    + now apply andb_true_iff.
Qed.

Lemma updateConversationUpdatedAt_ok (id : string) (d : Z) (st' : Store) :
  updateConversationUpdatedAt id d st = Ok st' -> StoreOk st'.
Proof.
  unfold updateConversationUpdatedAt. intros H. injection H as <-.
  assert (Hids : map Conversation.id
                   (map (fun c => if String.eqb (Conversation.id c) id
                                  then Conversation.set_updatedAt c d else c)
                      (conversations st))
                 = map Conversation.id (conversations st)).
  { rewrite map_map. apply map_ext. intros c.
    now destruct (String.eqb (Conversation.id c) id). }
  assert (Hhas : forall x,
             hasConversation
               (mkStore (users st)
                  (map (fun c => if String.eqb (Conversation.id c) id
                                 then Conversation.set_updatedAt c d else c)
                     (conversations st))
                  (conversationMembers st) (messages st)
                  (messageReadReceipts st)) x
             = hasConversation st x).
  { intros x. apply existsb_touch. }
  destruct Hok.
  constructor; simpl; try assumption.
  - now rewrite Hids.
  - intros cm Hcm. rewrite Hhas. now apply conversationMembers_fk0.
  - intros m Hm. rewrite Hhas. now apply messages_fk0.
Qed.
End Statements.

Section PreservesFacts.
Variables A B : Type.

Lemma Preserves_ret (a : A) : Preserves (ret a).
Proof. intros env w H. exact H. Qed.

Lemma Preserves_throw (e : Error) : Preserves (throw (A := A) e).
Proof. intros env w H. exact H. Qed.

Lemma Preserves_draw (f : Env -> nat -> A) : Preserves (draw f).
Proof. intros env w H. exact H. Qed.

Lemma Preserves_query (f : Store -> A) : Preserves (query f).
Proof. intros env w H. exact H. Qed.

Lemma Preserves_queryOutcome (f : Store -> Outcome A) :
  Preserves (queryOutcome f).
Proof. intros env w H. exact H. Qed.

Lemma Preserves_bind (m : M A) (k : A -> M B) :
  Preserves m -> (forall a, Preserves (k a)) -> Preserves (bind m k).
Proof.
  intros Hm Hk env w H. unfold bind.
  specialize (Hm env w H).
  destruct (m env w) as [[a|e] w1]; simpl in Hm; [|exact Hm].
  now apply Hk.
Qed.

Lemma Preserves_tryCatch (body : M A) (handler : Error -> M A) :
  Preserves body -> (forall e, Preserves (handler e)) ->
  Preserves (tryCatch body handler).
Proof.
  intros Hm Hk env w H. unfold tryCatch.
  specialize (Hm env w H).
  destruct (body env w) as [[a|e] w1]; simpl in Hm; [exact Hm|].
  now apply Hk.
Qed.

Lemma Preserves_forEach (body : A -> M unit) (l : list A) :
  (forall a, Preserves (body a)) -> Preserves (forEach body l).
Proof.
  intros Hb. induction l as [|x l IH]; simpl.
  - intros env w H. exact H.
  - intros env w H. unfold bind.
    specialize (Hb x env w H).
    destruct (body x env w) as [[a|e] w1]; simpl in Hb; [|exact Hb].
    now apply IH.
Qed.
End PreservesFacts.

Lemma Preserves_statement (f : Store -> Outcome Store) :
  (forall st st', StoreOk st -> f st = Ok st' -> StoreOk st') ->
  Preserves (statement f).
Proof.
  intros Hf env w H. unfold statement.
  destruct (f (store w)) as [st'|e] eqn:Hrun; simpl; [|exact H].
  now apply (Hf (store w)).
Qed.

#[local] Hint Resolve Preserves_ret Preserves_throw Preserves_draw
  Preserves_query Preserves_queryOutcome Preserves_forEach : chat.
#[local] Hint Extern 2 (Preserves (bind _ _)) =>
  apply Preserves_bind; [|intro] : chat.
#[local] Hint Extern 2 (Preserves (tryCatch _ _)) =>
  apply Preserves_tryCatch; [|intro] : chat.
#[local] Hint Extern 2 (Preserves (statement _)) =>
  apply Preserves_statement; intros ? ? ? ?;
  eauto using insertConversation_ok, insertConversationMember_ok,
    insertMessage_ok, insertReadReceiptOnConflictDoNothing_ok,
    updateConversationUpdatedAt_ok : chat.
#[local] Hint Extern 3 (Preserves (match ?x with _ => _ end)) =>
  destruct x : chat.
#[local] Hint Extern 3 (Preserves (if ?x then _ else _)) =>
  destruct x : chat.

Lemma createConversation_preserves (c : InsertConversation) :
  Preserves (createConversation c).
Proof. unfold createConversation. auto 10 with chat. Qed.

Lemma addConversationMember_preserves (m : InsertConversationMember) :
  Preserves (addConversationMember m).
Proof. unfold addConversationMember. auto 10 with chat. Qed.

Lemma createMessage_preserves (m : InsertMessage) :
  Preserves (createMessage m).
Proof. unfold createMessage. auto 12 with chat. Qed.

Lemma markMessageAsRead_preserves (messageId userId : string) :
  Preserves (markMessageAsRead messageId userId).
Proof. unfold markMessageAsRead. auto 10 with chat. Qed.

#[local] Hint Resolve createConversation_preserves
  addConversationMember_preserves createMessage_preserves
  markMessageAsRead_preserves : chat.

(** X21.  Every handler takes a consistent database to a consistent one,
    also when it answers 500 half-way. *)
Theorem handlers_preserve_integrity {E : QueryEngine} (userId id : string) :
  (forall body, Preserves (postConversationsHandler userId body))
  /\ (forall limit_, Preserves (getMessagesHandler userId id limit_))
  /\ (forall body, Preserves (postMessagesHandler userId id body))
  /\ Preserves (postReadHandler userId id)
  /\ Preserves (postDirectHandler userId id)
  /\ Preserves (getConversationsHandler userId).
Proof.
  repeat apply conj; intros;
    unfold postConversationsHandler, getMessagesHandler, postMessagesHandler,
      postReadHandler, postDirectHandler, getConversationsHandler;
    auto 20 with chat.
Qed.


(** * More of the code *)

(** ** The most recent row *)

(** When some rows satisfy [P] and each of them has a larger key than
    every row that does not, [ORDER BY key DESC] puts a row of [P]
    first, whatever the engine does with ties. *)
Lemma orderByDesc_head {E : QueryEngine} (A : Type) (key : A -> Z)
  (P : A -> Prop) (rows : list A) :
  (exists x, In x rows /\ P x) ->
  (forall x y, In x rows -> In y rows -> P x -> ~ P y -> key y < key x) ->
  (forall x, P x \/ ~ P x) ->
  exists h, hd_error (orderByDesc key rows) = Some h /\ In h rows /\ P h.
Proof.
  intros [x [Hx HP]] Hkey Hdec.
  pose proof (orderByDesc_Permutation key rows) as Hperm.
  pose proof (orderByDesc_sorted key rows) as Hsorted.
  destruct (orderByDesc key rows) as [|h sorted].
  - apply Permutation_sym, Permutation_nil in Hperm. subst. contradiction.
  - exists h. split; [reflexivity|].
    assert (Hh : In h rows)
      by (apply (Permutation_in _ (Permutation_sym Hperm)); now left).
    split; [exact Hh|].
    destruct (Hdec h) as [Hyes|Hno]; [exact Hyes|]. exfalso.
    pose proof (Hkey x h Hx Hh HP Hno) as Hlt.
    apply (Permutation_in _ Hperm) in Hx. destruct Hx as [->|Hx].
    + contradiction.
    + inversion Hsorted as [|? ? _ Hall]; subst.
      rewrite Forall_forall in Hall. specialize (Hall x Hx). simpl in Hall.
      lia.
Qed.

(** Taking one row out of a filtered list by its key. *)
Lemma filter_remove_one (A : Type) (key : A -> string) (p : A -> bool)
  (l : list A) (a : A) :
  NoDup (map key l) -> In a l -> p a = true ->
  List.length (filter p l)
  = S (List.length (filter (fun x => p x && neqb (key x) (key a)) l)).
Proof.
  induction l as [|y l IH]; simpl; intros Hnd Hin Hp; [contradiction|].
  inversion Hnd as [|? ? Hny Hnd']; subst.
  destruct Hin as [->|Hin].
  - rewrite Hp, neqb_refl. simpl. f_equal. f_equal.
    apply filter_ext_in. intros x Hx.
    replace (neqb (key x) (key a)) with true; [now rewrite andb_true_r|].
    symmetry. apply neqb_neq. intros Heq. apply Hny. rewrite <- Heq.
    now apply in_map.
  - assert (Hne : neqb (key y) (key a) = true).
    { apply neqb_neq. intros Heq. apply Hny. rewrite Heq. now apply in_map. }
    rewrite Hne, andb_true_r. destruct (p y); simpl; now rewrite IH.
Qed.

(** ** What the conversation list shows *)

(** X1.  In an entry of [getUserConversations st U], [otherMembers] holds
    users other than U that have a membership row in the conversation;
    and, in a consistent database, every other user with a membership row
    in it is there. *)
Theorem otherMembers_are_the_others {E : QueryEngine} (st : Store) (U : string)
  (s : ConversationSummary) :
  In s (getUserConversations st U) ->
  (forall u, In u (otherMembers s) ->
     User.id u <> U /\ In u (users st)
     /\ isMember st (Conversation.id (conversation s)) (User.id u) = true)
  /\ (store_ok st = true ->
      forall V, V <> U ->
        isMember st (Conversation.id (conversation s)) V = true ->
        exists u, In u (otherMembers s) /\ User.id u = V).
Proof.
  intros Hs. apply in_getUserConversations in Hs as [c [-> _]].
  cbn [summarize conversation otherMembers]. unfold otherMembersOf, where_.
  split.
  - intros u Hu. apply in_map_iff in Hu as [[cm u'] [Heq Hin]].
    simpl in Heq. subst u'. apply filter_In in Hin as [Hin Hp].
    simpl in Hp. apply andb_true_iff in Hp as [Hc Hne].
    apply in_innerJoin in Hin as [Hcm [Hu Hon]].
    apply String.eqb_eq in Hc, Hon. apply neqb_neq in Hne.
    split; [congruence|]. split; [exact Hu|].
    apply isMember_In. exists cm. repeat split; [assumption..|].
    now symmetry in Hon.
  - intros Hok V HV Hm. apply store_ok_StoreOk in Hok.
    apply isMember_In in Hm as [cm [Hcm [Hc Hu]]].
    destruct (conversationMembers_fk Hok cm Hcm) as [_ Huser].
    apply hasUser_In in Huser as [u [Hin Hid]].
    exists u. split; [|congruence].
    apply in_map_iff. exists (cm, u). split; [reflexivity|].
    apply filter_In. simpl. split.
    + apply in_innerJoin. repeat split; try assumption.
      apply String.eqb_eq. congruence.
    + apply andb_true_iff. split; [now apply String.eqb_eq|].
      apply neqb_neq. congruence.
Qed.

Lemma otherMembers_are_the_others_witness :
  exists s, In s (getUserConversations (E := lastFirstEngine)
                    (store world3) "alice")
            /\ exists u, In u (otherMembers s) /\ User.id u = "bob".
Proof.
  eexists. split; [left; reflexivity|].
  refine (proj2 (otherMembers_are_the_others (E := lastFirstEngine)
                   (store world3) "alice" _ (or_introl eq_refl))
            eq_refl "bob" _ eq_refl).
  discriminate.
Defined.

(** X2.  In an entry of [getUserConversations], [lastMessage] is absent
    exactly when the conversation has no message; when present it is a
    message of the conversation, and none of its messages is more
    recent. *)
Theorem lastMessage_is_most_recent {E : QueryEngine} (st : Store) (U : string)
  (s : ConversationSummary) :
  In s (getUserConversations st U) ->
  match lastMessage s with
  | Some m =>
      In m (messagesOf st (Conversation.id (conversation s)))
      /\ forall m', In m' (messagesOf st (Conversation.id (conversation s))) ->
           Message.createdAt m' <= Message.createdAt m
  | None => messagesOf st (Conversation.id (conversation s)) = []
  end.
Proof.
  intros Hs. apply in_getUserConversations in Hs as [c [-> _]].
  cbn [summarize conversation lastMessage].
  unfold lastMessageOf, where_, limit. fold (messagesOf st (Conversation.id c)).
  pose proof (orderByDesc_Permutation Message.createdAt
                (messagesOf st (Conversation.id c))) as Hperm.
  pose proof (orderByDesc_sorted Message.createdAt
                (messagesOf st (Conversation.id c))) as Hsorted.
  destruct (orderByDesc Message.createdAt (messagesOf st (Conversation.id c)))
    as [|h sorted]; simpl.
  - now apply Permutation_sym, Permutation_nil in Hperm.
  - split.
    + apply (Permutation_in _ (Permutation_sym Hperm)). now left.
    + intros m' Hm'. apply (Permutation_in _ Hperm) in Hm'.
      destruct Hm' as [->|Hm']; [lia|].
      inversion Hsorted as [|? ? _ Hall]; subst.
      rewrite Forall_forall in Hall. now apply Hall.
Qed.

Lemma lastMessage_is_most_recent_witness :
  Forall (fun m' => Message.createdAt m' <= 1017)
         (messagesOf (store world3) "a").
Proof.
  pose proof (lastMessage_is_most_recent (E := lastFirstEngine)
                (store world3) "bob" _ (or_introl eq_refl)) as H.
  apply Forall_forall. intros m' Hm'. exact (proj2 H m' Hm').
Defined.

(** ** Reading a conversation's messages: refusals *)

(** With a positive limit the query is not refused. *)
Lemma getConversationMessages_returns {E : QueryEngine} (st : Store)
  (conversationId : string) (n : Z) :
  0 < n ->
  getConversationMessages st conversationId (Some (int n))
  = Ok (rev (map (fun r => {| message := fst r; sender := snd r |})
               (limit (Z.to_nat n)
                  (orderByDesc (fun r => Message.createdAt (fst r))
                     (where_ (fun r => String.eqb
                                         (Message.conversationId (fst r))
                                         conversationId)
                        (innerJoin (messages st) (users st)
                           (fun m u => String.eqb (Message.senderId m)
                                         (User.id u)))))))).
Proof.
  intros Hn. unfold getConversationMessages.
  now rewrite (limitRows_positive _ Hn).
Qed.

(** X4.  A user without a membership row in the conversation gets 403
    from GET /api/conversations/:id/messages and from POST
    /api/conversations/:id/messages (500 when the body has no content),
    and neither request changes anything. *)
Theorem non_member_is_refused {E : QueryEngine} (userId id : string)
  (env : Env) (w : World) :
  store_ok (store w) = true ->
  isMember (store w) id userId = false ->
  (forall limit_,
     getMessagesHandler userId id limit_ env w
     = (Ok (status 403 "Access denied"), w))
  /\ (forall content messageType,
        postMessagesHandler userId id
          {| body_content := Some content; body_messageType := messageType |}
          env w
        = (Ok (status 403 "Access denied"), w))
  /\ (forall messageType,
        postMessagesHandler userId id
          {| body_content := None; body_messageType := messageType |} env w
        = (Ok (status 500 "Failed to send message"), w)).
Proof.
  intros Hok Hno. apply store_ok_StoreOk in Hok.
  rewrite <- (isMemberOf_getConversationMembers _ _ Hok) in Hno.
  split; [|split]; intros.
  - now apply getMessagesHandler_denied.
  - now rewrite postMessagesHandler_denied.
  - reflexivity.
Qed.

Lemma non_member_is_refused_witness :
  getMessagesHandler (E := lastFirstEngine) "eve" "a" (Some (int 10)) sampleEnv
    world3
  = (Ok (status 403 "Access denied"), world3).
Proof.
  apply (proj1 (non_member_is_refused (E := lastFirstEngine) "eve" "a"
                  sampleEnv world3 eq_refl eq_refl)).
Defined.

(** ** Creating rows and finding them again *)

Lemma existsb_false_filter (A : Type) (p : A -> bool) (l : list A) :
  existsb p l = false -> filter p l = [].
Proof.
  intros H. apply filter_none. intros x Hx.
  destruct (p x) eqn:Hp; [|reflexivity].
  assert (existsb p l = true) by (apply existsb_exists; eauto). congruence.
Qed.

(** X6.  The row [createConversation] returns is the row [getConversation]
    then finds under its [id]; the lookup of any other id is what it was;
    and the new conversation has no member yet.  The defaults are those
    of the schema: [isGroup] false and both timestamps the same. *)
Theorem createConversation_then_getConversation (c : InsertConversation)
  (env : Env) (w w' : World) (row : Conversation.t) :
  store_ok (store w) = true ->
  createConversation c env w = (Ok row, w') ->
  getConversation (store w') (Conversation.id row) = Some row
  /\ (forall id, id <> Conversation.id row ->
        getConversation (store w') id = getConversation (store w) id)
  /\ getConversationMembers (store w') (Conversation.id row) = []
  /\ (ic_isGroup c = undefined -> Conversation.isGroup row = Some false)
  /\ Conversation.createdAt row = Conversation.updatedAt row.
Proof.
  intros Hok. apply store_ok_StoreOk in Hok.
  rewrite createConversation_run. cbv zeta. unfold insertConversation.
  set (r := Conversation.mk _ _ _ _ _).
  destruct (hasConversation (store w) (Conversation.id r)) eqn:Hfresh;
    [discriminate|].
  intros H. injection H as <- <-. cbn [store].
  unfold getConversation, getConversationMembers, where_.
  cbn [conversations conversationMembers users].
  repeat split.
  - rewrite filter_app. unfold hasConversation in Hfresh.
    rewrite (existsb_false_filter _ _ Hfresh). simpl.
    now rewrite String.eqb_refl.
  - intros id Hid. rewrite filter_app. simpl.
    replace (String.eqb (gen_random_uuid env (drawn w)) id) with false.
    + now rewrite app_nil_r.
    + symmetry. apply String.eqb_neq. intros Heq. apply Hid. now rewrite <- Heq.
  - rewrite filter_none; [reflexivity|].
    intros [cm u] Hin. apply in_innerJoin in Hin as [Hcm _]. simpl.
    apply String.eqb_neq. intros Heq.
    destruct (conversationMembers_fk Hok cm Hcm) as [Hconv _].
    rewrite Heq in Hconv. unfold r in Hfresh, Hconv.
    cbn [Conversation.id] in Hfresh, Hconv. congruence.
  - intros Hg. unfold r. simpl. now rewrite Hg.
Qed.

Lemma createConversation_then_getConversation_witness :
  exists row w',
    createConversation {| ic_name := val "team"; ic_isGroup := undefined |}
      sampleEnv world3 = (Ok row, w')
    /\ getConversation (store w') (Conversation.id row) = Some row.
Proof.
  eexists. eexists. split; [vm_compute; reflexivity|].
  apply (@createConversation_then_getConversation
           {| ic_name := val "team"; ic_isGroup := undefined |}
           sampleEnv world3 _ _ eq_refl eq_refl).
Defined.

(** X7.  [addConversationMember], given a fresh row id, succeeds exactly
    when the conversation and the user exist; then the user passes the
    membership check of the handlers for that conversation.  Otherwise it
    throws a foreign-key violation and writes nothing. *)
Theorem addConversationMember_then_member (m : InsertConversationMember)
  (env : Env) (w : World) :
  hasMember (store w) (gen_random_uuid env (drawn w)) = false ->
  if hasConversation (store w) (icm_conversationId m)
     && hasUser (store w) (icm_userId m)
  then exists row w',
         addConversationMember m env w = (Ok row, w')
         /\ conversationMembers (store w') = conversationMembers (store w) ++ [row]
         /\ isMemberOf (getConversationMembers (store w') (icm_conversationId m))
              (icm_userId m) = true
  else addConversationMember m env w = (Throw ForeignKeyViolation, advance 2 w).
Proof.
  intros Hfresh. rewrite addConversationMember_run. cbv zeta.
  unfold insertConversationMember. cbn [ConversationMember.id
    ConversationMember.conversationId ConversationMember.userId].
  rewrite Hfresh.
  destruct (hasConversation (store w) (icm_conversationId m)
            && hasUser (store w) (icm_userId m)) eqn:Hfk; cbn [negb];
    [|reflexivity].
  eexists. eexists. split; [reflexivity|]. split; [reflexivity|].
  apply andb_true_iff in Hfk as [_ Hu].
  apply hasUser_In in Hu as [u [Hu Hid]].
  unfold isMemberOf. apply existsb_exists. exists u.
  split; [|now apply String.eqb_eq].
  unfold getConversationMembers, where_. cbn [store conversationMembers users].
  apply in_map_iff. eexists (_, u). split; [reflexivity|].
  apply filter_In. split.
  - apply in_innerJoin. split; [apply in_or_app; right; left; reflexivity|].
    split; [exact Hu|]. simpl. now apply String.eqb_eq.
  - simpl. apply String.eqb_refl.
Qed.

Lemma addConversationMember_then_member_witness :
  addConversationMember {| icm_conversationId := "a"; icm_userId := "ghost" |}
    sampleEnv world3
  = (Throw ForeignKeyViolation, advance 2 world3).
Proof.
  apply (addConversationMember_then_member
           {| icm_conversationId := "a"; icm_userId := "ghost" |}
           sampleEnv world3 eq_refl).
Defined.

(** X8.  [createMessage] for a conversation or a sender that does not
    exist throws a foreign-key violation and writes nothing: no message
    row, and no conversation's [updatedAt] is touched. *)
Theorem createMessage_rejects_unknown (m : InsertMessage) (env : Env)
  (w : World) :
  hasMessage (store w) (gen_random_uuid env (drawn w)) = false ->
  hasConversation (store w) (im_conversationId m)
  && hasUser (store w) (im_senderId m) = false ->
  createMessage m env w = (Throw ForeignKeyViolation, advance 2 w).
Proof.
  intros Hfresh Hfk. rewrite createMessage_run. cbv zeta.
  unfold insertMessage. cbn [Message.id Message.conversationId
    Message.senderId]. now rewrite Hfresh, Hfk.
Qed.

Lemma createMessage_rejects_unknown_witness :
  createMessage {| im_conversationId := "nowhere"; im_senderId := "bob";
                   im_content := "hi"; im_messageType := undefined;
                   im_isEdited := undefined |} sampleEnv world3
  = (Throw ForeignKeyViolation, advance 2 world3).
Proof.
  apply (createMessage_rejects_unknown
           {| im_conversationId := "nowhere"; im_senderId := "bob";
              im_content := "hi"; im_messageType := undefined;
              im_isEdited := undefined |} sampleEnv world3 eq_refl eq_refl).
Defined.

(** ** Posting a message *)

Section Posting.
Context {E : QueryEngine}.
Variables (env : Env) (w : World).
Variables (userId id content : string) (messageType : Nullish string).
Hypothesis Hok : StoreOk (store w).
Hypothesis Hmember : isMember (store w) id userId = true.
Hypothesis Hfresh : hasMessage (store w) (gen_random_uuid env (drawn w)) = false.

(** The message the handler inserts, its receipt, and the database the
    handler leaves. *)
Let posted : Message.t :=
  Message.mk (gen_random_uuid env (drawn w)) id userId content
    (columnDefault (Some "text") messageType) (Some false)
    (now env (1 + drawn w)) (now env (1 + drawn w)).

Let receipt : MessageReadReceipt.t :=
  MessageReadReceipt.mk (gen_random_uuid env (3 + drawn w))
    (gen_random_uuid env (drawn w)) userId (now env (4 + drawn w)).

Let touched : list Conversation.t :=
  map (fun c => if String.eqb (Conversation.id c) id
                then Conversation.set_updatedAt c (newDate env (2 + drawn w))
                else c)
    (conversations (store w)).

Let st2 : Store :=
  mkStore (users (store w)) touched (conversationMembers (store w))
    (messages (store w) ++ [posted])
    (if hasReceiptId (store w) (gen_random_uuid env (3 + drawn w))
     then messageReadReceipts (store w)
     else messageReadReceipts (store w) ++ [receipt]).

Lemma member_exists :
  hasConversation (store w) id = true /\ hasUser (store w) userId = true.
Proof.
  apply isMember_In in Hmember as [cm [Hcm [Hc Hu]]].
  destruct (conversationMembers_fk Hok cm Hcm) as [H1 H2].
  now rewrite Hc in H1; rewrite Hu in H2.
Qed.

Let st1 : Store :=
  mkStore (users (store w)) touched (conversationMembers (store w))
    (messages (store w) ++ [posted]) (messageReadReceipts (store w)).

Lemma createMessage_posted :
  createMessage {| im_conversationId := id; im_senderId := userId;
                   im_content := content; im_messageType := messageType;
                   im_isEdited := undefined |} env w
  = (Ok posted, {| store := st1; drawn := 3 + drawn w |}).
Proof.
  destruct member_exists as [Hconv Huser].
  rewrite createMessage_run. cbv zeta. unfold insertMessage.
  cbn [im_conversationId im_senderId im_content im_messageType im_isEdited
       Message.id Message.conversationId Message.senderId columnDefault].
  now rewrite Hfresh, Hconv, Huser.
Qed.

Lemma markMessageAsRead_posted :
  markMessageAsRead (Message.id posted) userId env
    {| store := st1; drawn := 3 + drawn w |}
  = (Ok tt, {| store := st2; drawn := 5 + drawn w |}).
Proof.
  destruct member_exists as [_ Huser].
  rewrite markMessageAsRead_run. cbv zeta.
  unfold insertReadReceiptOnConflictDoNothing.
  cbn [store drawn MessageReadReceipt.id MessageReadReceipt.messageId
       MessageReadReceipt.userId].
  change (hasReceiptId st1 (gen_random_uuid env (3 + drawn w)))
    with (hasReceiptId (store w) (gen_random_uuid env (3 + drawn w))).
  change (hasUser st1 userId) with (hasUser (store w) userId).
  unfold st2.
  destruct (hasReceiptId (store w) (gen_random_uuid env (3 + drawn w)));
    [reflexivity|].
  rewrite Huser.
  replace (hasMessage st1 (Message.id posted)) with true; [reflexivity|].
  symmetry. unfold hasMessage, st1. cbn [messages].
  rewrite existsb_app. simpl. rewrite String.eqb_refl.
  now rewrite orb_true_r.
Qed.

(** A member's POST /api/conversations/:id/messages with a content runs
    to the end. *)
Lemma postMessagesHandler_run :
  exists rows,
    getConversationMessages st2 id (Some (int 1)) = Ok rows
    /\ postMessagesHandler userId id
         {| body_content := Some content; body_messageType := messageType |}
         env w
       = (Ok (json (hd_error rows)), {| store := st2; drawn := 5 + drawn w |}).
Proof.
  assert (Hpos : 0 < 1) by lia.
  pose proof (getConversationMessages_returns st2 id Hpos) as Hrows.
  eexists. split; [exact Hrows|].
  unfold postMessagesHandler, tryCatch.
  cbn [body_content body_messageType].
  unfold bind at 1. unfold ret at 1. unfold bind at 1. unfold query at 1.
  rewrite (isMemberOf_getConversationMembers _ _ Hok), Hmember. cbn [negb].
  unfold bind at 1. rewrite createMessage_posted.
  unfold bind at 1. rewrite markMessageAsRead_posted.
  unfold bind at 1. unfold queryOutcome at 1. cbn [store].
  now rewrite Hrows.
Qed.
Lemma old_message_ids (m : Message.t) :
  In m (messages (store w)) -> Message.id m <> gen_random_uuid env (drawn w).
Proof.
  intros Hm Heq. unfold hasMessage in Hfresh.
  assert (existsb (fun m => String.eqb (Message.id m)
                              (gen_random_uuid env (drawn w)))
            (messages (store w)) = true) as Ht.
  { apply existsb_exists. exists m. split; [exact Hm|].
    now apply String.eqb_eq. }
  congruence.
Qed.

Lemma posted_by_id (m : Message.t) :
  In m (messages st2) -> Message.id m = gen_random_uuid env (drawn w) ->
  m = posted.
Proof.
  unfold st2. cbn [messages]. intros Hm Hid.
  apply in_app_or in Hm as [Hm|[<-|[]]]; [|reflexivity].
  now apply old_message_ids in Hm.
Qed.

(** For the messages that were there, the receipts say what they said. *)
Lemma hasReceipt_old (m : Message.t) (V : string) :
  In m (messages (store w)) ->
  hasReceipt st2 (Message.id m) V = hasReceipt (store w) (Message.id m) V.
Proof.
  intros Hm. unfold hasReceipt, st2. cbn [messageReadReceipts].
  destruct (hasReceiptId (store w) _); [reflexivity|].
  rewrite existsb_app. simpl.
  replace (String.eqb (gen_random_uuid env (drawn w)) (Message.id m))
    with false.
  - simpl. now rewrite orb_false_r.
  - symmetry. apply String.eqb_neq. intros Heq.
    now apply (old_message_ids m Hm).
Qed.

(** The posted message has a receipt of its sender at most. *)
Lemma hasReceipt_posted (V : string) :
  V <> userId -> hasReceipt st2 (gen_random_uuid env (drawn w)) V = false.
Proof.
  intros HV. unfold hasReceipt, st2. cbn [messageReadReceipts].
  assert (Hold : existsb
                   (fun r => String.eqb (MessageReadReceipt.messageId r)
                               (gen_random_uuid env (drawn w))
                             && String.eqb (MessageReadReceipt.userId r) V)
                   (messageReadReceipts (store w)) = false).
  { apply filter_nil_existsb, filter_none. intros r Hr.
    apply andb_false_iff. left. apply String.eqb_neq. intros Heq.
    destruct (messageReadReceipts_fk Hok r Hr) as [Hm _].
    rewrite Heq in Hm. congruence. }
  destruct (hasReceiptId (store w) _); [exact Hold|].
  rewrite existsb_app, Hold. simpl.
  replace (String.eqb userId V) with false.
  - now rewrite andb_false_r.
  - symmetry. apply String.eqb_neq. congruence.
Qed.

Lemma unreadSet_after_post (C V : string) :
  List.length (unreadSet st2 C V)
  = (List.length (unreadSet (store w) C V)
     + (if String.eqb C id && neqb V userId then 1 else 0))%nat.
Proof.
  unfold unreadSet, messagesOf.
  change (messages st2) with (messages (store w) ++ [posted]).
  rewrite !filter_app, length_app. f_equal.
  - f_equal. apply filter_ext_in. intros m Hm.
    apply filter_In in Hm as [Hm _]. now rewrite (hasReceipt_old m V Hm).
  - cbn [filter posted Message.conversationId].
    rewrite (String.eqb_sym id C).
    destruct (String.eqb C id); [|reflexivity].
    cbn [filter andb].
    change (Message.senderId posted) with userId.
    change (Message.id posted) with (gen_random_uuid env (drawn w)).
    destruct (neqb V userId) eqn:HV.
    + apply neqb_neq in HV. rewrite (hasReceipt_posted HV).
      replace (neqb userId V) with true; [reflexivity|].
      symmetry. apply neqb_neq. congruence.
    + unfold neqb in HV. apply negb_false_iff, String.eqb_eq in HV. subst V.
      now rewrite neqb_refl.
Qed.

(** X9.  When a member posts a message, the answer is not an error, the
    [unreadCount] of the conversation goes up by one for every user
    other than the sender, and every other [unreadCount], the sender's
    included, stays what it was. *)
Theorem posting_raises_unread_of_others :
  exists resp w',
    postMessagesHandler userId id
      {| body_content := Some content; body_messageType := messageType |}
      env w = (Ok (json resp), w')
    /\ forall V c,
         unreadCount (summarize (store w') V c)
         = (unreadCount (summarize (store w) V c)
            + (if String.eqb (Conversation.id c) id && neqb V userId
               then 1 else 0))%nat.
Proof.
  destruct postMessagesHandler_run as [rows [_ Hrun]].
  eexists. eexists. split; [exact Hrun|].
  intros V c. cbn [store]. rewrite !unreadCount_summarize.
  apply unreadSet_after_post.
Qed.
(** X10.  When every message the conversation already holds is older than
    the database's clock at the insert, the handler answers with the
    message just posted, joined with the sender's user row, and that
    message is the [lastMessage] of the conversation in every list. *)
Theorem posting_answers_the_posted_message :
  forallb (fun m => negb (String.eqb (Message.conversationId m) id)
                    || (Message.createdAt m <? now env (1 + drawn w)))
    (messages (store w)) = true ->
  exists h w',
    postMessagesHandler userId id
      {| body_content := Some content; body_messageType := messageType |}
      env w = (Ok (json (Some h)), w')
    /\ messages (store w') = messages (store w) ++ [message h]
    /\ Message.conversationId (message h) = id
    /\ Message.senderId (message h) = userId
    /\ Message.content (message h) = content
    /\ In (sender h) (users (store w'))
    /\ User.id (sender h) = userId
    /\ forall V c, Conversation.id c = id ->
         lastMessage (summarize (store w') V c) = Some (message h).
Proof.
  intros Hlatest. rewrite forallb_forall in Hlatest.
  destruct member_exists as [_ Huser].
  apply hasUser_In in Huser as [u [Hu Hid]].
  destruct postMessagesHandler_run as [rows [Hrows Hrun]].
  (* the older messages of the conversation *)
  assert (Holder : forall m, In m (messages st2) ->
                     Message.conversationId m = id ->
                     Message.id m <> gen_random_uuid env (drawn w) ->
                     Message.createdAt m < Message.createdAt posted).
  { intros m Hm Hc Hne. unfold st2 in Hm. cbn [messages] in Hm.
    apply in_app_or in Hm as [Hm|[<-|[]]]; [|now contradiction Hne].
    specialize (Hlatest m Hm). rewrite Hc, String.eqb_refl in Hlatest.
    simpl in Hlatest. now apply Z.ltb_lt in Hlatest. }
  (* the joined rows *)
  assert (Hpos : 0 < 1) by lia.
  rewrite (getConversationMessages_returns st2 id Hpos) in Hrows.
  destruct (orderByDesc_head
              (fun r : Message.t * User.t => Message.createdAt (fst r))
              (fun r => Message.id (fst r) = gen_random_uuid env (drawn w))
              (where_ (fun r => String.eqb (Message.conversationId (fst r)) id)
                 (innerJoin (messages st2) (users st2)
                    (fun m u => String.eqb (Message.senderId m) (User.id u)))))
    as [[m0 u0] [Hhd [Hin HP]]].
  { exists (posted, u). split; [|reflexivity].
    apply filter_In. split; [|apply String.eqb_refl].
    apply in_innerJoin. split; [apply in_or_app; right; now left|].
    split; [exact Hu|]. simpl. apply String.eqb_eq. now symmetry. }
  { intros [mx ux] [my uy] Hx Hy Px Py. simpl in *.
    apply filter_In in Hx as [Hx _]. apply in_innerJoin in Hx as [Hx _].
    apply filter_In in Hy as [Hy Hcy]. apply in_innerJoin in Hy as [Hy _].
    rewrite (posted_by_id mx Hx Px).
    apply Holder; [exact Hy|now apply String.eqb_eq|exact Py]. }
  { intros [mx ux]. simpl.
    destruct (string_dec (Message.id mx) (gen_random_uuid env (drawn w)));
      [now left|now right]. }
  simpl in HP. apply filter_In in Hin as [Hin _].
  apply in_innerJoin in Hin as [Hm0 [Hu0 Hon]].
  apply (posted_by_id m0 Hm0) in HP. subst m0.
  apply String.eqb_eq in Hon.
  destruct (orderByDesc _ _) as [|h0 sorted]; [discriminate|].
  injection Hhd as ->. simpl in Hrows. injection Hrows as <-.
  exists {| message := posted; sender := u0 |}. eexists.
  split; [exact Hrun|]. cbn [store message sender].
  repeat split; try reflexivity; try assumption.
  - now symmetry.
  - intros V c Hc. cbn [summarize lastMessage]. rewrite Hc.
    unfold lastMessageOf, limit.
    destruct (orderByDesc_head Message.createdAt
                (fun m => Message.id m = gen_random_uuid env (drawn w))
                (where_ (fun m => String.eqb (Message.conversationId m) id)
                   (messages st2)))
      as [m1 [Hhd1 [Hin1 HP1]]].
    { exists posted. split; [|reflexivity].
      apply filter_In. split; [|apply String.eqb_refl].
      apply in_or_app. right. now left. }
    { intros mx my Hx Hy Px Py.
      apply filter_In in Hx as [Hx _]. apply filter_In in Hy as [Hy Hcy].
      rewrite (posted_by_id mx Hx Px).
      apply Holder; [exact Hy|now apply String.eqb_eq|exact Py]. }
    { intros mx.
      destruct (string_dec (Message.id mx) (gen_random_uuid env (drawn w)));
        [now left|now right]. }
    apply filter_In in Hin1 as [Hin1 _].
    apply (posted_by_id m1 Hin1) in HP1. subst m1.
    destruct (orderByDesc _ _) as [|h1 sorted1]; [discriminate|].
    injection Hhd1 as ->. reflexivity.
Qed.

(** X11.  When the server's clock at the post is later than the
    [updatedAt] of every other conversation, the conversation posted to
    is the first of the list of each of its members. *)
Theorem posting_moves_conversation_first (V : string) :
  isMember (store w) id V = true ->
  forallb (fun c => String.eqb (Conversation.id c) id
                    || (Conversation.updatedAt c <? newDate env (2 + drawn w)))
    (conversations (store w)) = true ->
  exists resp w' s rest,
    postMessagesHandler userId id
      {| body_content := Some content; body_messageType := messageType |}
      env w = (Ok (json resp), w')
    /\ getUserConversations (store w') V = s :: rest
    /\ Conversation.id (conversation s) = id
    /\ Conversation.updatedAt (conversation s) = newDate env (2 + drawn w).
Proof.
  intros HV Hrecent. rewrite forallb_forall in Hrecent.
  destruct postMessagesHandler_run as [rows [_ Hrun]].
  assert (Htouched : forall c', In c' touched ->
            (Conversation.id c' = id
             /\ Conversation.updatedAt c' = newDate env (2 + drawn w))
            \/ (Conversation.id c' <> id
                /\ Conversation.updatedAt c' < newDate env (2 + drawn w))).
  { intros c' Hc'. apply in_map_iff in Hc' as [c0 [<- Hc0]].
    destruct (String.eqb (Conversation.id c0) id) eqn:Heq.
    - left. apply String.eqb_eq in Heq. split; [exact Heq|reflexivity].
    - right. split; [now apply String.eqb_neq|].
      specialize (Hrecent c0 Hc0). rewrite Heq in Hrecent.
      simpl in Hrecent. now apply Z.ltb_lt in Hrecent. }
  destruct (orderByDesc_head
              (fun r : ConversationMember.t * Conversation.t =>
                 Conversation.updatedAt (snd r))
              (fun r => Conversation.id (snd r) = id)
              (where_ (fun r => String.eqb (ConversationMember.userId (fst r)) V)
                 (innerJoin (conversationMembers st2) (conversations st2)
                    (fun cm c => String.eqb (ConversationMember.conversationId cm)
                                   (Conversation.id c)))))
    as [[cm0 c0] [Hhd [Hin HP]]].
  { apply isMember_In in HV as [cm [Hcm [Hc Hu]]].
    destruct member_exists as [Hconv _].
    apply hasConversation_In in Hconv as [c [Hcin Hcid]].
    exists (cm, Conversation.set_updatedAt c (newDate env (2 + drawn w))).
    split; [|exact Hcid].
    apply filter_In. split; [|now apply String.eqb_eq].
    apply in_innerJoin. split; [exact Hcm|]. split.
    - unfold st2. cbn [conversations]. apply in_map_iff. exists c.
      split; [|exact Hcin]. rewrite Hcid. now rewrite String.eqb_refl.
    - apply String.eqb_eq. simpl. congruence. }
  { intros [cmx cx] [cmy cy] Hx Hy Px Py. simpl in *.
    apply filter_In in Hx as [Hx _]. apply in_innerJoin in Hx as [_ [Hx _]].
    apply filter_In in Hy as [Hy _]. apply in_innerJoin in Hy as [_ [Hy _]].
    destruct (Htouched cx Hx) as [[_ Hux]|[Hnx _]]; [|contradiction].
    destruct (Htouched cy Hy) as [[Hiy _]|[_ Huy]]; [contradiction|].
    lia. }
  { intros [cmx cx]. simpl.
    destruct (string_dec (Conversation.id cx) id); [now left|now right]. }
  simpl in HP. apply filter_In in Hin as [Hin _].
  apply in_innerJoin in Hin as [_ [Hc0 _]].
  destruct (Htouched c0 Hc0) as [[_ Hu0]|[Hn0 _]]; [|contradiction].
  destruct (orderByDesc _ _) as [|h0 sorted] eqn:Hsort; [discriminate|].
  injection Hhd as ->.
  eexists. eexists. exists (summarize st2 V c0).
  exists (map (summarize st2 V) (map snd sorted)).
  split; [exact Hrun|]. cbn [store].
  unfold getUserConversations, userConversations. rewrite Hsort.
  split; [reflexivity|]. split; assumption.
Qed.
End Posting.

Lemma posting_raises_unread_of_others_witness :
  exists resp w',
    postMessagesHandler (E := tableOrderEngine) "bob" "a"
      {| body_content := Some "hi"; body_messageType := undefined |}
      sampleEnv world2 = (Ok (json resp), w')
    /\ forall V c,
         unreadCount (summarize (E := tableOrderEngine) (store w') V c)
         = (unreadCount (summarize (E := tableOrderEngine) (store world2) V c)
            + (if String.eqb (Conversation.id c) "a" && neqb V "bob"
               then 1 else 0))%nat.
Proof.
  exact (@posting_raises_unread_of_others tableOrderEngine sampleEnv world2
           "bob" "a" "hi" undefined
           (proj1 (store_ok_StoreOk (store world2)) eq_refl) eq_refl eq_refl).
Defined.

Lemma posting_answers_the_posted_message_witness :
  exists h w',
    postMessagesHandler (E := lastFirstEngine) "bob" "a"
      {| body_content := Some "hi"; body_messageType := undefined |}
      sampleEnv world2 = (Ok (json (Some h)), w')
    /\ Message.content (message h) = "hi".
Proof.
  destruct (@posting_answers_the_posted_message lastFirstEngine sampleEnv
              world2 "bob" "a" "hi" undefined
              (proj1 (store_ok_StoreOk (store world2)) eq_refl) eq_refl eq_refl eq_refl)
    as [h [w' [Hrun [_ [_ [_ [Hcontent _]]]]]]].
  exists h, w'. split; assumption.
Defined.

Lemma posting_moves_conversation_first_witness :
  exists resp w' s rest,
    postMessagesHandler (E := lastFirstEngine) "bob" "a"
      {| body_content := Some "hi"; body_messageType := undefined |}
      sampleEnv world2 = (Ok (json resp), w')
    /\ getUserConversations (E := lastFirstEngine) (store w') "alice"
       = s :: rest
    /\ Conversation.id (conversation s) = "a".
Proof.
  destruct (@posting_moves_conversation_first lastFirstEngine sampleEnv
              world2 "bob" "a" "hi" undefined
              (proj1 (store_ok_StoreOk (store world2)) eq_refl) eq_refl eq_refl
              "alice" eq_refl eq_refl)
    as [resp [w' [s [rest [Hrun [Hlist [Hid _]]]]]]].
  exists resp, w', s, rest. repeat split; assumption.
Defined.

(** ** Marking a message as read *)

Lemma NoDup_key_inj (A : Type) (key : A -> string) (l : list A) (x y : A) :
  NoDup (map key l) -> In x l -> In y l -> key x = key y -> x = y.
Proof.
  induction l as [|z l IH]; simpl; intros Hnd Hx Hy Heq; [contradiction|].
  inversion Hnd as [|? ? Hnz Hnd']; subst.
  destruct Hx as [->|Hx], Hy as [->|Hy]; try reflexivity.
  - exfalso. apply Hnz. rewrite Heq. now apply in_map.
  - exfalso. apply Hnz. rewrite <- Heq. now apply in_map.
  - now apply IH.
Qed.

Lemma NoDup_map_filter (A : Type) (key : A -> string) (p : A -> bool)
  (l : list A) :
  NoDup (map key l) -> NoDup (map key (filter p l)).
Proof.
  induction l as [|z l IH]; simpl; intros Hnd; [constructor|].
  inversion Hnd as [|? ? Hnz Hnd']; subst.
  destruct (p z); simpl; [|now apply IH].
  constructor; [|now apply IH].
  intros Hin. apply Hnz. apply in_map_iff in Hin as [x [Hx Hin]].
  apply filter_In in Hin as [Hin _]. rewrite <- Hx. now apply in_map.
Qed.

(** X12.  POST /api/messages/:id/read, the receipt id being new: for a
    message and a user that exist the answer is success and one receipt
    row is appended; otherwise the answer is 500 and nothing is
    written. *)
Theorem postReadHandler_outcome (userId id : string) (env : Env) (w : World) :
  hasReceiptId (store w) (gen_random_uuid env (drawn w)) = false ->
  if hasMessage (store w) id && hasUser (store w) userId
  then exists w' row,
         postReadHandler userId id env w = (Ok (json true), w')
         /\ messageReadReceipts (store w')
            = messageReadReceipts (store w) ++ [row]
         /\ MessageReadReceipt.messageId row = id
         /\ MessageReadReceipt.userId row = userId
         /\ MessageReadReceipt.readAt row = now env (1 + drawn w)
  else postReadHandler userId id env w
       = (Ok (status 500 "Failed to mark message as read"), advance 2 w).
Proof.
  intros Hfresh. unfold postReadHandler, tryCatch, bind.
  rewrite markMessageAsRead_run. cbv zeta.
  unfold insertReadReceiptOnConflictDoNothing.
  cbn [MessageReadReceipt.id MessageReadReceipt.messageId
       MessageReadReceipt.userId].
  rewrite Hfresh.
  destruct (hasMessage (store w) id && hasUser (store w) userId);
    cbn [negb]; [|reflexivity].
  eexists. eexists. split; [reflexivity|]. repeat split.
Qed.

Lemma postReadHandler_outcome_witness :
  postReadHandler "bob" "no-such-message" sampleEnv world3
  = (Ok (status 500 "Failed to mark message as read"), advance 2 world3).
Proof.
  apply (postReadHandler_outcome "bob" "no-such-message" sampleEnv world3
           eq_refl).
Defined.

Section Reading.
Context {E : QueryEngine}.
Variables (env : Env) (w : World) (messageId userId : string).
Hypothesis Hok : StoreOk (store w).
Hypothesis Hfresh :
  hasReceiptId (store w) (gen_random_uuid env (drawn w)) = false.
Hypothesis Hmessage : hasMessage (store w) messageId = true.
Hypothesis Huser : hasUser (store w) userId = true.

Let st' : Store :=
  mkStore (users (store w)) (conversations (store w))
    (conversationMembers (store w)) (messages (store w))
    (messageReadReceipts (store w)
     ++ [MessageReadReceipt.mk (gen_random_uuid env (drawn w)) messageId userId
           (now env (S (drawn w)))]).

Lemma markMessageAsRead_marks :
  markMessageAsRead messageId userId env w
  = (Ok tt, {| store := st'; drawn := 2 + drawn w |}).
Proof.
  rewrite markMessageAsRead_run. cbv zeta.
  unfold insertReadReceiptOnConflictDoNothing.
  cbn [MessageReadReceipt.id MessageReadReceipt.messageId
       MessageReadReceipt.userId].
  now rewrite Hfresh, Hmessage, Huser.
Qed.

Lemma hasReceipt_marked (x V : string) :
  hasReceipt st' x V
  = hasReceipt (store w) x V
    || (String.eqb messageId x && String.eqb userId V).
Proof.
  unfold hasReceipt, st'. cbn [messageReadReceipts].
  rewrite existsb_app. simpl. now rewrite orb_false_r.
Qed.

(** X13.  After a user has marked a message as read, the [unreadCount]
    of every other user is what it was, in every conversation; the
    user's own count for a conversation is one less when the message is
    a message of that conversation, sent by someone else, that the user
    had no receipt for, and what it was otherwise. *)
Theorem reading_lowers_own_unread :
  exists w',
    markMessageAsRead messageId userId env w = (Ok tt, w')
    /\ forall c,
         (forall V, V <> userId ->
            unreadCount (summarize (store w') V c)
            = unreadCount (summarize (store w) V c))
         /\ forall m, In m (messages (store w)) -> Message.id m = messageId ->
              unreadCount (summarize (store w') userId c)
              = (unreadCount (summarize (store w) userId c)
                 - (if String.eqb (Message.conversationId m) (Conversation.id c)
                       && neqb (Message.senderId m) userId
                       && negb (hasReceipt (store w) messageId userId)
                    then 1 else 0))%nat.
Proof.
  eexists. split; [apply markMessageAsRead_marks|].
  intros c. cbn [store]. split.
  - intros V HV. rewrite !unreadCount_summarize. unfold unreadSet.
    f_equal. change (messagesOf st' (Conversation.id c))
      with (messagesOf (store w) (Conversation.id c)).
    apply filter_ext. intros x. rewrite hasReceipt_marked.
    replace (String.eqb userId V) with false;
      [now rewrite andb_false_r, orb_false_r|].
    symmetry. apply String.eqb_neq. congruence.
  - intros m Hm Hid. rewrite !unreadCount_summarize. unfold unreadSet.
    change (messagesOf st' (Conversation.id c))
      with (messagesOf (store w) (Conversation.id c)).
    set (l := messagesOf (store w) (Conversation.id c)).
    set (p := fun x : Message.t =>
                neqb (Message.senderId x) userId
                && negb (hasReceipt (store w) (Message.id x) userId)).
    assert (Hfilter : filter (fun x => neqb (Message.senderId x) userId
                                       && negb (hasReceipt st' (Message.id x)
                                                  userId)) l
                      = filter (fun x => p x && neqb (Message.id x)
                                                  (Message.id m)) l).
    { apply filter_ext. intros x. unfold p. rewrite hasReceipt_marked.
      rewrite String.eqb_refl, andb_true_r, negb_orb, andb_assoc.
      unfold neqb. now rewrite Hid, (String.eqb_sym messageId). }
    rewrite Hfilter. clear Hfilter.
    assert (Hcond : String.eqb (Message.conversationId m) (Conversation.id c)
                    && neqb (Message.senderId m) userId
                    && negb (hasReceipt (store w) messageId userId)
                    = true <-> In m l /\ p m = true).
    { unfold l, messagesOf, p. rewrite filter_In, Hid, !andb_true_iff.
      tauto. }
    destruct (String.eqb (Message.conversationId m) (Conversation.id c)
              && neqb (Message.senderId m) userId
              && negb (hasReceipt (store w) messageId userId)).
    + destruct (proj1 Hcond eq_refl) as [Hin Hp].
      rewrite (filter_remove_one Message.id p l m); [lia| |exact Hin|exact Hp].
      apply NoDup_map_filter, (messages_pk Hok).
    + replace (List.length (filter p l) - 0)%nat
        with (List.length (filter p l)) by lia.
      f_equal. apply filter_ext_in. intros x Hx.
      destruct (p x) eqn:Hpx; [|reflexivity]. simpl.
      apply neqb_neq. intros Heq.
      assert (x = m).
      { apply (NoDup_key_inj Message.id (messages (store w)));
          [apply (messages_pk Hok)| |exact Hm|exact Heq].
        unfold l, messagesOf in Hx. now apply filter_In in Hx. }
      subst x. assert (false = true) by (apply Hcond; now split).
      discriminate.
Qed.
End Reading.

Lemma reading_lowers_own_unread_witness :
  exists w',
    markMessageAsRead "l" "alice" sampleEnv world3 = (Ok tt, w')
    /\ forall c, Conversation.id c = "a" ->
         unreadCount (summarize (E := tableOrderEngine) (store w') "alice" c)
         = 1%nat.
Proof.
  destruct (@reading_lowers_own_unread tableOrderEngine sampleEnv world3
              "l" "alice" (proj1 (store_ok_StoreOk (store world3)) eq_refl)
              eq_refl eq_refl eq_refl) as [w' [Hrun Hall]].
  exists w'. split; [exact Hrun|]. intros c Hc.
  destruct (Hall c) as [_ Hown].
  rewrite (Hown (Message.mk "l" "a" "bob" "hi" (Some "text") (Some false)
                   1012 1012)); [|right; left; reflexivity|reflexivity].
  rewrite unreadCount_summarize, Hc. reflexivity.
Defined.

(** X14.  In a consistent database [getMessageReadReceipts] has one entry
    per receipt row of the message, each with the user row of the reader
    and the row's [readAt]: a pair marked twice is listed twice. *)
Theorem getMessageReadReceipts_lists_rows (st : Store) (messageId : string) :
  store_ok st = true ->
  Permutation
    (map (fun r => (User.id (fst r), snd r))
       (getMessageReadReceipts st messageId))
    (map (fun r => (MessageReadReceipt.userId r, MessageReadReceipt.readAt r))
       (filter (fun r => String.eqb (MessageReadReceipt.messageId r) messageId)
          (messageReadReceipts st)))
  /\ forall r, In r (getMessageReadReceipts st messageId) -> In (fst r) (users st).
Proof.
  intros Hok. apply store_ok_StoreOk in Hok.
  unfold getMessageReadReceipts, where_.
  set (J := innerJoin (messageReadReceipts st) (users st) _).
  assert (HJ : map fst J = messageReadReceipts st).
  { apply innerJoin_functional. intros r Hr.
    destruct (messageReadReceipts_fk Hok r Hr) as [_ Hu].
    apply hasUser_In in Hu as [u [Hu Hid]]. exists u.
    rewrite <- Hid. apply (filter_key_unique User.id);
      [apply (users_pk Hok)|exact Hu]. }
  split.
  - rewrite <- HJ.
    rewrite <- (map_fst_filter
                  (fun r => String.eqb (MessageReadReceipt.messageId r)
                              messageId) J).
    rewrite !map_map. simpl.
    erewrite map_ext_in; [apply Permutation_refl|].
    intros [r u] Hin. simpl. apply filter_In in Hin as [Hin _].
    apply in_innerJoin in Hin as [_ [_ Hon]].
    apply String.eqb_eq in Hon. now rewrite Hon.
  - intros r Hr. apply in_map_iff in Hr as [[r0 u] [<- Hin]]. simpl.
    apply filter_In in Hin as [Hin _]. now apply in_innerJoin in Hin.
Qed.

Lemma getMessageReadReceipts_lists_rows_witness :
  Permutation
    (map (fun r => (User.id (fst r), snd r))
       (getMessageReadReceipts (store world3) "g"))
    [("alice", 1010)].
Proof.
  exact (proj1 (getMessageReadReceipts_lists_rows (store world3) "g" eq_refl)).
Defined.

(** ** Users *)

Lemma upsertUser_run (userData : UpsertUser) (env : Env) (w : World) :
  upsertUser userData env w
  = let id := upsertId env w userData in
    let t := upsertNow env w userData in
    let d := newDate env (drawn w) in
    match upsertUserStatement id t d userData (store w) with
    | Ok st' => (Ok (upsertedUser (store w) id t d userData),
                 {| store := st'; drawn := upsertDraws userData + drawn w |})
    | Throw e => (Throw e, advance (upsertDraws userData) w)
    end.
Proof.
  unfold upsertUser, upsertId, upsertNow, upsertDraws, bind, draw, statement,
    query, ret, advance.
  destruct (uu_id userData); simpl;
    destruct (upsertUserStatement _ _ _ _ (store w)); reflexivity.
Qed.

Lemma getUser_found (st : Store) (id : string) :
  NoDup (map User.id (users st)) ->
  hasUser st id = true ->
  exists old, In old (users st) /\ User.id old = id
              /\ filter (fun u => String.eqb (User.id u) id) (users st) = [old].
Proof.
  intros Hnd Hu. apply hasUser_In in Hu as [old [Hin Hid]].
  exists old. split; [exact Hin|]. split; [exact Hid|]. subst id.
  rewrite <- (filter_key_unique User.id _ _ Hnd Hin).
  apply filter_ext. intros u. apply String.eqb_sym.
Qed.

Lemma filter_map_same_key (f : User.t -> User.t) (id : string)
  (l : list User.t) :
  (forall u, User.id (f u) = User.id u) ->
  filter (fun u => String.eqb (User.id u) id) (map f l)
  = map f (filter (fun u => String.eqb (User.id u) id) l).
Proof.
  intros Hf. induction l as [|u l IH]; simpl; [reflexivity|].
  rewrite Hf. destruct (String.eqb (User.id u) id); simpl; now rewrite IH.
Qed.

(** X15.  [upsertUser]: when another user has the email the row would
    get, the call throws and writes nothing.  Otherwise it returns the
    row that [getUser] then finds under its id, no other lookup changes,
    the table grows by one row exactly when the id was not there, and a
    row that was there keeps the columns the call leaves out and gets
    [new Date()] as [updatedAt]. *)
Theorem upsertUser_outcome (userData : UpsertUser) (env : Env) (w : World) :
  store_ok (store w) = true ->
  let id := upsertId env w userData in
  let row := upsertedUser (store w) id (upsertNow env w userData)
               (newDate env (drawn w)) userData in
  if emailTaken (store w) id (User.email row)
  then upsertUser userData env w
       = (Throw UniqueViolation, advance (upsertDraws userData) w)
  else exists w',
         upsertUser userData env w = (Ok row, w')
         /\ User.id row = id
         /\ getUser (store w') id = Some row
         /\ (forall id', id' <> id ->
               getUser (store w') id' = getUser (store w) id')
         /\ List.length (users (store w'))
            = (List.length (users (store w))
               + (if hasUser (store w) id then 0 else 1))%nat
         /\ (forall old, getUser (store w) id = Some old ->
               User.updatedAt row = Some (newDate env (drawn w))
               /\ (uu_email userData = undefined ->
                   User.email row = User.email old)
               /\ (uu_isOnline userData = undefined ->
                   User.isOnline row = User.isOnline old)
               /\ (uu_createdAt userData = undefined ->
                   User.createdAt row = User.createdAt old)
               /\ (uu_firstName userData = undefined ->
                   User.firstName row = User.firstName old)
               /\ (uu_lastName userData = undefined ->
                   User.lastName row = User.lastName old)
               /\ (uu_profileImageUrl userData = undefined ->
                   User.profileImageUrl row = User.profileImageUrl old)
               /\ (uu_lastSeen userData = undefined ->
                   User.lastSeen row = User.lastSeen old)).
Proof.
  intros Hok. apply store_ok_StoreOk in Hok. cbv zeta.
  rewrite upsertUser_run. cbv zeta. unfold upsertUserStatement.
  set (id := upsertId env w userData).
  set (t := upsertNow env w userData).
  set (d := newDate env (drawn w)).
  destruct (emailTaken (store w) id (User.email (upsertedUser _ id t d userData)));
    [reflexivity|].
  unfold upsertedUser, getUser, where_.
  destruct (hasUser (store w) id) eqn:Hhas.
  - destruct (getUser_found (store w) id (users_pk Hok) Hhas)
      as [old [Hin [Hid Hfilter]]].
    rewrite Hfilter. simpl hd_error. cbv iota.
    eexists. split; [reflexivity|]. cbn [store withUsers users].
    split; [exact Hid|]. split; [|split; [|split; [|]]].
    + rewrite (filter_map_same_key
                 (fun u => if String.eqb (User.id u) id
                           then updatedUser u userData d else u)).
      * rewrite Hfilter. simpl. now rewrite Hid, String.eqb_refl.
      * intros u. now destruct (String.eqb (User.id u) id).
    + intros id' Hne.
      rewrite (filter_map_same_key
                 (fun u => if String.eqb (User.id u) id
                           then updatedUser u userData d else u)).
      * destruct (filter (fun u => String.eqb (User.id u) id') (users (store w)))
          as [|u0 l0] eqn:Hf; [reflexivity|]. simpl.
        assert (Hu0 : In u0 (filter (fun u => String.eqb (User.id u) id')
                               (users (store w))))
          by (rewrite Hf; now left).
        apply filter_In in Hu0 as [_ Hu0]. apply String.eqb_eq in Hu0.
        replace (String.eqb (User.id u0) id) with false; [reflexivity|].
        symmetry. apply String.eqb_neq. congruence.
      * intros u. now destruct (String.eqb (User.id u) id).
    + rewrite length_map. lia.
    + intros old' Hold. injection Hold as <-.
      split; [reflexivity|].
      repeat split; intros Hx; simpl; rewrite Hx; reflexivity.
  - assert (Hnone : filter (fun u => String.eqb (User.id u) id)
                      (users (store w)) = [])
      by (apply existsb_false_filter; exact Hhas).
    rewrite Hnone. simpl hd_error. cbv iota.
    eexists. split; [reflexivity|]. cbn [store withUsers users].
    split; [reflexivity|]. split; [|split; [|split]].
    + rewrite filter_app, Hnone. simpl. now rewrite String.eqb_refl.
    + intros id' Hne. rewrite filter_app. simpl.
      replace (String.eqb id id') with false; [now rewrite app_nil_r|].
      symmetry. apply String.eqb_neq. congruence.
    + rewrite length_app. simpl. lia.
    + discriminate.
Qed.

Lemma upsertUser_outcome_witness :
  exists row w',
    upsertUser (sampleUpsert (Some "bob") (val "bob@example.org")) sampleEnv
      world3 = (Ok row, w')
    /\ getUser (store w') "bob" = Some row
    /\ User.email row = Some "bob@example.org".
Proof.
  destruct (upsertUser_outcome
              (sampleUpsert (Some "bob") (val "bob@example.org"))
              sampleEnv world3 eq_refl) as [w' [Hrun [_ [Hget _]]]].
  eexists. exists w'. split; [exact Hrun|]. split; [exact Hget|reflexivity].
Defined.

(** X16.  POST /api/users/status answers success when [isOnline] of the
    body is a boolean, [null] or missing; it answers 500 only for another
    value that the database refuses for the boolean column, and then it
    has written nothing.  On success, an id that is no user's changes
    nothing; for a user the handler stamps [lastSeen] and [updatedAt] with
    the server's clock and sets [isOnline] to the boolean of the body
    (leaving it alone when the body has none).  Never does it change
    another column, another user or another table. *)
Theorem postStatusHandler_outcome {E : QueryEngine} (userId : string)
  (isOnline_ : BodyValue) (env : Env) (w : World) :
  exists resp w',
    postStatusHandler userId isOnline_ env w = (Ok resp, w')
    /\ (resp = json true
        \/ resp = status 500 "Failed to update user status"
           /\ store w' = store w
           /\ exists jsonText e,
                isOnline_ = jsonOther jsonText
                /\ booleanColumn jsonText = Throw e)
    /\ (hasUser (store w) userId = false -> store w' = store w)
    /\ (resp = json true ->
        forall old, getUser (store w) userId = Some old ->
          exists row,
            getUser (store w') userId = Some row
            /\ match isOnline_ with
               | missing => User.isOnline row = User.isOnline old
               | jsonNull => User.isOnline row = None
               | jsonBoolean b => User.isOnline row = Some b
               | jsonOther jsonText =>
                   booleanColumn jsonText = Ok (User.isOnline row)
               end
            /\ User.lastSeen row = Some (newDate env (drawn w))
            /\ User.updatedAt row = Some (newDate env (1 + drawn w))
            /\ User.id row = User.id old
            /\ User.email row = User.email old
            /\ User.firstName row = User.firstName old
            /\ User.lastName row = User.lastName old
            /\ User.profileImageUrl row = User.profileImageUrl old
            /\ User.createdAt row = User.createdAt old)
    /\ (forall id', id' <> userId ->
          getUser (store w') id' = getUser (store w) id')
    /\ conversations (store w') = conversations (store w)
    /\ conversationMembers (store w') = conversationMembers (store w)
    /\ messages (store w') = messages (store w)
    /\ messageReadReceipts (store w') = messageReadReceipts (store w).
Proof.
  unfold postStatusHandler, updateUserOnlineStatus, tryCatch, bind, draw,
    statement, ret.
  cbn [store drawn].
  destruct (booleanParam isOnline_) as [v|e] eqn:Hparam.
  2:{ (* the database refuses the value *)
    eexists _, _. split; [reflexivity|]. cbn [store].
    split; [|repeat split; try reflexivity; discriminate].
    right. split; [reflexivity|]. split; [reflexivity|].
    destruct isOnline_ as [| |b|jsonText]; try discriminate Hparam.
    cbn [booleanParam] in Hparam.
    destruct (booleanColumn jsonText) as [[b|]|e'] eqn:Hcol;
      try discriminate Hparam.
    now exists jsonText, e'. }
  unfold updateUserStatus.
  eexists _, _. split; [reflexivity|]. cbn [store withUsers].
  set (f := fun u : User.t => if String.eqb (User.id u) userId then _ else u).
  assert (Hf : forall u, User.id (f u) = User.id u).
  { intros u. unfold f. now destruct (String.eqb (User.id u) userId). }
  split; [now left|].
  split; [|split; [|split; [|repeat split]]].
  - intros Hno. destruct (store w) as [us cs ms msgs rs]. unfold withUsers.
    cbn [users conversations conversationMembers messages messageReadReceipts]
      in *.
    f_equal. rewrite <- (map_id us) at 2. apply map_ext_in. intros u Hu.
    unfold f. replace (String.eqb (User.id u) userId) with false;
      [reflexivity|].
    symmetry. unfold hasUser in Hno. cbn [users] in Hno.
    destruct (String.eqb (User.id u) userId) eqn:Heq; [|reflexivity].
    assert (existsb (fun u => String.eqb (User.id u) userId) us = true)
      by (apply existsb_exists; eauto). congruence.
  - intros _ old Hold. unfold getUser, where_ in *. cbn [users withUsers].
    rewrite (filter_map_same_key f userId _ Hf).
    destruct (filter (fun u => String.eqb (User.id u) userId) (users (store w)))
      as [|u0 l0] eqn:Hfilter; [discriminate|].
    injection Hold as ->.
    assert (Hid : String.eqb (User.id old) userId = true).
    { assert (Hin : In old (filter (fun u => String.eqb (User.id u) userId)
                              (users (store w))))
        by (rewrite Hfilter; now left).
      now apply filter_In in Hin. }
    eexists. split; [reflexivity|]. unfold f. rewrite Hid.
    cbn [User.isOnline User.lastSeen User.updatedAt User.id User.email
         User.firstName User.lastName User.profileImageUrl User.createdAt].
    split; [|repeat split].
    destruct isOnline_ as [| |b|jsonText]; cbn [booleanParam] in Hparam.
    + now injection Hparam as <-.
    + now injection Hparam as <-.
    + now injection Hparam as <-.
    + destruct (booleanColumn jsonText) as [[b|]|e'];
        try discriminate Hparam; now injection Hparam as <-.
  - intros id' Hne. unfold getUser, where_. cbn [users withUsers].
    rewrite (filter_map_same_key f id' _ Hf).
    destruct (filter (fun u => String.eqb (User.id u) id') (users (store w)))
      as [|u0 l0] eqn:Hfilter; [reflexivity|]. simpl.
    assert (Hin : In u0 (filter (fun u => String.eqb (User.id u) id')
                           (users (store w))))
      by (rewrite Hfilter; now left).
    apply filter_In in Hin as [_ Hid]. apply String.eqb_eq in Hid.
    unfold f. replace (String.eqb (User.id u0) userId) with false;
      [reflexivity|].
    symmetry. apply String.eqb_neq. congruence.
Qed.

Lemma postStatusHandler_outcome_witness :
  (exists w' row,
     postStatusHandler (E := lastFirstEngine) "bob" (jsonBoolean true)
       sampleEnv world3 = (Ok (json true), w')
     /\ getUser (store w') "bob" = Some row
     /\ User.isOnline row = Some true
     /\ User.lastSeen row = Some (newDate sampleEnv (drawn world3)))
  /\ postStatusHandler (E := lastFirstEngine) "bob" (jsonOther "[]")
       sampleEnv world3
     = (Ok (status 500 "Failed to update user status"), advance 2 world3).
Proof.
  split.
  - destruct (postStatusHandler_outcome (E := lastFirstEngine) "bob"
                (jsonBoolean true) sampleEnv world3)
      as [resp [w' [Hrun [_ [_ [Hrow _]]]]]].
    assert (Hresp : resp = json true).
    { pose proof Hrun as Hc. vm_compute in Hc. now injection Hc as <- _. }
    subst resp.
    destruct (Hrow eq_refl (sampleUser "bob") eq_refl)
      as [row [Hget [Hon [Hseen _]]]].
    exists w', row. repeat apply conj; assumption.
  - reflexivity.
Defined.

(** ** What the writes keep *)

Section KeepsFacts.
Variable P : Store -> Prop.
Variables A B : Type.

Lemma Keeps_ret (a : A) : Keeps P (ret a).
Proof. intros env w H. exact H. Qed.

Lemma Keeps_throw (e : Error) : Keeps P (throw (A := A) e).
Proof. intros env w H. exact H. Qed.

Lemma Keeps_draw (f : Env -> nat -> A) : Keeps P (draw f).
Proof. intros env w H. exact H. Qed.

Lemma Keeps_query (f : Store -> A) : Keeps P (query f).
Proof. intros env w H. exact H. Qed.

Lemma Keeps_queryOutcome (f : Store -> Outcome A) : Keeps P (queryOutcome f).
Proof. intros env w H. exact H. Qed.

Lemma Keeps_bind (m : M A) (k : A -> M B) :
  Keeps P m -> (forall a, Keeps P (k a)) -> Keeps P (bind m k).
Proof.
  intros Hm Hk env w H. unfold bind. specialize (Hm env w H).
  destruct (m env w) as [[a|e] w1]; simpl in Hm; [|exact Hm].
  now apply Hk.
Qed.

Lemma Keeps_tryCatch (body : M A) (handler : Error -> M A) :
  Keeps P body -> (forall e, Keeps P (handler e)) ->
  Keeps P (tryCatch body handler).
Proof.
  intros Hm Hk env w H. unfold tryCatch. specialize (Hm env w H).
  destruct (body env w) as [[a|e] w1]; simpl in Hm; [exact Hm|].
  now apply Hk.
Qed.

Lemma Keeps_forEach (body : A -> M unit) (l : list A) :
  (forall a, Keeps P (body a)) -> Keeps P (forEach body l).
Proof.
  intros Hb. induction l as [|x l IH]; simpl.
  - intros env w H. exact H.
  - intros env w H. unfold bind. specialize (Hb x env w H).
    destruct (body x env w) as [[a|e] w1]; simpl in Hb; [|exact Hb].
    now apply IH.
Qed.

Lemma Keeps_statement (f : Store -> Outcome Store) :
  (forall st st', P st -> f st = Ok st' -> P st') -> Keeps P (statement f).
Proof.
  intros Hf env w H. unfold statement.
  destruct (f (store w)) as [st'|e] eqn:Hrun; simpl; [|exact H].
  now apply (Hf (store w)).
Qed.
End KeepsFacts.

Create HintDb keeps discriminated.

#[local] Hint Resolve Keeps_ret Keeps_throw Keeps_draw Keeps_query
  Keeps_queryOutcome Keeps_forEach : keeps.
#[local] Hint Extern 2 (Keeps _ (bind _ _)) =>
  apply Keeps_bind; [|intro] : keeps.
#[local] Hint Extern 2 (Keeps _ (tryCatch _ _)) =>
  apply Keeps_tryCatch; [|intro] : keeps.
#[local] Hint Extern 3 (Keeps _ (match ?x with _ => _ end)) =>
  destruct x : keeps.
#[local] Hint Extern 3 (Keeps _ (if ?x then _ else _)) =>
  destruct x : keeps.

(** The statements of the conversation and message handlers leave the
    table of users alone. *)
Lemma statements_keep_users (us : list User.t) (st st' : Store) :
  users st = us ->
  (exists row, insertConversation row st = Ok st')
  \/ (exists row, insertConversationMember row st = Ok st')
  \/ (exists row, insertMessage row st = Ok st')
  \/ (exists row, insertReadReceiptOnConflictDoNothing row st = Ok st')
  \/ (exists id d, updateConversationUpdatedAt id d st = Ok st') ->
  users st' = us.
Proof.
  intros Hus [[row H]|[[row H]|[[row H]|[[row H]|[id [d H]]]]]];
    revert H;
    unfold insertConversation, insertConversationMember, insertMessage,
      insertReadReceiptOnConflictDoNothing, updateConversationUpdatedAt;
    repeat match goal with
           | |- context [if ?b then _ else _] => destruct b
           end;
    intros H; try discriminate; injection H as <-; exact Hus.
Qed.

#[local] Hint Extern 2 (Keeps (fun st => users st = _) (statement _)) =>
  apply Keeps_statement; intros ? ? ? ?;
  eapply statements_keep_users; [eassumption|]; eauto 8 : keeps.

(** X17.  Creating conversations, adding members, posting, reading and
    marking as read never write the table of users: whatever these
    handlers answer, every user row is what it was. *)
Theorem handlers_keep_users {E : QueryEngine} (userId id : string)
  (us : list User.t) :
  (forall body,
     Keeps (fun st => users st = us) (postConversationsHandler userId body))
  /\ (forall limit_,
        Keeps (fun st => users st = us) (getMessagesHandler userId id limit_))
  /\ (forall body,
        Keeps (fun st => users st = us) (postMessagesHandler userId id body))
  /\ Keeps (fun st => users st = us) (postReadHandler userId id)
  /\ Keeps (fun st => users st = us) (postDirectHandler userId id)
  /\ Keeps (fun st => users st = us) (getConversationsHandler userId)
  /\ Keeps (fun st => users st = us) (authUserHandler userId)
  /\ Keeps (fun st => users st = us) (getUsersHandler userId).
Proof.
  repeat apply conj; intros;
    unfold postConversationsHandler, getMessagesHandler, postMessagesHandler,
      postReadHandler, postDirectHandler, getConversationsHandler,
      authUserHandler, getUsersHandler,
      createConversation, addConversationMember, createMessage,
      markMessageAsRead;
    auto 30 with keeps.
Qed.

(** ** The writes of users keep the database consistent *)

Lemma hasUser_by_ids (st : Store) (us : list User.t) (x : string) :
  hasUser (withUsers st us) x = existsb (fun i => String.eqb i x) (map User.id us).
Proof.
  unfold hasUser. cbn [withUsers users].
  induction us as [|u us IH]; simpl; [reflexivity|]. now rewrite IH.
Qed.

Lemma hasUser_ids (st : Store) (x : string) :
  hasUser st x = existsb (fun i => String.eqb i x) (map User.id (users st)).
Proof.
  unfold hasUser.
  induction (users st) as [|u us IH]; simpl; [reflexivity|]. now rewrite IH.
Qed.

(** New user rows that keep the ids, or add a new one, keep the keys. *)
Lemma StoreOk_withUsers (st : Store) (us : list User.t) :
  StoreOk st ->
  NoDup (map User.id us) ->
  (forall x, hasUser st x = true -> hasUser (withUsers st us) x = true) ->
  StoreOk (withUsers st us).
Proof.
  intros [H1 H2 H3 H4 H5 H6 H7 H8] Hnd Hmono.
  constructor; cbn [withUsers users conversations conversationMembers
                    messages messageReadReceipts]; try assumption.
  - intros cm Hcm. destruct (H6 cm Hcm) as [Ha Hb]. split; [exact Ha|].
    now apply Hmono.
  - intros m Hm. destruct (H7 m Hm) as [Ha Hb]. split; [exact Ha|].
    now apply Hmono.
  - intros r Hr. destruct (H8 r Hr) as [Ha Hb]. split; [exact Ha|].
    now apply Hmono.
Qed.

Lemma emailTaken_false (st : Store) (id e : string) (u : User.t) :
  emailTaken st id (Some e) = false ->
  In u (users st) -> User.email u = Some e -> User.id u = id.
Proof.
  unfold emailTaken. intros Hno Hu He.
  destruct (String.eqb (User.id u) id) eqn:Hid; [now apply String.eqb_eq|].
  exfalso.
  assert (existsb (fun u => neqb (User.id u) id
                            && match User.email u with
                               | Some e' => String.eqb e' e
                               | None => false
                               end) (users st) = true) as Ht.
  { apply existsb_exists. exists u. split; [exact Hu|].
    unfold neqb. rewrite Hid, He, String.eqb_refl. reflexivity. }
  congruence.
Qed.

Lemma upsertUserStatement_keeps (id : string) (t d : Z) (userData : UpsertUser)
  (st st' : Store) :
  StoreOk st /\ emails_unique st ->
  upsertUserStatement id t d userData st = Ok st' ->
  StoreOk st' /\ emails_unique st'.
Proof.
  intros [Hok Hemails]. unfold upsertUserStatement.
  set (row := upsertedUser st id t d userData).
  destruct (emailTaken st id (User.email row)) eqn:Htaken; [discriminate|].
  destruct (hasUser st id) eqn:Hhas; intros H; injection H as <-.
  - (* the row of [id] is updated *)
    destruct (getUser_found st id (users_pk Hok) Hhas)
      as [old [Hin [Hid Hfilter]]].
    assert (Hrow : row = updatedUser old userData d).
    { unfold row, upsertedUser, getUser, where_. now rewrite Hfilter. }
    set (f := fun u => if String.eqb (User.id u) id
                       then updatedUser u userData d else u).
    assert (Hf : forall u, User.id (f u) = User.id u).
    { intros u. unfold f. now destruct (String.eqb (User.id u) id). }
    assert (Hids : map User.id (map f (users st)) = map User.id (users st)).
    { rewrite map_map. now apply map_ext. }
    split.
    + apply StoreOk_withUsers; [exact Hok| |].
      * rewrite Hids. apply (users_pk Hok).
      * intros x Hx. rewrite hasUser_by_ids, Hids, <- hasUser_ids. exact Hx.
    + intros u' v' e Hu' Hv' Heu Hev. cbn [withUsers users] in Hu', Hv'.
      apply in_map_iff in Hu' as [u [<- Hu]].
      apply in_map_iff in Hv' as [v [<- Hv]].
      rewrite !Hf.
      assert (Hcase : forall a b,
                 In a (users st) -> In b (users st) ->
                 User.id a = id -> User.email (f a) = Some e ->
                 User.email (f b) = Some e -> User.id a = User.id b).
      { intros a b Ha Hb Hida Hea Heb.
        destruct (String.eqb (User.id b) id) eqn:Hidb;
          [apply String.eqb_eq in Hidb; congruence|].
        assert (a = old)
          by (apply (NoDup_key_inj User.id (users st));
              [apply (users_pk Hok)|assumption|assumption|congruence]).
        subst a. unfold f in Hea, Heb. rewrite Hidb in Heb.
        rewrite Hid, String.eqb_refl in Hea. rewrite <- Hrow in Hea.
        rewrite Hea in Htaken.
        rewrite (emailTaken_false _ _ _ Htaken Hb Heb). exact Hid. }
      destruct (String.eqb (User.id u) id) eqn:Hidu.
      * apply String.eqb_eq in Hidu. now apply Hcase.
      * destruct (String.eqb (User.id v) id) eqn:Hidv.
        -- apply String.eqb_eq in Hidv. symmetry. now apply Hcase.
        -- unfold f in Heu, Hev. rewrite Hidu in Heu. rewrite Hidv in Hev.
           now apply (Hemails u v e).
  - (* a row is inserted *)
    assert (Hrow : User.id row = id).
    { unfold row, upsertedUser, getUser, where_.
      unfold hasUser in Hhas. now rewrite (existsb_false_filter _ _ Hhas). }
    split.
    + apply StoreOk_withUsers; [exact Hok| |].
      * apply NoDup_snoc; [apply (users_pk Hok)|]. now rewrite Hrow.
      * intros x Hx. unfold hasUser. cbn [withUsers users].
        now apply existsb_app_l.
    + assert (Hnew : forall v e, In v (users st) -> User.email v = Some e ->
                       User.email row = Some e -> False).
      { intros v e Hv Hev Her. rewrite Her in Htaken.
        pose proof (emailTaken_false _ _ _ Htaken Hv Hev) as Hidv.
        assert (hasUser st id = true)
          by (apply hasUser_In; exists v; now split).
        congruence. }
      intros u' v' e Hu' Hv' Heu Hev. cbn [withUsers users] in Hu', Hv'.
      apply in_app_or in Hu' as [Hu|[<-|[]]];
        apply in_app_or in Hv' as [Hv|[<-|[]]].
      * now apply (Hemails u' v' e).
      * exfalso. now apply (Hnew u' e).
      * exfalso. now apply (Hnew v' e).
      * reflexivity.
Qed.

Lemma updateUserStatus_keeps (userId : string) (isOnline_ : Nullish bool)
  (lastSeen_ updatedAt_ : Z) (st st' : Store) :
  StoreOk st /\ emails_unique st ->
  updateUserStatus userId isOnline_ lastSeen_ updatedAt_ st = Ok st' ->
  StoreOk st' /\ emails_unique st'.
Proof.
  intros [Hok Hemails]. unfold updateUserStatus. intros H. injection H as <-.
  set (f := fun u : User.t => if String.eqb (User.id u) userId then _ else u).
  assert (Hf : forall u, User.id (f u) = User.id u
                         /\ User.email (f u) = User.email u).
  { intros u. unfold f. now destruct (String.eqb (User.id u) userId). }
  assert (Hids : map User.id (map f (users st)) = map User.id (users st)).
  { rewrite map_map. apply map_ext. intros u. apply Hf. }
  split.
  - apply StoreOk_withUsers; [exact Hok| |].
    + rewrite Hids. apply (users_pk Hok).
    + intros x Hx. rewrite hasUser_by_ids, Hids, <- hasUser_ids. exact Hx.
  - intros u' v' e Hu' Hv' Heu Hev. cbn [withUsers users] in Hu', Hv'.
    apply in_map_iff in Hu' as [u [<- Hu]].
    apply in_map_iff in Hv' as [v [<- Hv]].
    destruct (Hf u) as [-> Heu']. destruct (Hf v) as [-> Hev'].
    rewrite Heu' in Heu. rewrite Hev' in Hev. now apply (Hemails u v e).
Qed.

(** X18.  [upsertUser] and POST /api/users/status take a database with
    its keys intact and no email held by two users to another such
    database, also when they throw. *)
Theorem user_writes_keep_integrity {E : QueryEngine} (userData : UpsertUser)
  (userId : string) (isOnline_ : BodyValue) :
  Keeps (fun st => StoreOk st /\ emails_unique st) (upsertUser userData)
  /\ Keeps (fun st => StoreOk st /\ emails_unique st)
       (postStatusHandler userId isOnline_).
Proof.
  split.
  - unfold upsertUser. repeat (apply Keeps_bind; [|intro]);
      try (destruct (uu_id userData));
      auto using Keeps_ret, Keeps_draw, Keeps_query.
    all: apply Keeps_statement; intros st st';
      apply upsertUserStatement_keeps.
  - unfold postStatusHandler, updateUserOnlineStatus.
    apply Keeps_tryCatch; [|intro; apply Keeps_ret].
    repeat (apply Keeps_bind; [|intro]);
      auto using Keeps_ret, Keeps_draw.
    all: apply Keeps_statement; intros st st' HP Hrun;
      destruct (booleanParam isOnline_) as [v|e]; [|discriminate Hrun];
      eapply updateUserStatus_keeps; eassumption.
Qed.

(** ** Creating a conversation: the success path *)

Lemma memberRowIds_S (env : Env) (start k : nat) :
  memberRowIds env start (S k)
  = gen_random_uuid env start :: memberRowIds env (2 + start) k.
Proof.
  unfold memberRowIds. cbn [seq map]. f_equal.
  rewrite <- seq_shift, map_map. apply map_ext. intros j.
  f_equal. lia.
Qed.

Lemma hasMember_withMembers (st : Store) (row : ConversationMember.t)
  (x : string) :
  hasMember (withMembers st [row]) x
  = hasMember st x || String.eqb (ConversationMember.id row) x.
Proof.
  unfold hasMember. cbn [withMembers conversationMembers].
  rewrite existsb_app. simpl. now rewrite orb_false_r.
Qed.

(** One insert of a membership row that goes through. *)
Lemma addConversationMember_succeeds (m : InsertConversationMember)
  (env : Env) (w : World) :
  hasMember (store w) (gen_random_uuid env (drawn w)) = false ->
  hasConversation (store w) (icm_conversationId m) = true ->
  hasUser (store w) (icm_userId m) = true ->
  exists row,
    addConversationMember m env w
    = (Ok row, {| store := withMembers (store w) [row]; drawn := 2 + drawn w |})
    /\ ConversationMember.id row = gen_random_uuid env (drawn w).
Proof.
  intros Hfresh Hc Hu. rewrite addConversationMember_run. cbv zeta.
  unfold insertConversationMember.
  cbn [ConversationMember.id ConversationMember.conversationId
       ConversationMember.userId].
  rewrite Hfresh, Hc, Hu. cbn [andb negb].
  eexists. split; reflexivity.
Qed.

Lemma forEach_addOther_succeeds (userId conversationId : string)
  (memberIds : list string) (env : Env) (w : World) :
  hasConversation (store w) conversationId = true ->
  Forall (fun u => hasUser (store w) u = true)
    (filter (fun memberId => neqb memberId userId) memberIds) ->
  NoDup (memberRowIds env (drawn w)
           (List.length (filter (fun memberId => neqb memberId userId)
                           memberIds))) ->
  Forall (fun i => hasMember (store w) i = false)
    (memberRowIds env (drawn w)
       (List.length (filter (fun memberId => neqb memberId userId)
                       memberIds))) ->
  exists w', forEach (addOther userId conversationId) memberIds env w
             = (Ok tt, w').
Proof.
  revert w. induction memberIds as [|x l IH]; intros w Hc Hu Hnd Hfresh.
  - eexists. reflexivity.
  - cbn [forEach filter] in *. unfold bind at 1. unfold addOther at 1.
    destruct (neqb x userId).
    + cbn [List.length] in Hnd, Hfresh. rewrite memberRowIds_S in Hnd, Hfresh.
      inversion Hu as [|? ? Hux Hul]; subst.
      inversion Hnd as [|? ? Hnotin Hnd']; subst.
      inversion Hfresh as [|? ? Hf0 Hfl]; subst.
      destruct (addConversationMember_succeeds
                  {| icm_conversationId := conversationId; icm_userId := x |}
                  env w Hf0 Hc Hux) as [row [Hrun Hid]].
      unfold bind at 1. rewrite Hrun. unfold ret at 1. cbv beta iota.
      apply IH; cbn [store drawn]; try assumption.
      rewrite Forall_forall in *. intros i Hi.
      rewrite hasMember_withMembers, (Hfl i Hi), Hid. simpl.
      apply String.eqb_neq. intros Heq. apply Hnotin. now rewrite Heq.
    + unfold ret at 1. cbv beta iota. now apply IH.
Qed.

(** X19.  POST /api/conversations answers with the new conversation, and
    with the membership rows of the creator and of every requested member
    other than the creator written, whenever the list of members is not
    empty, all these users exist, and the ids generated for the new rows
    are new. *)
Theorem postConversationsHandler_succeeds (userId : string)
  (body : CreateConversationBody) (env : Env) (w : World) :
  body_memberIds body <> [] ->
  hasConversation (store w) (gen_random_uuid env (drawn w)) = false ->
  forallb (hasUser (store w)) (attached userId (body_memberIds body)) = true ->
  nodupb (memberRowIds env (2 + drawn w)
            (List.length (attached userId (body_memberIds body)))) = true ->
  forallb (fun i => negb (hasMember (store w) i))
    (memberRowIds env (2 + drawn w)
       (List.length (attached userId (body_memberIds body)))) = true ->
  exists c w' rows,
    postConversationsHandler userId body env w = (Ok (json c), w')
    /\ Conversation.id c = gen_random_uuid env (drawn w)
    /\ Conversation.name c = columnDefault None (body_name body)
    /\ Conversation.isGroup c = columnDefault (Some false) (body_isGroup body)
    /\ Grown (store w) (store w') c rows
    /\ map ConversationMember.userId rows
       = attached userId (body_memberIds body).
Proof.
  intros Hne Hfresh Husers Hnd Hnew.
  apply nodupb_NoDup in Hnd.
  rewrite forallb_forall in Husers, Hnew.
  unfold attached in *. cbn [List.length] in Hnd, Hnew.
  rewrite memberRowIds_S in Hnd, Hnew.
  inversion Hnd as [|? ? Hnotin Hnd']; subst.
  set (c := Conversation.mk (gen_random_uuid env (drawn w))
              (columnDefault None (body_name body))
              (columnDefault (Some false) (body_isGroup body))
              (now env (S (drawn w))) (now env (S (drawn w)))).
  set (w1 := {| store := withConversation (store w) c;
                drawn := 2 + drawn w |}).
  assert (Hconv1 : hasConversation (store w1) (Conversation.id c) = true).
  { unfold hasConversation. cbn [w1 store withConversation conversations].
    rewrite existsb_app. simpl. rewrite String.eqb_refl.
    now rewrite orb_true_r. }
  destruct (addConversationMember_succeeds
              {| icm_conversationId := Conversation.id c;
                 icm_userId := userId |} env w1) as [row [Hadd Hid]].
  { specialize (Hnew _ (or_introl eq_refl)).
    now apply negb_true_iff in Hnew. }
  { exact Hconv1. }
  { apply (Husers userId). now left. }
  destruct (forEach_addOther_succeeds userId (Conversation.id c)
              (body_memberIds body) env
              {| store := withMembers (store w1) [row];
                 drawn := 2 + drawn w1 |}) as [w3 Hloop].
  { exact Hconv1. }
  { rewrite Forall_forall. intros u Hu. apply (Husers u). now right. }
  { exact Hnd'. }
  { rewrite Forall_forall. intros i Hi. cbn [store drawn w1].
    rewrite hasMember_withMembers, Hid. cbn [drawn w1].
    assert (Hi' : hasMember (store w) i = false).
    { specialize (Hnew i (or_intror Hi)). now apply negb_true_iff in Hnew. }
    unfold hasMember in *. cbn [withConversation conversationMembers].
    rewrite Hi'. simpl. apply String.eqb_neq. intros Heq.
    apply Hnotin. now rewrite Heq. }
  assert (Hrun : postConversationsHandler userId body env w
                 = (Ok (json c), w3)).
  { unfold postConversationsHandler, tryCatch.
    assert (Hparse : match body_memberIds body with
                     | [] => throw ZodError
                     | _ :: _ => ret tt
                     end = ret tt)
      by (destruct (body_memberIds body); [contradiction|reflexivity]).
    rewrite Hparse. clear Hparse.
    unfold bind at 1. unfold ret at 1. unfold bind at 1.
    rewrite createConversation_run. cbv zeta. unfold insertConversation.
    cbn [ic_name ic_isGroup Conversation.id]. rewrite Hfresh.
    unfold bind at 1. fold c. fold (withConversation (store w) c). fold w1.
    rewrite Hadd. unfold bind at 1.
    fold (addOther userId (Conversation.id c)). now rewrite Hloop. }
  exists c, w3.
  destruct (postConversationsHandler_effect _ _ _ _ Hrun)
    as [[H _]|[c' [rows [Hg [_ [[Ho Hrows]|[Ho _]]]]]]]; try discriminate.
  injection Ho as <-. exists rows.
  split; [exact Hrun|]. do 3 (split; [reflexivity|]).
  split; [exact Hg|exact Hrows].
Qed.

Lemma postConversationsHandler_succeeds_witness :
  exists c w' rows,
    postConversationsHandler "alice"
      {| body_name := val "team"; body_isGroup := val true;
         body_memberIds := ["bob"; "alice"; "eve"] |} sampleEnv world0
    = (Ok (json c), w')
    /\ Grown (store world0) (store w') c rows
    /\ map ConversationMember.userId rows = ["alice"; "bob"; "eve"].
Proof.
  destruct (postConversationsHandler_succeeds "alice"
              {| body_name := val "team"; body_isGroup := val true;
                 body_memberIds := ["bob"; "alice"; "eve"] |}
              sampleEnv world0)
    as [c [w' [rows [Hrun [_ [_ [_ [Hg Hrows]]]]]]]];
    [discriminate|reflexivity|reflexivity|reflexivity|reflexivity|].
  exists c, w', rows. split; [exact Hrun|]. split; [exact Hg|exact Hrows].
Defined.

(** ** The membership check and the direct conversation, on samples *)

Lemma isMemberOf_getConversationMembers_witness :
  isMemberOf (getConversationMembers (store world3) "a") "eve"
  = isMember (store world3) "a" "eve".
Proof.
  exact (isMemberOf_getConversationMembers "a" "eve"
           (proj1 (store_ok_StoreOk (store world3)) eq_refl)).
Defined.

Lemma postDirectHandler_twice_witness :
  exists b1 b2 w1,
    postDirectHandler (E := lastFirstEngine) "bob" "eve" sampleEnv world3
    = (Ok (json b1), w1)
    /\ postDirectHandler (E := lastFirstEngine) "bob" "eve" sampleEnv w1
       = (Ok (json b2), w1)
    /\ directId b1 = directId b2.
Proof.
  apply (@postDirectHandler_twice lastFirstEngine sampleEnv world3 "bob" "eve"
           (proj1 (store_ok_StoreOk (store world3)) eq_refl)).
  - discriminate.
  - reflexivity.
  - reflexivity.
  - reflexivity.
  - reflexivity.
  - reflexivity.
  - discriminate.
Defined.

(** ** The names the client shows *)

Lemma truthy_Some (s : option string) :
  truthy s = true -> exists x, s = Some x /\ x <> "".
Proof.
  destruct s as [x|]; simpl; [|discriminate].
  intros H. exists x. split; [reflexivity|].
  now apply String.eqb_neq, negb_true_iff.
Qed.

Lemma orElse_not_empty (s : option string) (d : string) :
  d <> "" -> orElse s d <> "".
Proof.
  intros Hd. unfold orElse. destruct (truthy s) eqn:Ht; [|exact Hd].
  destruct (truthy_Some _ Ht) as [x [-> Hx]]. exact Hx.
Qed.

Lemma truthy_present (s : option string) (x : string) :
  s = Some x -> x <> "" -> truthy s = true.
Proof.
  intros -> Hx. simpl. now apply negb_true_iff, String.eqb_neq.
Qed.

Lemma truthy_absent (s : option string) :
  s = None \/ s = Some "" -> truthy s = false.
Proof. intros [->| ->]; reflexivity. Qed.

(** X20.  [getUserDisplayName] of the chat components and
    [getConversationName] of the sidebar never return the empty string.
    A user is shown with both names when both are there and not empty,
    else with the email when there is one, else as "Unknown User"; a
    group with its name when it has one, else as "Group Chat"; and any
    other conversation with the name of its first other member, or as
    "Direct Chat" when there is none. *)
Theorem display_names_are_not_empty (user : User.t) (conv : ConversationSummary) :
  let absent (s : option string) := s = None \/ s = Some "" in
  getUserDisplayName user <> ""
  /\ getConversationName conv <> ""
  /\ (forall f l,
        User.firstName user = Some f -> f <> "" ->
        User.lastName user = Some l -> l <> "" ->
        getUserDisplayName user = (f ++ " " ++ l)%string)
  /\ (absent (User.firstName user) \/ absent (User.lastName user) ->
      (forall e, User.email user = Some e -> e <> "" ->
         getUserDisplayName user = e)
      /\ (absent (User.email user) ->
          getUserDisplayName user = "Unknown User"))
  /\ (Conversation.isGroup (conversation conv) = Some true ->
      (forall n, Conversation.name (conversation conv) = Some n -> n <> "" ->
         getConversationName conv = n)
      /\ (absent (Conversation.name (conversation conv)) ->
          getConversationName conv = "Group Chat"))
  /\ (Conversation.isGroup (conversation conv) <> Some true ->
      match otherMembers conv with
      | otherUser :: _ =>
          getConversationName conv = getUserDisplayName otherUser
      | [] => getConversationName conv = "Direct Chat"
      end).
Proof.
  cbv zeta.
  assert (Hname : forall u, getUserDisplayName u <> "").
  { intros u. unfold getUserDisplayName.
    destruct (truthy (User.firstName u) && truthy (User.lastName u)) eqn:Hboth.
    - apply andb_true_iff in Hboth as [Hf _].
      destruct (truthy_Some _ Hf) as [x [-> Hx]]. simpl.
      destruct x; [contradiction|discriminate].
    - apply orElse_not_empty. discriminate. }
  split; [apply Hname|]. split; [|split; [|split; [|split]]].
  - unfold getConversationName.
    destruct (negb (not_ (Conversation.isGroup (conversation conv)))).
    + apply orElse_not_empty. discriminate.
    + destruct (otherMembers conv); [discriminate|apply Hname].
  - intros f l Hf Hfne Hl Hlne. unfold getUserDisplayName.
    rewrite (truthy_present Hf Hfne), (truthy_present Hl Hlne).
    now rewrite Hf, Hl.
  - intros Hnames.
    assert (Hboth : truthy (User.firstName user)
                    && truthy (User.lastName user) = false).
    { destruct Hnames as [H|H]; rewrite (truthy_absent H);
        [reflexivity|apply andb_false_r]. }
    unfold getUserDisplayName, orElse. rewrite Hboth. split.
    + intros e He Hene. now rewrite (truthy_present He Hene), He.
    + intros He. now rewrite (truthy_absent He).
  - intros Hgroup. unfold getConversationName, orElse. rewrite Hgroup.
    cbn [not_ negb]. split.
    + intros n Hn Hnne. now rewrite (truthy_present Hn Hnne), Hn.
    + intros Hn. now rewrite (truthy_absent Hn).
  - intros Hdirect. unfold getConversationName.
    assert (Hnot : not_ (Conversation.isGroup (conversation conv)) = true).
    { destruct (Conversation.isGroup (conversation conv)) as [[|]|];
        [contradiction|reflexivity|reflexivity]. }
    rewrite Hnot. cbn [negb]. now destruct (otherMembers conv).
Qed.

Lemma display_names_are_not_empty_witness :
  getUserDisplayName
    (User.mk "bob" (Some "bob@example.org") (Some "Bob") (Some "") None None
       None None None)
  = "bob@example.org"
  /\ getUserDisplayName
       (User.mk "eve" None (Some "Eve") (Some "Adams") None None None None
          None)
     = "Eve Adams".
Proof.
  split.
  - refine (proj1 (proj1 (proj2 (proj2 (proj2
              (display_names_are_not_empty
                 (User.mk "bob" (Some "bob@example.org") (Some "Bob")
                    (Some "") None None None None None)
                 {| conversation := Conversation.mk "a" None (Some false) 0 0;
                    lastMessage := None;
                    unreadCount := 0;
                    otherMembers := [] |})))) _)
              "bob@example.org" eq_refl _);
      [right; right; reflexivity|discriminate].
  - reflexivity.
Defined.
